(** * Browser-automation core: action primitives, Load-Wait, download
      detector and remote-job orchestrator

    Shallow embedding of
      - [source_code/utils/decorators.py]            ([check_new_file]),
      - [source_code/processors/collection_processor/selenium_scraper.py]
        ([SeleniumScraper]),
      - [source_code/processors/geocoding_processor/geocoder.py]
        ([Geocoder.monitoring_progress]).

    The browser, the clock and the download directory are outside the
    program.  They are modelled by an environment [Env] of scripted answers:
    the [n]-th call of a driver operation gets the [n]-th answer of that
    operation's script, an answer being a value or a raised exception.  The
    program state [World] holds the clock, the content of the download
    directory and the chronological trace of every interaction.  Python
    code becomes a computation [M A := World -> Outcome A]; an outcome is a
    returned value, a raised exception, or fuel exhaustion for the loops
    the source leaves unbounded.  Time is counted in whole seconds.  File
    paths and XPaths are byte strings.  Calls of [logger], and the
    parameters [log] and [msg] that only feed them, have no effect on
    control flow and are left out. *)

From Stdlib Require Import ZArith List Ascii String Lia Bool.
From stdpp Require Import base gmap sets strings sorting.
Import ListNotations.
Open Scope string_scope.
Open Scope Z_scope.
Open Scope list_scope.

(** ** Strings as Python uses them here *)

Definition lower_ascii (c : ascii) : ascii :=
  let n := nat_of_ascii c in
  if ((65 <=? n)%nat && (n <=? 90)%nat)%bool then ascii_of_nat (n + 32) else c.

(** [str.lower()] on the bytes of a path: ASCII capitals are lowered,
    every other byte is kept (no character outside ASCII lowers to a
    letter of [.crdownload] or [.tmp]). *)
Fixpoint lower (s : string) : string :=
  match s with
  | EmptyString => EmptyString
  | String c s' => String (lower_ascii c) (lower s')
  end.

(** [s.endswith(suffix)] *)
Fixpoint endswith (suffix s : string) : bool :=
  if String.eqb s suffix then true
  else match s with
       | EmptyString => false
       | String _ s' => endswith suffix s'
       end.

(** [sub in s] *)
Fixpoint contains (sub s : string) : bool :=
  if String.prefix sub s then true
  else match s with
       | EmptyString => false
       | String _ s' => contains sub s'
       end.

(** The double-quote character, for the XPath literals of the source. *)
Definition dq : string := String (ascii_of_nat 34) EmptyString.

(** ** Exceptions, elements, driver answers *)

Inductive Exn : Type :=
| TimeoutException
| NoAlertPresentException
| NoSuchWindowException
| UnexpectedAlertPresentException
| WebDriverException
| AttributeError
| TypeError
| UnboundLocalError.

(** A [WebElement] handle. *)
Definition Element : Type := nat.

(** What a driver operation answers: a value, or an exception. *)
Inductive Resp (A : Type) : Type :=
| Normal (a : A)
| Throws (x : Exn).
Arguments Normal {A} a.
Arguments Throws {A} x.

(** ** Interactions with the outside *)

Inductive Op : Type :=
| OGet | OWaitVisible | OWaitAllVisible | OWaitClickable | OClick
| OSendKeys | OSelectInit | OSelectByValue | OWaitWindows | OWindowHandles
| OSwitchWindow | OCurrentUrl | OSwitchFrame | ORefresh | OSleep
| OSwitchToAlert | OAlertAccept | OWaitReady | OScreenshot | OGetAttribute
| OGlob.

Inductive Event : Type :=
| EvGet (url : string)
| EvWaitVisible (xpath : string) (timeout : Z)
| EvWaitAllVisible (xpath : string) (timeout : Z)
| EvWaitClickable (xpath : string) (timeout : Z)
| EvClick (el : Element)
| EvSendKeys (el : Element) (value : string)
| EvSelectInit (el : Element)
| EvSelectByValue (el : Element) (value : string)
| EvWaitWindows (timeout : Z) (min_windows : Z)
| EvWindowHandles
| EvSwitchWindow (handle : string)
| EvCurrentUrl
| EvSwitchFrame (el : Element)
| EvRefresh
| EvSleep (d : Z)
| EvSwitchToAlert
| EvAlertAccept
| EvWaitReady (timeout : Z)
| EvScreenshot (path : string)
| EvGetAttribute (el : Element) (name : string)
| EvGlob.

Definition kind (ev : Event) : Op :=
  match ev with
  | EvGet _ => OGet
  | EvWaitVisible _ _ => OWaitVisible
  | EvWaitAllVisible _ _ => OWaitAllVisible
  | EvWaitClickable _ _ => OWaitClickable
  | EvClick _ => OClick
  | EvSendKeys _ _ => OSendKeys
  | EvSelectInit _ => OSelectInit
  | EvSelectByValue _ _ => OSelectByValue
  | EvWaitWindows _ _ => OWaitWindows
  | EvWindowHandles => OWindowHandles
  | EvSwitchWindow _ => OSwitchWindow
  | EvCurrentUrl => OCurrentUrl
  | EvSwitchFrame _ => OSwitchFrame
  | EvRefresh => ORefresh
  | EvSleep _ => OSleep
  | EvSwitchToAlert => OSwitchToAlert
  | EvAlertAccept => OAlertAccept
  | EvWaitReady _ => OWaitReady
  | EvScreenshot _ => OScreenshot
  | EvGetAttribute _ _ => OGetAttribute
  | EvGlob => OGlob
  end.

Definition Op_eq_dec (a b : Op) : {a = b} + {a <> b}.
Proof. decide equality. Defined.

Definition Event_eq_dec (a b : Event) : {a = b} + {a <> b}.
Proof.
  decide equality;
    try apply String.string_dec; try apply Z.eq_dec; apply Nat.eq_dec.
Defined.

(** Number of interactions of kind [o] in a trace. *)
Fixpoint count_op (o : Op) (l : list Event) : nat :=
  match l with
  | [] => O
  | ev :: l' => ((if Op_eq_dec (kind ev) o then 1 else 0) + count_op o l')%nat
  end.

(** Number of occurrences of one event in a trace. *)
Definition count_event (ev : Event) (l : list Event) : nat :=
  count_occ Event_eq_dec l ev.

(** The scripted environment.  Every script is indexed by the number of
    earlier calls of the same operation. *)
Record Env : Type := {
  (** time the [n]-th interaction takes, besides what it sleeps *)
  elapsed : nat -> nat;
  (** what other processes (the browser's downloads) do to the download
      directory during the [n]-th interaction *)
  fs_env : nat -> gset string -> gset string;
  (** [datetime.now().strftime(...)] as a function of the clock *)
  strftime : Z -> string;
  r_get : nat -> Resp unit;
  r_visible : nat -> Resp Element;
  r_all_visible : nat -> Resp (list Element);
  r_clickable : nat -> Resp Element;
  r_click : nat -> Resp unit;
  r_send_keys : nat -> Resp unit;
  r_select_init : nat -> Resp unit;
  r_select_by_value : nat -> Resp unit;
  r_wait_windows : nat -> Resp unit;
  r_window_handles : nat -> Resp (list string);
  r_switch_window : nat -> Resp unit;
  r_current_url : nat -> Resp string;
  r_switch_frame : nat -> Resp unit;
  r_refresh : nat -> Resp unit;
  r_switch_to_alert : nat -> Resp unit;
  r_alert_accept : nat -> Resp unit;
  r_ready : nat -> Resp unit;
  r_screenshot : nat -> Resp bool;
  r_attribute : nat -> Resp (option string)
}.

(** The state the program runs in. *)
Record World : Type := {
  clock : Z;
  dir : gset string;
  trace : list Event
}.

Definition calls (o : Op) (w : World) : nat := count_op o (trace w).

(** ** Computations *)

Inductive Outcome (A : Type) : Type :=
| Ret (a : A) (w : World)
| Raise (x : Exn) (w : World)
| OutOfFuel.
Arguments Ret {A} a w.
Arguments Raise {A} x w.
Arguments OutOfFuel {A}.

Definition M (A : Type) : Type := World -> Outcome A.

Definition ret {A} (a : A) : M A := fun w => Ret a w.

Definition raise {A} (x : Exn) : M A := fun w => Raise x w.

Definition diverge {A} : M A := fun _ => OutOfFuel.

Definition bind {A B} (m : M A) (k : A -> M B) : M B :=
  fun w =>
    match m w with
    | Ret a w' => k a w'
    | Raise x w' => Raise x w'
    | OutOfFuel => OutOfFuel
    end.

Notation "'let*' x ':=' m 'in' k" := (bind m (fun x => k))
  (at level 10, x name, m at level 100, k at level 200).
Notation "m1 ';;' m2" := (bind m1 (fun _ => m2))
  (at level 100, m2 at level 200, right associativity).

(** [try: body except <classes selected by handler>: ...] *)
Definition try_except {A} (body : M A) (handler : Exn -> option (M A)) : M A :=
  fun w =>
    match body w with
    | Ret a w' => Ret a w'
    | Raise x w' =>
        match handler x with
        | Some h => h w'
        | None => Raise x w'
        end
    | OutOfFuel => OutOfFuel
    end.

(** [try: body except Exception: ...], the exception reified: every
    exception of the model is a subclass of [Exception]. *)
Definition attempt {A} (body : M A) : M (Exn + A) :=
  fun w =>
    match body w with
    | Ret a w' => Ret (inr a) w'
    | Raise x w' => Ret (inl x) w'
    | OutOfFuel => OutOfFuel
    end.

Definition now : M Z := fun w => Ret (clock w) w.

(** ** The driver, the clock and the directory *)

Section Scraper.

Context (E : Env).

(** One interaction: the clock advances by what the interaction takes,
    other processes act on the directory, the event joins the trace. *)
Definition tick (ev : Event) (w : World) : World :=
  let n := length (trace w) in
  {| clock := clock w + Z.of_nat (elapsed E n);
     dir := fs_env E n (dir w);
     trace := trace w ++ [ev] |}.

(** A driver operation answered by its script. *)
Definition call {A} (ev : Event) (script : nat -> Resp A) : M A :=
  fun w =>
    match script (calls (kind ev) w) with
    | Normal a => Ret a (tick ev w)
    | Throws x => Raise x (tick ev w)
    end.

(** The world after [time.sleep(d)]. *)
Definition after_sleep (d : Z) (w : World) : World :=
  let w' := tick (EvSleep d) w in
  {| clock := clock w' + d; dir := dir w'; trace := trace w' |}.

(** [time.sleep(d)] *)
Definition sleep (d : Z) : M unit := fun w => Ret tt (after_sleep d w).

(** [set(self.download_dir.glob("*"))] *)
Definition glob : M (gset string) :=
  fun w => let w' := tick EvGlob w in Ret (dir w') w'.

(** The world once the session has written [path] into the directory. *)
Definition with_file (path : string) (w : World) : World :=
  {| clock := clock w; dir := {[ path ]} ∪ dir w; trace := trace w |}.

(** [self.driver.get_screenshot_as_file(path)]: [True] means the file
    was written. *)
Definition get_screenshot_as_file (path : string) : M bool :=
  fun w =>
    let w' := tick (EvScreenshot path) w in
    match r_screenshot E (calls OScreenshot w) with
    | Normal true => Ret true (with_file path w')
    | Normal false => Ret false w'
    | Throws x => Raise x w'
    end.

(** ** [SeleniumScraper] *)

Definition TIMEOUT : Z := 30.

(** [self.download_dir], as a string. *)
Context (download_dir : string).

(** [_yes_to_alert] *)
Fixpoint _yes_to_alert (fuel : nat) : M unit :=
  match fuel with
  | O => diverge
  | S fuel' =>
      sleep 3 ;;
      let* again :=
        try_except
          (call EvSwitchToAlert (r_switch_to_alert E) ;;
           call EvAlertAccept (r_alert_accept E) ;;
           ret true)
          (fun x =>
             match x with
             | NoAlertPresentException | NoSuchWindowException => Some (ret false)
             | _ => None
             end) in
      if again then _yes_to_alert fuel' else ret tt
  end.

(** [_wait_for_page_load].  The restart after a dialog is a call of the
    method by itself: [fuel] bounds the restarts of one run, and a run
    that needs more of them is [OutOfFuel].  The interpreter ends such a
    run with [RecursionError] once its recursion limit is reached; that
    limit is not part of this model. *)
Fixpoint _wait_for_page_load (fuel : nat) (timeout : Z) : M bool :=
  match fuel with
  | O => diverge
  | S fuel' =>
      _yes_to_alert fuel ;;
      let* r :=
        try_except
          (call (EvWaitReady timeout) (r_ready E) ;; ret (Some true))
          (fun x =>
             match x with
             | TimeoutException => Some (ret (Some false))
             | UnexpectedAlertPresentException => Some (ret None)
             | _ => None
             end) in
      match r with
      | Some b => ret b
      | None => _yes_to_alert fuel ;; _wait_for_page_load fuel' timeout
      end
  end.

(** [fetch_page] *)
Definition fetch_page (fuel : nat) (url : string) (timeout : Z) : M bool :=
  call (EvGet url) (r_get E) ;;
  let* loaded := _wait_for_page_load fuel timeout in
  if loaded then ret true else ret false.

(** [find_element]: [None] is the [False] the source returns. *)
Definition find_element (xpath : string) (timeout : Z) : M (option Element) :=
  try_except
    (let* element := call (EvWaitVisible xpath timeout) (r_visible E) in
     ret (Some element))
    (fun x => match x with TimeoutException => Some (ret None) | _ => None end).

(** [find_all_elements] *)
Definition find_all_elements (xpath : string) (timeout : Z)
  : M (option (list Element)) :=
  try_except
    (let* elements := call (EvWaitAllVisible xpath timeout) (r_all_visible E) in
     ret (Some elements))
    (fun x => match x with TimeoutException => Some (ret None) | _ => None end).

(** [send_key] *)
Definition send_key (xpath value : string) (timeout : Z) : M bool :=
  let* input_element := find_element xpath timeout in
  match input_element with
  | Some el => call (EvSendKeys el value) (r_send_keys E) ;; ret true
  | None => ret false
  end.

(** [click_element] *)
Definition click_element (fuel : nat) (xpath : string) (timeout : Z) : M bool :=
  let* found :=
    try_except
      (let* element := call (EvWaitClickable xpath timeout) (r_clickable E) in
       ret (Some element))
      (fun x => match x with TimeoutException => Some (ret None) | _ => None end) in
  match found with
  | None => ret false
  | Some element =>
      call (EvClick element) (r_click E) ;;
      _wait_for_page_load fuel TIMEOUT
  end.

(** [select_by_option_value] *)
Definition select_by_option_value (xpath value : string) (timeout : Z) : M bool :=
  let* select_element := find_element xpath timeout in
  match select_element with
  | Some el =>
      call (EvSelectInit el) (r_select_init E) ;;
      let* r := attempt (call (EvSelectByValue el value) (r_select_by_value E)) in
      match r with
      | inr _ => ret true
      | inl _ => ret false
      end
  | None => ret false
  end.

(** The [for handle in window_handles] loop of [switch_to_window]. *)
Fixpoint scan_windows (url : string) (window_handles : list string) : M bool :=
  match window_handles with
  | [] => ret false
  | handle :: rest =>
      call (EvSwitchWindow handle) (r_switch_window E) ;;
      let* current_url := call EvCurrentUrl (r_current_url E) in
      if contains url current_url then ret true else scan_windows url rest
  end.

(** [switch_to_window] *)
Definition switch_to_window (url : string) (timeout min_windows : Z) : M bool :=
  try_except
    (call (EvWaitWindows timeout min_windows) (r_wait_windows E) ;;
     let* window_handles := call EvWindowHandles (r_window_handles E) in
     scan_windows url window_handles)
    (fun x => match x with TimeoutException => Some (ret false) | _ => None end).

(** [switch_to_iframe] *)
Definition switch_to_iframe (xpath : string) (timeout : Z) : M bool :=
  let* iframe := find_element xpath timeout in
  match iframe with
  | Some el => call (EvSwitchFrame el) (r_switch_frame E) ;; ret true
  | None => ret false
  end.

(** [get_screenshot] *)
Definition screenshot_path (w : World) : string :=
  download_dir +:+ "/" +:+ strftime E (clock w) +:+ ".png".

Definition get_screenshot : M bool :=
  fun w =>
    let file_path := screenshot_path w in
    (let* saved := get_screenshot_as_file file_path in
     if saved then ret true else ret false) w.

(** ** [check_new_file] (utils/decorators.py) *)

(** The keyword arguments the wrapper and the wrapped function read. *)
Record Kwargs : Type := {
  kw_xpath : option string;
  kw_timeout : option Z
}.

(** [str(f).lower().endswith((".crdownload", ".tmp"))] *)
Definition is_provisional (f : string) : bool :=
  endswith ".crdownload" (lower f) || endswith ".tmp" (lower f).

(** [downloaded_files] of one poll: [new_files - tmp_files]. *)
Definition downloaded_files (current initial_files : gset string) : gset string :=
  let new_files := current ∖ initial_files in
  let tmp_files := filter (λ f, is_provisional f = true) new_files in
  new_files ∖ tmp_files.

(** The [while time.time() < end_time] loop of [wrapper]. *)
Fixpoint poll_new_file (fuel : nat) (end_time : Z) (initial_files : gset string)
  : M bool :=
  match fuel with
  | O => diverge
  | S fuel' =>
      let* t := now in
      if t <? end_time then
        let* current := glob in
        if decide (downloaded_files current initial_files ≠ ∅) then ret true
        else sleep 10 ;; poll_new_file fuel' end_time initial_files
      else ret false
  end.

(** [check_new_file(func)], the [wrapper] it returns. *)
Definition check_new_file (fuel : nat) (func : Kwargs -> M bool) (kwargs : Kwargs)
  : M bool :=
  let timeout := default (60 * 60) (kw_timeout kwargs) in
  let* initial_files := glob in
  let* t := now in
  let end_time := t + timeout in
  let* download_clicked := func kwargs in
  if negb download_clicked then ret false
  else poll_new_file fuel end_time initial_files.

(** The function [file_download] before decoration. *)
Definition file_download_body (fuel : nat) (kwargs : Kwargs) : M bool :=
  get_screenshot ;;
  let* download_clicked :=
    click_element fuel (default "" (kw_xpath kwargs)) TIMEOUT in
  if download_clicked then ret true else ret false.

(** [file_download], decorated with [@check_new_file]. *)
Definition file_download (fuel : nat) (kwargs : Kwargs) : M bool :=
  check_new_file fuel (file_download_body fuel) kwargs.

(** ** [Geocoder.monitoring_progress] *)

Definition monitoring_url : string :=
  "http://geobigdata.go.kr/portal/geomonitoring/geocodingMonitoring.do".

(** [file_name] is [file_path.name]. *)
Definition file_name_td (file_name : string) : string :=
  "//div[contains(text(), " +:+ dq +:+ file_name +:+ dq +:+ ")]/..".

Definition download_xpath : string :=
  "/following-sibling::td[3]//*[text()=" +:+ dq +:+ "다운로드" +:+ dq +:+ "]".

Definition delete_xpath : string :=
  "/following-sibling::td[3]//*[text()=" +:+ dq +:+ "내역삭제" +:+ dq +:+ "]".

Definition max_retries : Z := 30.

(** The local variable [download_button]: not yet assigned, or the
    result of the last [find_element] that returned. *)
Inductive Local : Type :=
| Unbound
| Bound (v : option Element).

(** How the first [while] loop is left. *)
Inductive PollExit : Type :=
| Returned (b : bool)
| Fell (download_button : Local).

(** The [except Exception] branch of the first loop. *)
Definition poll_except (retries : Z) : M (Z + bool) :=
  let retries := retries + 1 in
  call EvRefresh (r_refresh E) ;;
  sleep 5 ;;
  if retries >? max_retries then ret (inr false) else ret (inl retries).

(** The first loop, [while retries < max_retries].  Every iteration that
    does not leave the loop increments [retries], so [gas] iterations
    with [gas = max_retries] are never used up. *)
Fixpoint poll_row (gas : nat) (xpath : string) (retries : Z)
  (download_button : Local) : M PollExit :=
  if retries <? max_retries then
    match gas with
    | O => diverge
    | S gas' =>
        let* found := attempt (find_element xpath 5) in
        match found with
        | inr (Some el) => ret (Fell (Bound (Some el)))
        | inr None =>
            let download_button := Bound None in
            let retries := retries + 1 in
            if retries >? max_retries then ret (Returned false)
            else
              let* refreshed := attempt (call EvRefresh (r_refresh E)) in
              match refreshed with
              | inr _ => poll_row gas' xpath retries download_button
              | inl _ =>
                  let* r := poll_except retries in
                  match r with
                  | inr b => ret (Returned b)
                  | inl retries => poll_row gas' xpath retries download_button
                  end
              end
        | inl _ =>
            let* r := poll_except retries in
            match r with
            | inr b => ret (Returned b)
            | inl retries => poll_row gas' xpath retries download_button
            end
        end
    end
  else ret (Fell download_button).

(** [download_button.get_attribute("class")] *)
Definition get_class (download_button : Local) : M (option string) :=
  match download_button with
  | Unbound => raise UnboundLocalError
  | Bound None => raise AttributeError
  | Bound (Some el) => call (EvGetAttribute el "class") (r_attribute E)
  end.

(** The second loop,
    [while "disabled" in download_button.get_attribute("class")]. *)
Fixpoint wait_enabled (fuel : nat) (xpath : string) (download_button : Local)
  : M Local :=
  match fuel with
  | O => diverge
  | S fuel' =>
      let* cls := get_class download_button in
      match cls with
      | None => raise TypeError
      | Some cls =>
          if contains "disabled" cls then
            let* r :=
              attempt (call EvRefresh (r_refresh E) ;;
                       sleep 10 ;;
                       find_element xpath TIMEOUT) in
            match r with
            | inr found => wait_enabled fuel' xpath (Bound found)
            | inl _ => wait_enabled fuel' xpath download_button
            end
          else ret download_button
      end
  end.

(** The download step: file download, then history deletion. *)
Definition download_and_clear (fuel : nat) (file_name : string) (timeout : Z)
  : M bool :=
  file_download fuel
    {| kw_xpath := Some (file_name_td file_name +:+ download_xpath);
       kw_timeout := Some timeout |} ;;
  click_element fuel (file_name_td file_name +:+ delete_xpath) TIMEOUT ;;
  ret true.

(** The first lines of [monitoring_progress]: switch to the monitoring
    popup, or fetch the monitoring page in the current window. *)
Definition open_monitoring_page (fuel : nat) : M unit :=
  let* popup := switch_to_window "geocodingMonitoring" 30 2 in
  if negb popup then fetch_page fuel monitoring_url TIMEOUT ;; ret tt
  else ret tt.

(** [monitoring_progress] *)
Definition monitoring_progress (fuel : nat) (file_name : string) (timeout : Z)
  : M bool :=
  open_monitoring_page fuel ;;
  let xpath := file_name_td file_name +:+ download_xpath in
  let* left := poll_row (Z.to_nat max_retries) xpath 0 Unbound in
  match left with
  | Returned b => ret b
  | Fell download_button =>
      wait_enabled fuel xpath download_button ;;
      download_and_clear fuel file_name timeout
  end.

End Scraper.

Arguments tick E ev w : simpl never.
Arguments after_sleep E d w : simpl never.

(** * The rest of [SeleniumScraper] and [Geocoder] *)

Section ScraperRest.

Context (E : Env) (download_dir : string).

(** The [for element in elements] loop of [click_elements]. *)
Fixpoint click_each (fuel : nat) (elements : list Element) : M bool :=
  match elements with
  | [] => ret true
  | element :: rest =>
      call E (EvClick element) (r_click E) ;;
      let* loaded := _wait_for_page_load E fuel TIMEOUT in
      if negb loaded then ret false else click_each fuel rest
  end.

(** [click_elements]: [if elements] holds for a list that is not empty. *)
Definition click_elements (fuel : nat) (xpath : string) (timeout : Z) : M bool :=
  let* elements := find_all_elements E xpath timeout in
  match elements with
  | Some (element :: rest) => click_each fuel (element :: rest)
  | Some [] => ret false
  | None => ret false
  end.

(** What the standard library and the driver provide to the functions
    below: [Path.suffix] and [Path.name] of a path, [driver.quit()] and
    [driver.close()]. *)
Context (path_suffix : string -> string) (path_name : string -> string).
Context (quit : M unit) (close : M unit).

(** [f.suffix.lower() in (".crdownload", ".tmp")] *)
Definition has_tmp_suffix (f : string) : bool :=
  let s := lower (path_suffix f) in
  String.eqb s ".crdownload" || String.eqb s ".tmp".

(** The [tmp_files] of one poll of [end_scraping]. *)
Definition tmp_files (current : gset string) : gset string :=
  filter (λ f, has_tmp_suffix f = true) current.

(** The [while time.time() < end_time] loop of [end_scraping] and the
    statements after it. *)
Fixpoint wait_for_downloads (fuel : nat) (end_time : Z) : M bool :=
  match fuel with
  | O => diverge
  | S fuel' =>
      let* t := now in
      if t <? end_time then
        let* current := glob E in
        if decide (tmp_files current = ∅) then quit ;; ret true
        else sleep E 10 ;; wait_for_downloads fuel' end_time
      else quit ;; ret false
  end.

(** [end_scraping] *)
Definition end_scraping (fuel : nat) (timeout : Z) : M bool :=
  let* t := now in
  let end_time := t + timeout in
  wait_for_downloads fuel end_time.

(** [Geocoder.connect_to_platform].  The account name and the password
    the source types are parameters here.  [logger.errror] is an
    attribute the logger does not have: reading it raises. *)
Definition login_url : string :=
  "http://geobigdata.go.kr/portal/uat/uia/egovLoginUsr.do".

Definition xpath_attr (tag attr value : string) : string :=
  "//" +:+ tag +:+ "[@" +:+ attr +:+ "=" +:+ dq +:+ value +:+ dq +:+ "]".

Definition xpath_text (tag text : string) : string :=
  "//" +:+ tag +:+ "[text()=" +:+ dq +:+ text +:+ dq +:+ "]".

Definition connect_to_platform (fuel : nat) (account password : string) : M bool :=
  let* fetched := fetch_page E fuel login_url TIMEOUT in
  if negb fetched then @raise unit AttributeError ;; ret false
  else
    send_key E (xpath_attr "input" "name" "id") account TIMEOUT ;;
    send_key E (xpath_attr "input" "name" "password") password TIMEOUT ;;
    click_element E fuel (xpath_attr "input" "name" "ip_login") TIMEOUT ;;
    let* logout := find_element E (xpath_text "a" "로그아웃") TIMEOUT in
    match logout with
    | None => ret false
    | Some _ => ret true
    end.

(** [Geocoder.upload_xlsx]: [file_path] is [str(file_path)]. *)
Definition upload_url : string :=
  "http://geobigdata.go.kr/portal/analysis/geoCoding.do".

Definition upload_xlsx (fuel : nat) (file_path : string) : M unit :=
  fetch_page E fuel upload_url TIMEOUT ;;
  send_key E (xpath_attr "input" "id" "m_file") file_path TIMEOUT ;;
  click_element E fuel (xpath_attr "input" "value" "칼럼을 선택하세요.") TIMEOUT ;;
  click_element E fuel (xpath_text "li" "REFADDR") TIMEOUT ;;
  select_by_option_value E (xpath_attr "select" "id" "charsetSelect") "EUC-KR"
    TIMEOUT ;;
  ret tt.

(** [handles[-1]] *)
Definition last_handle (handles : list string) : option string := last handles.

(** [Geocoder.start_geocoding] *)
Definition start_geocoding (fuel : nat) (file_path : string) (timeout : Z)
  : M bool :=
  upload_xlsx fuel file_path ;;
  click_element E fuel (xpath_text "button" "Shape 다운로드") TIMEOUT ;;
  let* download :=
    monitoring_progress E download_dir fuel (path_name file_path) timeout in
  if negb download then ret false
  else
    close ;;
    let* handles := call E EvWindowHandles (r_window_handles E) in
    match last_handle handles with
    | Some handle =>
        call E (EvSwitchWindow handle) (r_switch_window E) ;; ret true
    | None => ret true
    end.

End ScraperRest.

(** * [string_util], [file_util] and [Refiner]: the helpers on values *)

(** A Python [str] in these helpers is the list of its code points. *)
Abbreviation text := (list N).

(** What [str.split()] and [str.strip()] take for white space. *)
Definition isspace (c : N) : bool :=
  ((9 <=? c) && (c <=? 13) || (28 <=? c) && (c <=? 32) || (c =? 133)
   || (c =? 160) || (c =? 5760) || (8192 <=? c) && (c <=? 8202)
   || (c =? 8232) || (c =? 8233) || (c =? 8239) || (c =? 8287)
   || (c =? 12288))%N.

(** The characters of [" \t\n"], which [clean_text] deletes. *)
Definition deleted (c : N) : bool := ((c =? 32) || (c =? 9) || (c =? 10))%N.

(** [clean_text]: [text.translate(str.maketrans("", "", " \t\n"))] *)
Definition clean_text (t : text) : text :=
  List.filter (fun c => negb (deleted c)) t.

(** [keywords.split()]: the maximal runs without white space; [word] is
    the run being read, last character first. *)
Fixpoint split_from (word : text) (t : text) : list text :=
  match t with
  | [] =>
      match word with
      | [] => []
      | _ :: _ => [rev word]
      end
  | c :: t' =>
      if isspace c then
        match word with
        | [] => split_from [] t'
        | _ :: _ => rev word :: split_from [] t'
        end
      else split_from (c :: word) t'
  end.

Definition split (t : text) : list text := split_from [] t.

Fixpoint startswith (p s : text) : bool :=
  match p, s with
  | [], _ => true
  | _ :: _, [] => false
  | a :: p', b :: s' => (a =? b)%N && startswith p' s'
  end.

(** [sub in s] on [str] *)
Fixpoint text_in (sub s : text) : bool :=
  if startswith sub s then true
  else match s with
       | [] => false
       | _ :: s' => text_in sub s'
       end.

(** [check_keywords] *)
Definition check_keywords (t keywords : text) : bool :=
  let cleaned_text := clean_text t in
  let splitted_keywords := split keywords in
  forallb (fun keyword => text_in keyword cleaned_text) splitted_keywords.

Fixpoint lstrip (t : text) : text :=
  match t with
  | [] => []
  | c :: t' => if isspace c then lstrip t' else t
  end.

(** [text.strip()] *)
Definition strip (t : text) : text := rev (lstrip (rev (lstrip t))).

(** [is_valid_string]: [None] is a value for which [pd.notna] is false
    ([None] or NaN). *)
Definition is_valid_string (v : option text) : bool :=
  match v with
  | None => false
  | Some t =>
      match strip t with
      | [] => false
      | _ :: _ => true
      end
  end.

(** [range(0, n, step)] for [n >= 0]; [None] is the [ValueError] of a
    zero step.  The fuel [n] is enough: every step adds at least 1. *)
Fixpoint range_from (fuel : nat) (i n step : Z) : list Z :=
  match fuel with
  | O => []
  | S fuel' => if i <? n then i :: range_from fuel' (i + step) n step else []
  end.

Definition range0 (n step : Z) : option (list Z) :=
  if step =? 0 then None
  else if step <? 0 then Some []
  else Some (range_from (Z.to_nat n) 0 n step).

(** [df[i : j]] on the rows of a frame, for [0 <= i]. *)
Definition rows_slice {A} (df : list A) (i j : Z) : list A :=
  firstn (Z.to_nat (j - i)) (skipn (Z.to_nat i) df).

(** [chunk_dataframe]: a frame is the list of its rows. *)
Definition chunk_dataframe {A} (df : list A) (chunk_size : Z)
  : option (list (list A)) :=
  match range0 (Z.of_nat (length df)) chunk_size with
  | None => None
  | Some starts => Some (map (fun i => rows_slice df i (i + chunk_size)) starts)
  end.

(** A cell read with [dtype=str]: a string, or NaN. *)
Abbreviation cell := (option text).

(** [str(val)] of a cell: NaN prints as [nan]. *)
Definition str_cell (v : cell) : text :=
  match v with
  | Some t => t
  | None => [110; 97; 110]%N
  end.

(** What [_find_header] gives: the tuple, [False], or the
    [StopIteration] of [next]. *)
Inductive HeaderResult : Type :=
| HeaderAt (row_index : nat) (usecols : list cell)
| NoHeader
| StopIteration.

(** [next(row_val for row_val in row_values if clean_text(str(row_val)) == header_col)] *)
Definition next_usecol (row_values : list cell) (header_col : text) : option cell :=
  List.find (fun row_val => bool_decide (clean_text (str_cell row_val) = header_col))
    row_values.

(** The list comprehension that builds [usecols]. *)
Fixpoint collect_usecols (row_values : list cell) (cleaned_header_cols : list text)
  : option (list cell) :=
  match cleaned_header_cols with
  | [] => Some []
  | header_col :: rest =>
      match next_usecol row_values header_col with
      | None => None
      | Some row_val =>
          match collect_usecols row_values rest with
          | None => None
          | Some usecols => Some (row_val :: usecols)
          end
      end
  end.

(** The loop of [_find_header] over the rows from [row_index] on. *)
Fixpoint find_header_from (row_index : nat) (rows : list (list cell))
  (cleaned_header_cols : list text) : HeaderResult :=
  match rows with
  | [] => NoHeader
  | row_values :: rest =>
      let cleaned_row := map (fun val => clean_text (str_cell val)) row_values in
      if forallb (fun header_col => bool_decide (header_col ∈ cleaned_row))
           cleaned_header_cols
      then
        match collect_usecols row_values cleaned_header_cols with
        | Some usecols => HeaderAt row_index usecols
        | None => StopIteration
        end
      else find_header_from (S row_index) rest cleaned_header_cols
  end.

(** [_find_header]: [df] is the list of the rows of the frame. *)
Definition _find_header (df : list (list cell)) (header_cols : list text)
  : HeaderResult :=
  let cleaned_header_cols := map clean_text header_cols in
  find_header_from 0 df cleaned_header_cols.

(** [_find_sheet_with_keywords] on the sheet names of the workbook:
    [inl 0] is the index of the first sheet. *)
Definition _find_sheet_with_keywords (sheet_names : list text) (sheet_keyword : text)
  : Z + text :=
  let matching_sheets : gset text :=
    list_to_set
      (List.filter (fun sheet => check_keywords sheet sheet_keyword) sheet_names) in
  if decide (size matching_sheets = 0%nat) then inl 0
  else if decide (1 < size matching_sheets)%nat then inl 0
  else match elements matching_sheets with
       | sheet :: _ => inr sheet
       | [] => inl 0
       end.

Section FindFile.

(** [Path.suffix], [Path.stem], [str.lower] and the order of paths that
    [sorted] uses come from the standard library. *)
Context (path_suffix : string -> string) (path_stem : string -> text).
Context (str_lower : string -> string).
Context (path_le : relation string) `{!RelDecision path_le}.

(** [find_file_path]: [None] is [False]; the two optional arguments are
    the entries of [kwargs]. *)
Definition find_file_path (files : gset string)
  (kw_extension : option string) (kw_file_name : option text) : option string :=
  let extension := str_lower (default "" kw_extension) in
  let file_name := default [] kw_file_name in
  let matching_files : gset string :=
    filter (λ file, str_lower (path_suffix file) = extension ∧
                    check_keywords (path_stem file) file_name = true) files in
  if decide (matching_files = ∅) then None
  else head (merge_sort path_le (elements matching_files)).

End FindFile.

(** [addr_cols.remove(entry)] *)
Fixpoint remove_first (x : text) (l : list text) : list text :=
  match l with
  | [] => []
  | y :: l' => if decide (x = y) then l' else y :: remove_first x l'
  end.

Section RefinedAddr.

(** The rewriting of one address by regular expressions. *)
Context (apply_addr_refinement_logic : text -> text).

(** The [for entry in addr_cols] loop of [get_refined_addr] from
    position [i] on: the iterator of a Python list reads position [i] of
    the list as it is now.  The result is the returned string and
    [addr_cols] after the call.  [row !! entry = None] is the
    [KeyError] of [row[entry]].  With [fuel] at least the number of
    entries after position [i] the loop is run to its end. *)
Fixpoint get_refined_addr_from (fuel i : nat) (row : gmap text cell)
  (addr_cols : list text) : text * list text :=
  match fuel with
  | O => ([], addr_cols)
  | S fuel' =>
      match addr_cols !! i with
      | None => ([], addr_cols)
      | Some entry =>
          match row !! entry with
          | Some addr =>
              if is_valid_string addr
              then (apply_addr_refinement_logic (default [] addr), addr_cols)
              else get_refined_addr_from fuel' (S i) row addr_cols
          | None =>
              get_refined_addr_from fuel' (S i) row (remove_first entry addr_cols)
          end
      end
  end.

(** [get_refined_addr] *)
Definition get_refined_addr (row : gmap text cell) (addr_cols : list text)
  : text * list text :=
  get_refined_addr_from (length addr_cols) 0 row addr_cols.

End RefinedAddr.

(** * Vocabulary of the properties *)

(** The spec's words: the name ends, case-insensitively, in a
    provisional suffix. *)
Definition provisional_suffix (f : string) : Prop :=
  exists p, lower f = p +:+ ".crdownload" \/ lower f = p +:+ ".tmp".

(** What a round of the readiness loop does after an observation that
    showed [disabled]: the refresh, the back-off and the relocation go
    through and the relocation returns a control; or the refresh raises
    and the round ends there; or the relocation raises something else
    than a time-out and the round ends there. *)
Inductive Round : Type :=
| Relocated (control : Element)
| RefreshFault (x : Exn)
| RelocationFault (x : Exn).

(** Whether the refresh of the round went through, so that the back-off
    and the relocation took place. *)
Definition refreshed (r : Round) : bool :=
  match r with
  | RefreshFault _ => false
  | _ => true
  end.

(** The control the loop holds after a round: another one only when
    the relocation returned it. *)
Definition round_button (button : Element) (r : Round) : Element :=
  match r with
  | Relocated control => control
  | _ => button
  end.

(** The control the loop holds after the rounds. *)
Definition button_after (button : Element) (rounds : list Round) : Element :=
  fold_left round_button rounds button.

(** The number of rounds whose refresh went through. *)
Definition refreshes_through (rounds : list Round) : nat :=
  length (List.filter refreshed rounds).

(** The interactions of the rounds, each with the observation before
    it, and of the final observation. *)
Fixpoint readiness_trace (xpath : string) (button : Element)
  (rounds : list Round) : list Event :=
  match rounds with
  | [] => [EvGetAttribute button "class"]
  | r :: rest =>
      [EvGetAttribute button "class"; EvRefresh]
      ++ (if refreshed r then [EvSleep 10; EvWaitVisible xpath TIMEOUT] else [])
      ++ readiness_trace xpath (round_button button r) rest
  end.

(** [w'] comes after [w] by interactions that all satisfy [P]. *)
Definition extends_by (P : Event -> Prop) (w w' : World) : Prop :=
  exists l, trace w' = trace w ++ l /\ Forall P l.

(** [w'] comes after [w] by the interaction [ev] and then by
    interactions that all satisfy [P]. *)
Definition starts_with (ev : Event) (P : Event -> Prop) (w w' : World) : Prop :=
  exists l, trace w' = trace w ++ ev :: l /\ Forall P l.

(** An interaction that is neither the wait for the control at [xpath]
    to be clickable nor a screenshot. *)
Definition no_click_no_shot (xpath : string) (ev : Event) : Prop :=
  ev <> EvWaitClickable xpath TIMEOUT /\ kind ev <> OScreenshot.

(** The exceptions that end the dialog loop. *)
Definition no_dialog (x : Exn) : Prop :=
  x = NoAlertPresentException \/ x = NoSuchWindowException.

(** The state an outcome ends in, when it ends. *)
Definition final_world {A} (o : Outcome A) : option World :=
  match o with
  | Ret _ w => Some w
  | Raise _ w => Some w
  | OutOfFuel => None
  end.

(** The value an outcome returns, and the exception it raises. *)
Definition returned {A} (o : Outcome A) : option A :=
  match o with
  | Ret a _ => Some a
  | _ => None
  end.

Definition raised {A} (o : Outcome A) : option Exn :=
  match o with
  | Raise x _ => Some x
  | _ => None
  end.

(** The trace an outcome ends with ([[]] when it does not end). *)
Definition final_trace {A} (o : Outcome A) : list Event :=
  match final_world o with
  | Some w => trace w
  | None => []
  end.

(** The number of screenshots taken stays the same. *)
Definition same_screenshots (w w' : World) : Prop :=
  calls OScreenshot w' = calls OScreenshot w.

(** Exactly one more screenshot is taken, however [m] ends. *)
Definition one_screenshot {A} (m : M A) : Prop :=
  forall w w', final_world (m w) = Some w' ->
               calls OScreenshot w' = S (calls OScreenshot w).

(** A file of the directory is still in it later. *)
Definition still_there (f : string) (w w' : World) : Prop :=
  f ∈ dir w -> f ∈ dir w'.

(** Whatever way [m] ends, its final state is related to its first. *)
Definition preserves (R : World -> World -> Prop) {A} (m : M A) : Prop :=
  forall w,
    match m w with
    | Ret _ w' => R w w'
    | Raise _ w' => R w w'
    | OutOfFuel => True
    end.

Section Vocabulary.

Context (E : Env).

(** The world at the start of the [i]-th iteration of the polling loop,
    when every earlier iteration listed the directory and slept. *)
Definition poll_instant (i : nat) (w : World) : World :=
  Nat.iter i (fun w => after_sleep E 10 (tick E EvGlob w)) w.

(** The directory listing the [i]-th poll reads. *)
Definition poll_listing (i : nat) (w : World) : gset string :=
  dir (tick E EvGlob (poll_instant i w)).

(** The pre-trigger snapshot of a detector run that starts in [w]. *)
Definition snapshot (w : World) : gset string := dir (tick E EvGlob w).

(** The [end_time] of a detector run that starts in [w]. *)
Definition deadline (kwargs : Kwargs) (w : World) : Z :=
  clock (tick E EvGlob w) + default (60 * 60) (kw_timeout kwargs).

(** The state after [k] rounds in which the probe found nothing and
    the page was refreshed. *)
Definition absent_rounds (xpath : string) (k : nat) (w : World) : World :=
  Nat.iter k (fun w => tick E EvRefresh (tick E (EvWaitVisible xpath 5) w)) w.

(** The state after [n] rounds of back-off, alert lookup and accept. *)
Definition dismiss_rounds (n : nat) (w : World) : World :=
  Nat.iter n
    (fun w => tick E EvAlertAccept (tick E EvSwitchToAlert (after_sleep E 3 w))) w.

(** The state in which [_yes_to_alert] returns after [n] dismissals:
    one more back-off and a lookup that finds no dialog. *)
Definition dialogs_cleared (n : nat) (w : World) : World :=
  tick E EvSwitchToAlert (after_sleep E 3 (dismiss_rounds n w)).

(** [n] dialogs in a row, each found and accepted, then none. *)
Definition presents_dialogs (n : nat) (w : World) : Prop :=
  (forall i, (i < n)%nat ->
     r_switch_to_alert E (calls OSwitchToAlert w + i) = Normal tt) /\
  (forall i, (i < n)%nat ->
     r_alert_accept E (calls OAlertAccept w + i) = Normal tt) /\
  (exists x, r_switch_to_alert E (calls OSwitchToAlert w + n) = Throws x /\
             no_dialog x).

(** Every open window is switched to and shows a URL without [url]. *)
Definition no_window_matches (url : string) (handles : list string) (w : World)
  : Prop :=
  forall i, (i < length handles)%nat ->
    r_switch_window E (calls OSwitchWindow w + i) = Normal tt /\
    exists u, r_current_url E (calls OCurrentUrl w + i) = Normal u /\
              contains url u = false.

(** The scripts of [driver.refresh()] and of the relocation answer as
    the rounds say, from call [n] of the one and call [k] of the other
    on: every round calls the refresh once, and the relocation when the
    refresh went through. *)
Fixpoint rounds_scripted (rounds : list Round) (n k : nat) : Prop :=
  match rounds with
  | [] => True
  | r :: rest =>
      match r with
      | Relocated control =>
          r_refresh E n = Normal tt /\ r_visible E k = Normal control
      | RefreshFault x => r_refresh E n = Throws x
      | RelocationFault x =>
          r_refresh E n = Normal tt /\ r_visible E k = Throws x /\
          x <> TimeoutException
      end /\
      rounds_scripted rest (S n) (if refreshed r then S k else k)
  end.

(** No other process removes [f] from the directory. *)
Definition keeps_file (f : string) : Prop :=
  forall n d, f ∈ d -> f ∈ fs_env E n d.

End Vocabulary.

(** * Scripted environments and states of the examples *)

(** An environment in which every operation not listed succeeds at once:
    no time passes besides the sleeps, two windows are open, the
    monitoring page is shown, screenshots are saved. *)
Definition scenario
  (fs : nat -> gset string -> gset string)
  (visible : nat -> Resp Element)
  (clickable : nat -> Resp Element)
  (alerts : nat -> Resp unit)
  (ready : nat -> Resp unit)
  (attributes : nat -> Resp (option string))
  (windows : nat -> Resp unit) : Env :=
  {| elapsed := fun _ => O;
     fs_env := fs;
     strftime := fun _ => "2025-03-01_120000";
     r_get := fun _ => Normal tt;
     r_visible := visible;
     r_all_visible := fun _ => Throws TimeoutException;
     r_clickable := clickable;
     r_click := fun _ => Normal tt;
     r_send_keys := fun _ => Normal tt;
     r_select_init := fun _ => Normal tt;
     r_select_by_value := fun _ => Normal tt;
     r_wait_windows := windows;
     r_window_handles := fun _ => Normal ["main"; "popup"];
     r_switch_window := fun _ => Normal tt;
     r_current_url :=
       fun n => match n with
                | O => Normal "http://geobigdata.go.kr/portal/analysis/geoCoding.do"
                | _ => Normal monitoring_url
                end;
     r_switch_frame := fun _ => Normal tt;
     r_refresh := fun _ => Normal tt;
     r_switch_to_alert := alerts;
     r_alert_accept := fun _ => Normal tt;
     r_ready := ready;
     r_screenshot := fun _ => Normal true;
     r_attribute := attributes |}.

Definition fs_idle : nat -> gset string -> gset string := fun _ d => d.
Definition always {A} (r : Resp A) : nat -> Resp A := fun _ => r.

(** [r1] for the first [n] calls, [r2] afterwards. *)
Definition first_then {A} (n : nat) (r1 r2 : Resp A) : nat -> Resp A :=
  fun i => if (i <? n)%nat then r1 else r2.

Definition no_alert : nat -> Resp unit := always (Throws NoAlertPresentException).

(** Nothing goes wrong: the row is there, the control is enabled. *)
Definition calm : Env :=
  scenario fs_idle (always (Normal 7%nat)) (always (Normal 7%nat)) no_alert
    (always (Normal tt)) (always (Normal (Some "btn"))) (always (Normal tt)).

(** A directory that holds the earlier download [A.zip]. *)
Definition start : World :=
  {| clock := 0; dir := {[ "dl/A.zip" ]}; trace := [] |}.

(** The row's XPath for the chunk file of the examples. *)
Definition chunk : string := "chunk_0.xlsx".
Definition chunk_download : string := file_name_td chunk +:+ download_xpath.
Definition chunk_delete : string := file_name_td chunk +:+ delete_xpath.

(** A trigger that clicks an element and reports success, and one that
    reports failure without doing anything. *)
Definition clicking (E : Env) : Kwargs -> M bool :=
  fun _ => call E (EvClick 7%nat) (r_click E) ;; ret true.

Definition failing : Kwargs -> M bool := fun _ => ret false.

Definition kw (timeout : Z) : Kwargs :=
  {| kw_xpath := Some chunk_download; kw_timeout := Some timeout |}.

(** The browser writes [B.tmp] while the trigger clicks (interaction 1)
    and renames it to [B.zip] during the second poll (interaction 4). *)
Definition fs_download : nat -> gset string -> gset string :=
  fun n d =>
    match n with
    | 1%nat => {[ "dl/B.tmp" ]} ∪ d
    | 4%nat => {[ "dl/B.zip" ]} ∪ (d ∖ {[ "dl/B.tmp" ]})
    | _ => d
    end.

Definition downloading : Env :=
  scenario fs_download (always (Normal 7%nat)) (always (Normal 7%nat)) no_alert
    (always (Normal tt)) (always (Normal (Some "btn"))) (always (Normal tt)).

(** The browser writes [B.tmp] and never finishes. *)
Definition stalling : Env :=
  scenario (fun n d => match n with 1%nat => {[ "dl/B.tmp" ]} ∪ d | _ => d end)
    (always (Normal 7%nat)) (always (Normal 7%nat)) no_alert
    (always (Normal tt)) (always (Normal (Some "btn"))) (always (Normal tt)).

(** The row appears on the third probe. *)
Definition row_on_third_probe : Env :=
  scenario fs_idle (first_then 2 (Throws TimeoutException) (Normal 7%nat))
    (always (Normal 7%nat)) no_alert (always (Normal tt))
    (always (Normal (Some "btn"))) (always (Normal tt)).

(** The row never appears. *)
Definition row_never : Env :=
  scenario fs_idle (always (Throws TimeoutException)) (always (Normal 7%nat))
    no_alert (always (Normal tt)) (always (Normal (Some "btn")))
    (always (Normal tt)).

(** The control is disabled at the first two observations. *)
Definition disabled_twice : Env :=
  scenario fs_idle (always (Normal 7%nat)) (always (Normal 7%nat)) no_alert
    (always (Normal tt))
    (first_then 2 (Normal (Some "btn disabled")) (Normal (Some "btn")))
    (always (Normal tt)).

(** The download control cannot be clicked; the clear-history control
    (element 8) can. *)
Definition download_not_clickable : Env :=
  scenario fs_idle (always (Normal 7%nat))
    (first_then 1 (Throws TimeoutException) (Normal 8%nat)) no_alert
    (always (Normal tt)) (always (Normal (Some "btn"))) (always (Normal tt)).

(** The end-to-end run of the specification: the row appears on the
    third probe, the control is disabled at its first two observations,
    and the browser writes [result.tmp] during the download click
    (interaction 20) and renames it to [result.shp] during the first
    poll (interaction 24). *)
Definition end_to_end : Env :=
  scenario
    (fun n d =>
       match n with
       | 20%nat => {[ "dl/result.tmp" ]} ∪ d
       | 24%nat => {[ "dl/result.shp" ]} ∪ (d ∖ {[ "dl/result.tmp" ]})
       | _ => d
       end)
    (first_then 2 (Throws TimeoutException) (Normal 7%nat))
    (always (Normal 7%nat)) no_alert (always (Normal tt))
    (first_then 2 (Normal (Some "btn disabled")) (Normal (Some "btn")))
    (always (Normal tt)).

(** The same run when the browser never writes a file. *)
Definition end_to_end_no_file : Env :=
  scenario fs_idle
    (first_then 2 (Throws TimeoutException) (Normal 7%nat))
    (always (Normal 7%nat)) no_alert (always (Normal tt))
    (first_then 2 (Normal (Some "btn disabled")) (Normal (Some "btn")))
    (always (Normal tt)).

(** Two dialogs in a row, then none. *)
Definition two_dialogs : Env :=
  scenario fs_idle (always (Normal 7%nat)) (always (Normal 7%nat))
    (first_then 2 (Normal tt) (Throws NoAlertPresentException))
    (always (Normal tt)) (always (Normal (Some "btn"))) (always (Normal tt)).

(** The window was closed: looking for a dialog and reading the ready
    state both raise [NoSuchWindowException]. *)
Definition window_closed : Env :=
  scenario fs_idle (always (Normal 7%nat)) (always (Normal 7%nat))
    (always (Throws NoSuchWindowException))
    (always (Throws NoSuchWindowException))
    (always (Normal (Some "btn"))) (always (Normal tt)).

(** Nothing is found: every bounded wait times out. *)
Definition nothing_found : Env :=
  scenario fs_idle (always (Throws TimeoutException))
    (always (Throws TimeoutException)) no_alert
    (always (Throws TimeoutException)) (always (Normal (Some "btn")))
    (always (Throws TimeoutException)).

(** The state in which the trigger [clicking] returns. *)
Definition clicked (E : Env) : World :=
  tick E (EvClick 7%nat) (tick E EvGlob start).

(** The state in which the detector returns on the [downloading] run:
    after the snapshot, the click, a first poll, a sleep and a second
    poll. *)
Definition downloaded : World :=
  tick downloading EvGlob
    (after_sleep downloading 10 (tick downloading EvGlob (clicked downloading))).

(** The screenshot of the [calm] run and the state its click returns in. *)
Definition calm_shot : string :=
  screenshot_path calm "dl" (tick calm EvGlob start).

Definition calm_clicked : World :=
  tick calm (EvWaitReady 30)
    (dialogs_cleared calm 0
       (tick calm (EvClick 7%nat)
          (tick calm (EvWaitClickable chunk_download 30)
             (with_file calm_shot
                (tick calm (EvScreenshot calm_shot) (tick calm EvGlob start)))))).

(** The state of the [download_not_clickable] run when the readiness
    loop has seen the control enabled. *)
Definition control_enabled : World :=
  tick download_not_clickable (EvGetAttribute 7%nat "class")
    (tick download_not_clickable (EvWaitVisible chunk_download 5)
       (tick download_not_clickable EvCurrentUrl
          (tick download_not_clickable (EvSwitchWindow "popup")
             (tick download_not_clickable EvCurrentUrl
                (tick download_not_clickable (EvSwitchWindow "main")
                   (tick download_not_clickable EvWindowHandles
                      (tick download_not_clickable (EvWaitWindows 30 2) start))))))).

(** The chunks of a list of rows, cut from the front: the reference
    for [chunk_dataframe]. *)
Fixpoint chunks_of {A} (fuel size : nat) (rows : list A) : list (list A) :=
  match fuel with
  | O => []
  | S fuel' =>
      match rows with
      | [] => []
      | _ :: _ => firstn size rows :: chunks_of fuel' size (skipn size rows)
      end
  end.

(** The row holds, for every header column, a value that cleans to the
    cleaned column name. *)
Definition has_header (row_values : list cell) (header_cols : list text) : Prop :=
  forall h, In h header_cols ->
            exists v, In v row_values /\ clean_text (str_cell v) = clean_text h.

Section FileVocabulary.

Context (path_suffix : string -> string) (path_stem : string -> text).
Context (str_lower : string -> string).

(** The file has the extension and the keywords [find_file_path] is
    asked for. *)
Definition file_matches (kw_extension : option string) (kw_file_name : option text)
  (file : string) : Prop :=
  str_lower (path_suffix file) = str_lower (default "" kw_extension) /\
  check_keywords (path_stem file) (default [] kw_file_name) = true.

End FileVocabulary.

Section AddrVocabulary.

Context (apply_addr_refinement_logic : text -> text).

(** The refined address of the first column, in the order of [cols],
    that holds a valid string; the empty string when there is none. *)
Fixpoint first_valid (row : gmap text cell) (cols : list text) : text :=
  match cols with
  | [] => []
  | entry :: rest =>
      match row !! entry with
      | Some addr =>
          if is_valid_string addr
          then apply_addr_refinement_logic (default [] addr)
          else first_valid row rest
      | None => first_valid row rest
      end
  end.

End AddrVocabulary.

(** Paths ordered by their length: an order for the examples, chosen
    so that it agrees on their files with the order of paths. *)
Definition shorter (a b : string) : Prop :=
  (String.length a <= String.length b)%nat.

Global Instance shorter_dec : RelDecision shorter.
Proof. intros a b. unfold shorter. apply _. Defined.

Global Instance shorter_trans : Transitive shorter.
Proof. intros a b c. unfold shorter. lia. Qed.

Global Instance shorter_total : Total shorter.
Proof. intros a b. unfold shorter. lia. Qed.

(** A stand-in for [Path.suffix] in the examples, whose files have a
    suffix of four characters: the last four characters of the path. *)
Definition last_four (f : string) : string :=
  substring (String.length f - 4) 4 f.

(** A stand-in for [Path.stem] in the examples, whose files have no
    directory part: the code points of the path without its last four
    characters. *)
Definition without_last_four (f : string) : text :=
  map (fun c => N.of_nat (nat_of_ascii c))
    (list_ascii_of_string (substring 0 (String.length f - 4) f)).

Section ScraperVocabulary.

Context (E : Env).

(** The state after one element was clicked and the page loaded with
    no dialog in the way. *)
Definition after_click (el : Element) (w : World) : World :=
  tick E (EvWaitReady TIMEOUT) (dialogs_cleared E 0 (tick E (EvClick el) w)).

(** The state after the elements were clicked one after the other. *)
Definition clicked_through (els : list Element) (w : World) : World :=
  fold_left (fun w el => after_click el w) els w.

(** The next [n] clicks go through and no dialog is open after them. *)
Definition quiet_clicks (n : nat) (w : World) : Prop :=
  forall i, (i < n)%nat ->
    r_click E (calls OClick w + i) = Normal tt /\
    exists x, r_switch_to_alert E (calls OSwitchToAlert w + i) = Throws x /\
              no_dialog x.

(** The state after the windows were switched to and their URL read. *)
Definition scanned (handles : list string) (w : World) : World :=
  fold_left (fun w h => tick E EvCurrentUrl (tick E (EvSwitchWindow h) w))
    handles w.

(** The state after [k] rounds in which the probe raised a fault and
    the page was refreshed after it, with a back-off of 5. *)
Definition fault_rounds (xpath : string) (k : nat) (w : World) : World :=
  Nat.iter k
    (fun w => after_sleep E 5 (tick E EvRefresh (tick E (EvWaitVisible xpath 5) w)))
    w.

End ScraperVocabulary.

(** The interactions of clicking the elements one after the other. *)
Definition click_trace (els : list Element) : list Event :=
  flat_map (fun el => [EvClick el; EvSleep 3; EvSwitchToAlert; EvWaitReady TIMEOUT])
    els.

(** The interactions of scanning the windows. *)
Definition scan_trace (handles : list string) : list Event :=
  flat_map (fun h => [EvSwitchWindow h; EvCurrentUrl]) handles.

(** Three elements are found; the page does not load after the second
    click.  Three windows are open; the first URL read is that of the
    upload page, the next ones that of the monitoring page. *)
Definition second_click_stalls : Env :=
  {| elapsed := fun _ => O;
     fs_env := fs_idle;
     strftime := fun _ => "2025-03-01_120000";
     r_get := always (Normal tt);
     r_visible := always (Normal 7%nat);
     r_all_visible := always (Normal [1; 2; 3]%nat);
     r_clickable := always (Normal 7%nat);
     r_click := always (Normal tt);
     r_send_keys := always (Normal tt);
     r_select_init := always (Normal tt);
     r_select_by_value := always (Normal tt);
     r_wait_windows := always (Normal tt);
     r_window_handles := always (Normal ["main"; "popup"; "other"]);
     r_switch_window := always (Normal tt);
     r_current_url :=
       fun n => match n with
                | O => Normal "http://geobigdata.go.kr/portal/analysis/geoCoding.do"
                | _ => Normal monitoring_url
                end;
     r_switch_frame := always (Normal tt);
     r_refresh := always (Normal tt);
     r_switch_to_alert := no_alert;
     r_alert_accept := always (Normal tt);
     r_ready := fun n => match n with
                         | 1%nat => Throws TimeoutException
                         | _ => Normal tt
                         end;
     r_screenshot := always (Normal true);
     r_attribute := always (Normal (Some "btn")) |}.

(** Three elements are found and every page load goes through. *)
Definition three_elements : Env :=
  {| elapsed := fun _ => O;
     fs_env := fs_idle;
     strftime := fun _ => "2025-03-01_120000";
     r_get := always (Normal tt);
     r_visible := always (Normal 7%nat);
     r_all_visible := always (Normal [1; 2; 3]%nat);
     r_clickable := always (Normal 7%nat);
     r_click := always (Normal tt);
     r_send_keys := always (Normal tt);
     r_select_init := always (Normal tt);
     r_select_by_value := always (Normal tt);
     r_wait_windows := always (Normal tt);
     r_window_handles := always (Normal ["main"; "popup"; "other"]);
     r_switch_window := always (Normal tt);
     r_current_url := always (Normal monitoring_url);
     r_switch_frame := always (Normal tt);
     r_refresh := always (Normal tt);
     r_switch_to_alert := no_alert;
     r_alert_accept := always (Normal tt);
     r_ready := always (Normal tt);
     r_screenshot := always (Normal true);
     r_attribute := always (Normal (Some "btn")) |}.

(** [E] with another script for [driver.refresh()]. *)
Definition with_refresh (E : Env) (refresh : nat -> Resp unit) : Env :=
  {| elapsed := elapsed E;
     fs_env := fs_env E;
     strftime := strftime E;
     r_get := r_get E;
     r_visible := r_visible E;
     r_all_visible := r_all_visible E;
     r_clickable := r_clickable E;
     r_click := r_click E;
     r_send_keys := r_send_keys E;
     r_select_init := r_select_init E;
     r_select_by_value := r_select_by_value E;
     r_wait_windows := r_wait_windows E;
     r_window_handles := r_window_handles E;
     r_switch_window := r_switch_window E;
     r_current_url := r_current_url E;
     r_switch_frame := r_switch_frame E;
     r_refresh := refresh;
     r_switch_to_alert := r_switch_to_alert E;
     r_alert_accept := r_alert_accept E;
     r_ready := r_ready E;
     r_screenshot := r_screenshot E;
     r_attribute := r_attribute E |}.

(** The row never appears, and the thirtieth refresh raises. *)
Definition row_never_refresh_fault : Env :=
  with_refresh row_never
    (fun n => match n with
              | 29%nat => Throws WebDriverException
              | _ => Normal tt
              end).

(** Every probe for the row raises a fault of the driver. *)
Definition row_faults : Env :=
  scenario fs_idle (always (Throws WebDriverException)) (always (Normal 7%nat))
    no_alert (always (Normal tt)) (always (Normal (Some "btn")))
    (always (Normal tt)).

(** The control shows [disabled] three times.  The first round finds
    control 8 again, the refresh of the second round raises, the
    relocation of the third round raises. *)
Definition rounds_with_faults : Env :=
  with_refresh
    (scenario fs_idle
       (fun n => match n with
                 | O => Normal 8%nat
                 | _ => Throws WebDriverException
                 end)
       (always (Normal 7%nat)) no_alert (always (Normal tt))
       (first_then 3 (Normal (Some "btn disabled")) (Normal (Some "btn")))
       (always (Normal tt)))
    (fun n => match n with
              | 1%nat => Throws WebDriverException
              | _ => Normal tt
              end).

(** The control shows [disabled] once, and the refresh after that
    observation raises. *)
Definition refresh_raises_once : Env :=
  with_refresh
    (scenario fs_idle (always (Normal 7%nat)) (always (Normal 7%nat)) no_alert
       (always (Normal tt))
       (first_then 1 (Normal (Some "btn disabled")) (Normal (Some "btn")))
       (always (Normal tt)))
    (first_then 1 (Throws WebDriverException) (Normal tt)).

(** The control shows [disabled] once, and the relocation after the
    refresh times out. *)
Definition relocation_times_out : Env :=
  scenario fs_idle (always (Throws TimeoutException)) (always (Normal 7%nat))
    no_alert (always (Normal tt))
    (first_then 1 (Normal (Some "btn disabled")) (Normal (Some "btn")))
    (always (Normal tt)).

(** * Properties *)

(** ** Strings *)

Lemma endswith_unfold (suffix s : string) :
  endswith suffix s =
  if String.eqb s suffix then true
  else match s with
       | EmptyString => false
       | String _ s' => endswith suffix s'
       end.
Proof. destruct s; reflexivity. Qed.

Lemma endswith_spec (suffix s : string) :
  endswith suffix s = true <-> exists p, s = p +:+ suffix.
Proof.
  split.
  - induction s as [| c s IH]; rewrite endswith_unfold.
    + destruct (String.eqb_spec "" suffix) as [<- | _]; [| intros; discriminate].
      intros _. now exists "".
    + destruct (String.eqb_spec (String c s) suffix) as [<- | _].
      * intros _. now exists "".
      * intros H. destruct (IH H) as [p ->]. now exists (String c p).
  - intros [p ->]. induction p as [| c p IH]; rewrite endswith_unfold.
    + change ("" +:+ suffix) with suffix. now rewrite String.eqb_refl.
    + change (String c p +:+ suffix) with (String c (p +:+ suffix)).
      destruct (String.eqb _ suffix); [reflexivity | exact IH].
Qed.

Lemma is_provisional_spec (f : string) :
  is_provisional f = true <-> provisional_suffix f.
Proof.
  unfold is_provisional, provisional_suffix.
  rewrite orb_true_iff, !endswith_spec. split.
  - intros [[p H] | [p H]]; exists p; auto.
  - intros [p [H | H]]; [left | right]; now exists p.
Qed.

Lemma elem_of_downloaded_files (f : string) (current initial_files : gset string) :
  f ∈ downloaded_files current initial_files <->
  f ∈ current /\ (f ∉ initial_files) /\ is_provisional f = false.
Proof.
  unfold downloaded_files.
  rewrite !elem_of_difference, elem_of_filter, elem_of_difference.
  destruct (is_provisional f); intuition congruence.
Qed.

Lemma downloaded_files_nonempty (current initial_files : gset string) :
  downloaded_files current initial_files ≠ ∅ <->
  exists f, f ∈ current /\ (f ∉ initial_files) /\ ~ provisional_suffix f.
Proof.
  split.
  - intros H. apply set_choose_L in H as [f Hf].
    apply elem_of_downloaded_files in Hf as (H1 & H2 & H3).
    exists f. repeat split; auto.
    rewrite <- is_provisional_spec. congruence.
  - intros (f & H1 & H2 & H3) Heq.
    assert (Hf : f ∈ downloaded_files current initial_files).
    { apply elem_of_downloaded_files. repeat split; auto.
      rewrite <- is_provisional_spec in H3. now destruct (is_provisional f). }
    rewrite Heq in Hf. set_solver.
Qed.

Lemma string_app_cons (x : ascii) (a b : string) :
  String x a +:+ b = String x (a +:+ b).
Proof. reflexivity. Qed.

Lemma string_app_assoc (a b c : string) : (a +:+ b) +:+ c = a +:+ (b +:+ c).
Proof.
  induction a as [| x a IH]; [reflexivity |].
  now rewrite !string_app_cons, IH.
Qed.

Lemma string_length_app (a b : string) :
  String.length (a +:+ b) = (String.length a + String.length b)%nat.
Proof.
  induction a as [| x a IH]; [reflexivity |].
  rewrite string_app_cons. simpl. now rewrite IH.
Qed.

(** Two equal strings have the same suffix of a given length. *)
Lemma string_app_suffix_inj (p q s1 s2 : string) :
  String.length s1 = String.length s2 ->
  p +:+ s1 = q +:+ s2 -> s1 = s2.
Proof.
  revert q. induction p as [| x p IH]; intros [| y q] Hlen Heq.
  - exact Heq.
  - apply (f_equal String.length) in Heq.
    rewrite !string_length_app in Heq. simpl in Heq. lia.
  - apply (f_equal String.length) in Heq.
    rewrite !string_length_app in Heq. simpl in Heq. lia.
  - rewrite !string_app_cons in Heq. injection Heq as _ Heq.
    now apply (IH q).
Qed.

Lemma lower_app (a b : string) : lower (a +:+ b) = lower a +:+ lower b.
Proof.
  induction a as [| x a IH]; [reflexivity |].
  rewrite string_app_cons. simpl lower. now rewrite string_app_cons, IH.
Qed.

(** A name that ends in [.png] is never provisional. *)
Lemma png_not_provisional (p : string) : is_provisional (p +:+ ".png") = false.
Proof.
  apply not_true_is_false. rewrite is_provisional_spec.
  intros [q [H | H]]; rewrite lower_app in H; simpl (lower ".png") in H.
  - change ".crdownload" with (".crdown" +:+ "load") in H.
    rewrite <- string_app_assoc in H.
    apply string_app_suffix_inj in H; [discriminate | reflexivity].
  - apply string_app_suffix_inj in H; [discriminate | reflexivity].
Qed.

(** ** Traces and call counts *)

Lemma count_op_app (o : Op) (l1 l2 : list Event) :
  count_op o (l1 ++ l2) = (count_op o l1 + count_op o l2)%nat.
Proof. induction l1 as [| ev l1 IH]; simpl; [reflexivity | rewrite IH; lia]. Qed.

Section TickFacts.

Context (E : Env).

Lemma trace_tick ev w : trace (tick E ev w) = trace w ++ [ev].
Proof. reflexivity. Qed.

Lemma calls_tick o ev w :
  calls o (tick E ev w) =
  (calls o w + (if Op_eq_dec (kind ev) o then 1 else 0))%nat.
Proof. unfold calls. rewrite trace_tick, count_op_app. simpl. lia. Qed.

Lemma clock_tick ev w : clock w <= clock (tick E ev w).
Proof. unfold tick; simpl. lia. Qed.

Lemma trace_after_sleep d w : trace (after_sleep E d w) = trace w ++ [EvSleep d].
Proof. reflexivity. Qed.

Lemma calls_after_sleep o d w :
  calls o (after_sleep E d w) =
  (calls o w + (if Op_eq_dec OSleep o then 1 else 0))%nat.
Proof. unfold calls. rewrite trace_after_sleep, count_op_app. simpl. lia. Qed.

Lemma clock_after_sleep d w : clock w + d <= clock (after_sleep E d w).
Proof. unfold after_sleep, tick; simpl. lia. Qed.

Lemma call_Normal {A} ev (script : nat -> Resp A) w a :
  script (calls (kind ev) w) = Normal a ->
  call E ev script w = Ret a (tick E ev w).
Proof. unfold call. now intros ->. Qed.

Lemma call_Throws {A} ev (script : nat -> Resp A) w x :
  script (calls (kind ev) w) = Throws x ->
  call E ev script w = Raise x (tick E ev w).
Proof. unfold call. now intros ->. Qed.

End TickFacts.

(** ** The download detector *)

Section Detector.

Context (E : Env).

Lemma poll_instant_S i w :
  poll_instant E (S i) w = poll_instant E i (after_sleep E 10 (tick E EvGlob w)).
Proof.
  unfold poll_instant.
  exact (Nat.iter_succ_r i (fun w => after_sleep E 10 (tick E EvGlob w)) w).
Qed.

Lemma poll_instant_clock i w : clock w <= clock (poll_instant E i w).
Proof.
  induction i as [| i IH]; simpl; [lia |].
  pose proof (clock_after_sleep E 10 (tick E EvGlob (poll_instant E i w))).
  pose proof (clock_tick E EvGlob (poll_instant E i w)).
  unfold poll_instant in *. lia.
Qed.

(** The polling loop alone: with fuel beyond the time left it returns,
    and it returns [True] exactly when some poll that starts before
    [end_time] lists a finished new file. *)
Lemma poll_new_file_spec (end_time : Z) (initial_files : gset string) :
  forall fuel w,
    (Z.to_nat (end_time - clock w) < fuel)%nat ->
    exists b w',
      poll_new_file E fuel end_time initial_files w = Ret b w' /\
      (b = true ->
       downloaded_files (dir w') initial_files ≠ ∅) /\
      (b = true <->
       exists i, clock (poll_instant E i w) < end_time /\
                 downloaded_files (poll_listing E i w) initial_files ≠ ∅).
Proof.
  induction fuel as [| fuel IH]; intros w Hfuel; [lia |].
  cbn [poll_new_file]. unfold bind at 1, now.
  destruct (Z.ltb_spec (clock w) end_time) as [Hlt | Hge].
  - unfold bind at 1, glob.
    destruct (decide (downloaded_files (dir (tick E EvGlob w)) initial_files ≠ ∅))
      as [Hne | He].
    + exists true, (tick E EvGlob w). repeat split; auto.
      intros _. exists O. split; [exact Hlt | exact Hne].
    + unfold bind at 1, sleep.
      set (w2 := after_sleep E 10 (tick E EvGlob w)).
      assert (Hclk : clock w + 10 <= clock w2).
      { pose proof (clock_after_sleep E 10 (tick E EvGlob w)).
        pose proof (clock_tick E EvGlob w). subst w2. lia. }
      destruct (IH w2) as (b & w' & Hrun & Hfin & Hiff); [lia |].
      exists b, w'. split; [exact Hrun |]. split; [exact Hfin |].
      rewrite Hiff. split.
      * intros (i & H1 & H2). exists (S i).
        unfold poll_listing in *. rewrite poll_instant_S. auto.
      * intros (i & H1 & H2). destruct i as [| i].
        { exfalso. apply He. exact H2. }
        exists i. unfold poll_listing in *.
        rewrite poll_instant_S in H1, H2. auto.
  - exists false, w. split; [reflexivity |]. split; [discriminate |].
    split; [discriminate |].
    intros (i & H1 & _). pose proof (poll_instant_clock i w). lia.
Qed.

Lemma check_new_file_unfold fuel func kwargs w :
  check_new_file E fuel func kwargs w =
  match func kwargs (tick E EvGlob w) with
  | Ret true w1 => poll_new_file E fuel (deadline E kwargs w) (snapshot E w) w1
  | Ret false w1 => Ret false w1
  | Raise x w1 => Raise x w1
  | OutOfFuel => OutOfFuel
  end.
Proof.
  unfold check_new_file, bind, glob, now, deadline, snapshot.
  destruct (func kwargs (tick E EvGlob w)) as [[|] w1 | x w1 |]; reflexivity.
Qed.

(** C5. Whenever the wrapped trigger action reports failure, the
    detector returns false at once: its final state is the state the
    trigger left, so no directory listing and no sleep follows the
    trigger. *)
Theorem check_new_file_trigger_failure fuel func kwargs w w1 :
  func kwargs (tick E EvGlob w) = Ret false w1 ->
  check_new_file E fuel func kwargs w = Ret false w1.
Proof. intros Hf. now rewrite check_new_file_unfold, Hf. Qed.

(** A true result of the polling loop comes from one of its listings:
    the loop ends in the state right after that listing, which holds a
    finished file absent from [initial_files]. *)
Lemma poll_new_file_true end_time (initial_files : gset string) :
  forall fuel w1 w',
    poll_new_file E fuel end_time initial_files w1 = Ret true w' ->
    exists i,
      w' = tick E EvGlob (poll_instant E i w1) /\
      clock (poll_instant E i w1) < end_time /\
      downloaded_files (dir w') initial_files ≠ ∅.
Proof.
  induction fuel as [| fuel IH]; intros w1 w'; [discriminate |].
  cbn [poll_new_file]. unfold bind at 1, now.
  destruct (Z.ltb_spec (clock w1) end_time) as [Hlt | Hge]; [| discriminate].
  unfold bind at 1, glob.
  destruct (decide (downloaded_files (dir (tick E EvGlob w1)) initial_files ≠ ∅))
    as [Hne | _].
  - intros [= <-]. exists O. now split.
  - unfold bind at 1, sleep. intros Hrun.
    apply IH in Hrun as (i & Hw & Hclk & Hne).
    exists (S i). rewrite poll_instant_S. now split.
Qed.

(** C8. In every invocation, whatever the trigger does and however the
    run ends, the detector lists the directory first and starts the
    trigger in the state that listing left: the listing is the last
    interaction before the trigger, its result is the snapshot, and the
    outcome of the detector is the outcome of the trigger started there
    (followed by the polls when the trigger reports success).  A true
    result is decided at a listing of the polls by a finished file
    absent from the snapshot; a file of the snapshot is never among the
    downloaded files, whatever a listing holds. *)
Theorem check_new_file_snapshot_first fuel func kwargs w :
  trace (tick E EvGlob w) = trace w ++ [EvGlob] /\
  snapshot E w = dir (tick E EvGlob w) /\
  check_new_file E fuel func kwargs w =
    match func kwargs (tick E EvGlob w) with
    | Ret true w1 => poll_new_file E fuel (deadline E kwargs w) (snapshot E w) w1
    | Ret false w1 => Ret false w1
    | Raise x w1 => Raise x w1
    | OutOfFuel => OutOfFuel
    end /\
  (forall w',
     check_new_file E fuel func kwargs w = Ret true w' ->
     exists w1 i,
       func kwargs (tick E EvGlob w) = Ret true w1 /\
       w' = tick E EvGlob (poll_instant E i w1) /\
       exists f, f ∈ dir w' /\ (f ∉ snapshot E w) /\ ~ provisional_suffix f) /\
  (forall (current : gset string) f,
     f ∈ snapshot E w -> f ∉ downloaded_files current (snapshot E w)).
Proof.
  split; [reflexivity |]. split; [reflexivity |].
  split; [apply check_new_file_unfold |]. split.
  - intros w'. rewrite check_new_file_unfold.
    destruct (func kwargs (tick E EvGlob w)) as [[|] w1 | x w1 |] eqn:Hf;
      try discriminate.
    intros Hrun. apply poll_new_file_true in Hrun as (i & Hw & _ & Hne).
    exists w1, i. split; [reflexivity |]. split; [exact Hw |].
    now apply downloaded_files_nonempty.
  - intros current f Hin Hd. apply elem_of_downloaded_files in Hd. tauto.
Qed.

(** C4. When the trigger reports success the detector returns, and it
    returns true exactly when, at some poll that starts before the
    deadline, the directory holds a file absent from the pre-trigger
    snapshot whose name does not end in [.crdownload] or [.tmp]
    (compared in lower case).  In particular a true result always comes
    with such a file in the listing just read, and no such file at any
    poll before the deadline gives false. *)
Theorem check_new_file_iff fuel func kwargs w w1 :
  func kwargs (tick E EvGlob w) = Ret true w1 ->
  (Z.to_nat (deadline E kwargs w - clock w1) < fuel)%nat ->
  exists b w',
    check_new_file E fuel func kwargs w = Ret b w' /\
    (b = true ->
     exists f, f ∈ dir w' /\ (f ∉ snapshot E w) /\ ~ provisional_suffix f) /\
    (b = true <->
     exists i f,
       clock (poll_instant E i w1) < deadline E kwargs w /\
       f ∈ poll_listing E i w1 /\ (f ∉ snapshot E w) /\ ~ provisional_suffix f).
Proof.
  intros Hf Hfuel. rewrite check_new_file_unfold, Hf.
  destruct (poll_new_file_spec (deadline E kwargs w) (snapshot E w) fuel w1 Hfuel)
    as (b & w' & Hrun & Hfin & Hiff).
  exists b, w'. split; [exact Hrun |]. split.
  - intros Hb. apply downloaded_files_nonempty. auto.
  - rewrite Hiff. split.
    + intros (i & H1 & H2). apply downloaded_files_nonempty in H2 as (f & H2).
      exists i, f. tauto.
    + intros (i & f & H1 & H2). exists i. split; [exact H1 |].
      apply downloaded_files_nonempty. exists f. exact H2.
Qed.

End Detector.

(** ** Locating elements *)

Section Primitives.

Context (E : Env).

Lemma find_element_found xpath timeout w el :
  r_visible E (calls OWaitVisible w) = Normal el ->
  find_element E xpath timeout w = Ret (Some el) (tick E (EvWaitVisible xpath timeout) w).
Proof.
  intros H. unfold find_element, try_except, bind.
  now rewrite (call_Normal E _ _ _ _ H).
Qed.

Lemma find_element_timeout xpath timeout w :
  r_visible E (calls OWaitVisible w) = Throws TimeoutException ->
  find_element E xpath timeout w = Ret None (tick E (EvWaitVisible xpath timeout) w).
Proof.
  intros H. unfold find_element, try_except, bind.
  now rewrite (call_Throws E _ _ _ _ H).
Qed.

Lemma find_element_fault xpath timeout w x :
  r_visible E (calls OWaitVisible w) = Throws x ->
  x <> TimeoutException ->
  find_element E xpath timeout w = Raise x (tick E (EvWaitVisible xpath timeout) w).
Proof.
  intros H Hx. unfold find_element, try_except, bind.
  rewrite (call_Throws E _ _ _ _ H). now destruct x.
Qed.

End Primitives.

(** ** The monitoring poll loop *)

Section Monitoring.

Context (E : Env) (download_dir : string).

Lemma absent_rounds_S xpath k w :
  absent_rounds E xpath (S k) w =
  absent_rounds E xpath k (tick E EvRefresh (tick E (EvWaitVisible xpath 5) w)).
Proof.
  unfold absent_rounds.
  exact (Nat.iter_succ_r k
           (fun w => tick E EvRefresh (tick E (EvWaitVisible xpath 5) w)) w).
Qed.

Lemma trace_absent_rounds xpath k w :
  trace (absent_rounds E xpath k w) =
  trace w ++ concat (repeat [EvWaitVisible xpath 5; EvRefresh] k).
Proof.
  revert w. induction k as [| k IH]; intros w.
  - simpl. now rewrite app_nil_r.
  - rewrite absent_rounds_S, IH, !trace_tick. simpl.
    now rewrite <- !app_assoc.
Qed.

Lemma calls_absent_rounds xpath k w o :
  calls o (absent_rounds E xpath k w) =
  (calls o w + k * ((if Op_eq_dec OWaitVisible o then 1 else 0) +
                    (if Op_eq_dec ORefresh o then 1 else 0)))%nat.
Proof.
  revert w. induction k as [| k IH]; intros w.
  - simpl. lia.
  - rewrite absent_rounds_S, IH, !calls_tick. simpl kind. lia.
Qed.

(** The gas of the first loop is never used up: whatever the driver
    answers, every round that stays in the loop increments [retries]. *)
Lemma poll_except_ends retries w :
  poll_except E retries w <> OutOfFuel /\
  forall r w', poll_except E retries w = Ret (inl r) w' -> r = retries + 1.
Proof.
  unfold poll_except, bind, call, sleep.
  destruct (r_refresh E _); [| split; [discriminate | intros; discriminate]].
  destruct (retries + 1 >? max_retries); split;
    try discriminate; intros r w' [= <- _]; reflexivity.
Qed.

Lemma poll_row_ends xpath :
  forall gas retries download_button w,
    (Z.to_nat (max_retries - retries) <= gas)%nat ->
    poll_row E gas xpath retries download_button w <> OutOfFuel.
Proof.
  induction gas as [| gas IH]; intros retries download_button w Hgas;
    cbn [poll_row];
    destruct (Z.ltb_spec retries max_retries) as [Hlt | Hge];
    try discriminate; [lia |].
  assert (Hexc : forall r0 button w1,
             retries <= r0 ->
             (let* r := poll_except E r0 in
              match r with
              | inr b => ret (Returned b)
              | inl retries => poll_row E gas xpath retries button
              end) w1 <> OutOfFuel).
  { intros r0 button w1 Hr0. unfold bind at 1.
    destruct (poll_except_ends r0 w1) as [Hne Hr].
    destruct (poll_except E r0 w1) as [[r | b] w2 | x w2 |];
      try discriminate; [| contradiction].
    rewrite (Hr r w2 eq_refl). apply IH. lia. }
  unfold bind at 1, attempt at 1, find_element, try_except, bind, call.
  destruct (r_visible E _) as [el | x]; [discriminate |].
  destruct x; try (apply Hexc; lia).
  cbn [ret].
  destruct (retries + 1 >? max_retries); [discriminate |].
  unfold attempt.
  destruct (r_refresh E _); [apply IH; lia |].
  apply (Hexc (retries + 1) (Bound None)). lia.
Qed.

(** [k] probes that time out, each followed by a refresh that goes
    through, take the loop [k] rounds further. *)
Lemma poll_row_absent xpath :
  forall k gas retries download_button w,
    retries + Z.of_nat k <= max_retries ->
    (forall i, (i < k)%nat ->
       r_visible E (calls OWaitVisible w + i) = Throws TimeoutException) ->
    (forall i, (i < k)%nat ->
       r_refresh E (calls ORefresh w + i) = Normal tt) ->
    poll_row E (k + gas) xpath retries download_button w =
    poll_row E gas xpath (retries + Z.of_nat k)
      (match k with O => download_button | S _ => Bound None end)
      (absent_rounds E xpath k w).
Proof.
  induction k as [| k IH]; intros gas retries download_button w Hr Hv Hf.
  - simpl. now rewrite Z.add_0_r.
  - rewrite absent_rounds_S.
    change (S k + gas)%nat with (S (k + gas)). cbn [poll_row].
    destruct (Z.ltb_spec retries max_retries) as [_ | Hge]; [| lia].
    unfold bind at 1, attempt at 1.
    rewrite find_element_timeout
      by (specialize (Hv O ltac:(lia)); now rewrite Nat.add_0_r in Hv).
    destruct (Z.gtb_spec (retries + 1) max_retries) as [Hgt | _]; [lia |].
    unfold bind at 1, attempt at 1.
    rewrite (call_Normal E EvRefresh (r_refresh E) _ tt)
      by (simpl kind; rewrite calls_tick; simpl;
          specialize (Hf O ltac:(lia)); rewrite Nat.add_0_r in *; exact Hf).
    rewrite IH.
    + replace (retries + 1 + Z.of_nat k) with (retries + Z.of_nat (S k)) by lia.
      now destruct k.
    + lia.
    + intros i Hi. rewrite !calls_tick. simpl.
      replace (calls OWaitVisible w + 1 + 0 + i)%nat
        with (calls OWaitVisible w + S i)%nat by lia.
      apply Hv. lia.
    + intros i Hi. rewrite !calls_tick. simpl.
      replace (calls ORefresh w + 0 + 1 + i)%nat
        with (calls ORefresh w + S i)%nat by lia.
      apply Hf. lia.
Qed.

(** C6. For every [k < 30]: when the download control is absent on the
    first [k] probes and present on probe [k+1] (the refreshes between
    them going through), the poll loop leaves with the control after
    exactly [k+1] probes and [k] refreshes, one refresh after each of
    the first [k] probes, and [monitoring_progress] goes on with the
    readiness loop. *)
Theorem poll_row_present_after_k fuel file_name timeout (k : nat) el w :
  (k < 30)%nat ->
  (forall i, (i < k)%nat ->
     r_visible E (calls OWaitVisible w + i) = Throws TimeoutException) ->
  r_visible E (calls OWaitVisible w + k) = Normal el ->
  (forall i, (i < k)%nat -> r_refresh E (calls ORefresh w + i) = Normal tt) ->
  let xpath := file_name_td file_name +:+ download_xpath in
  let w' := tick E (EvWaitVisible xpath 5) (absent_rounds E xpath k w) in
  poll_row E (Z.to_nat max_retries) xpath 0 Unbound w =
    Ret (Fell (Bound (Some el))) w' /\
  trace w' =
    trace w ++ concat (repeat [EvWaitVisible xpath 5; EvRefresh] k)
            ++ [EvWaitVisible xpath 5] /\
  calls OWaitVisible w' = (calls OWaitVisible w + (k + 1))%nat /\
  calls ORefresh w' = (calls ORefresh w + k)%nat /\
  (forall w0,
     open_monitoring_page E fuel w0 = Ret tt w ->
     monitoring_progress E download_dir fuel file_name timeout w0 =
     (wait_enabled E fuel xpath (Bound (Some el)) ;;
      download_and_clear E download_dir fuel file_name timeout) w').
Proof.
  intros Hk Hv Hel Hf xpath w'.
  assert (Hrun : poll_row E (Z.to_nat max_retries) xpath 0 Unbound w =
                 Ret (Fell (Bound (Some el))) w').
  { change (Z.to_nat max_retries) with 30%nat.
    replace 30%nat with (k + S (29 - k))%nat by lia.
    rewrite poll_row_absent; auto; [| unfold max_retries; lia].
    cbn [poll_row].
    destruct (Z.ltb_spec (0 + Z.of_nat k) max_retries) as [_ | Hge];
      [| unfold max_retries in Hge; lia].
    unfold bind at 1, attempt at 1.
    rewrite (find_element_found E xpath 5 _ el); [reflexivity |].
    rewrite calls_absent_rounds.
    destruct (Op_eq_dec OWaitVisible OWaitVisible); [| congruence].
    destruct (Op_eq_dec ORefresh OWaitVisible); [discriminate |].
    replace (calls OWaitVisible w + k * (1 + 0))%nat
      with (calls OWaitVisible w + k)%nat by lia.
    exact Hel. }
  split; [exact Hrun |]. split; [| split; [| split]].
  - unfold w'. rewrite trace_tick, trace_absent_rounds.
    now rewrite <- app_assoc.
  - unfold w'. rewrite calls_tick, calls_absent_rounds. simpl. lia.
  - unfold w'. rewrite calls_tick, calls_absent_rounds. simpl. lia.
  - intros w0 H0. unfold monitoring_progress.
    unfold bind at 1. rewrite H0. fold xpath.
    unfold bind at 1. now rewrite Hrun.
Qed.

(** Thirty probes that all time out use up the retry budget without
    reaching [return False]: the loop is left with [download_button]
    bound to [False], and the readiness loop raises on it. *)
Lemma monitoring_progress_budget_exhausted fuel file_name timeout w0 w :
  open_monitoring_page E (S fuel) w0 = Ret tt w ->
  (forall i, (i < 30)%nat ->
     r_visible E (calls OWaitVisible w + i) = Throws TimeoutException) ->
  (forall i, (i < 30)%nat -> r_refresh E (calls ORefresh w + i) = Normal tt) ->
  let xpath := file_name_td file_name +:+ download_xpath in
  monitoring_progress E download_dir (S fuel) file_name timeout w0 =
  Raise AttributeError (absent_rounds E xpath 30 w).
Proof.
  intros H0 Hv Hf xpath. unfold monitoring_progress.
  unfold bind at 1. rewrite H0. fold xpath.
  change (Z.to_nat max_retries) with (30 + 0)%nat.
  unfold bind at 1.
  rewrite poll_row_absent; auto; try (unfold max_retries; lia).
Qed.

End Monitoring.

(** ** The readiness loop *)

Section Readiness.

Context (E : Env) (download_dir : string).

Lemma count_op_readiness_trace xpath button rounds o :
  count_op o (readiness_trace xpath button rounds) =
  (length rounds * ((if Op_eq_dec OGetAttribute o then 1 else 0) +
                    (if Op_eq_dec ORefresh o then 1 else 0)) +
   refreshes_through rounds * ((if Op_eq_dec OSleep o then 1 else 0) +
                               (if Op_eq_dec OWaitVisible o then 1 else 0)) +
   (if Op_eq_dec OGetAttribute o then 1 else 0))%nat.
Proof.
  revert button. induction rounds as [| r rest IH]; intros button.
  - simpl. lia.
  - cbn [readiness_trace]. rewrite !count_op_app, IH.
    unfold refreshes_through. cbn [List.filter length].
    destruct (refreshed r); simpl; lia.
Qed.

(** The readiness loop, round by round: as long as the observations
    show [disabled], each round refreshes, and backs off and relocates
    unless the refresh raised; a round that raised leaves the control as
    it was. *)
Lemma wait_enabled_rounds xpath :
  forall rounds fuel el w,
    (length rounds < fuel)%nat ->
    (forall i, (i < length rounds)%nat ->
       exists cls, r_attribute E (calls OGetAttribute w + i) = Normal (Some cls) /\
                   contains "disabled" cls = true) ->
    (exists cls,
       r_attribute E (calls OGetAttribute w + length rounds) = Normal (Some cls) /\
       contains "disabled" cls = false) ->
    rounds_scripted E rounds (calls ORefresh w) (calls OWaitVisible w) ->
    exists w',
      wait_enabled E fuel xpath (Bound (Some el)) w =
        Ret (Bound (Some (button_after el rounds))) w' /\
      trace w' = trace w ++ readiness_trace xpath el rounds.
Proof.
  induction rounds as [| r rest IH]; intros fuel el w Hfuel Hdis Hen Hs;
    (destruct fuel as [| fuel]; [simpl in Hfuel; lia |]);
    cbn [wait_enabled get_class].
  - destruct Hen as (cls & Hc & Hno). rewrite Nat.add_0_r in Hc.
    unfold bind at 1. rewrite (call_Normal E _ _ _ _ Hc), Hno.
    eexists. split; [reflexivity |]. reflexivity.
  - destruct (Hdis O ltac:(simpl; lia)) as (cls & Hc & Hyes).
    rewrite Nat.add_0_r in Hc.
    unfold bind at 1. rewrite (call_Normal E _ _ _ _ Hc), Hyes.
    set (w1 := tick E (EvGetAttribute el "class") w).
    assert (Hw1 : forall o, calls o w1 =
              (calls o w + (if Op_eq_dec OGetAttribute o then 1 else 0))%nat)
      by (intros o; unfold w1; now rewrite calls_tick).
    cbn [rounds_scripted] in Hs. destruct Hs as [Hr Hs].
    (* what the round does, and the state and control it leaves *)
    assert (Hround : exists w2,
              (let* r0 := attempt (call E EvRefresh (r_refresh E) ;;
                                    sleep E 10 ;;
                                    find_element E xpath TIMEOUT) in
               match r0 with
               | inr found => wait_enabled E fuel xpath (Bound found)
               | inl _ => wait_enabled E fuel xpath (Bound (Some el))
               end) w1
              = wait_enabled E fuel xpath (Bound (Some (round_button el r))) w2 /\
              trace w2 = trace w1 ++ [EvRefresh]
                         ++ (if refreshed r
                             then [EvSleep 10; EvWaitVisible xpath TIMEOUT]
                             else [])).
    { unfold bind at 1, attempt at 1, bind at 1.
      destruct r as [control | x | x]; cbn [round_button refreshed].
      - destruct Hr as [Href Hvis].
        rewrite (call_Normal E EvRefresh (r_refresh E) w1 tt)
          by (simpl kind; rewrite Hw1; simpl; rewrite Nat.add_0_r; exact Href).
        unfold bind at 1, sleep.
        rewrite (find_element_found E xpath TIMEOUT _ control)
          by (rewrite calls_after_sleep, calls_tick, Hw1; simpl;
              rewrite !Nat.add_0_r; exact Hvis).
        eexists. split; [reflexivity |].
        now rewrite trace_tick, trace_after_sleep, trace_tick, <- !app_assoc.
      - rewrite (call_Throws E EvRefresh (r_refresh E) w1 x)
          by (simpl kind; rewrite Hw1; simpl; rewrite Nat.add_0_r; exact Hr).
        eexists. split; [reflexivity |]. now rewrite trace_tick.
      - destruct Hr as (Href & Hvis & Hne).
        rewrite (call_Normal E EvRefresh (r_refresh E) w1 tt)
          by (simpl kind; rewrite Hw1; simpl; rewrite Nat.add_0_r; exact Href).
        unfold bind at 1, sleep.
        rewrite (find_element_fault E xpath TIMEOUT _ x)
          by (try exact Hne;
              rewrite calls_after_sleep, calls_tick, Hw1; simpl;
              rewrite !Nat.add_0_r; exact Hvis).
        eexists. split; [reflexivity |].
        now rewrite trace_tick, trace_after_sleep, trace_tick, <- !app_assoc. }
    destruct Hround as (w2 & Hstep & Htr2). rewrite Hstep.
    assert (Hw2 : forall o, calls o w2 =
              (calls o w1 + count_op o
                 ([EvRefresh] ++ (if refreshed r
                                  then [EvSleep 10; EvWaitVisible xpath TIMEOUT]
                                  else [])))%nat)
      by (intros o; unfold calls; now rewrite Htr2, count_op_app).
    destruct (IH fuel (round_button el r) w2) as (w' & Hrun & Htr).
    + simpl in Hfuel. lia.
    + intros i Hi. destruct (Hdis (S i) ltac:(simpl; lia)) as (c & Hc' & Hy).
      exists c. split; [| exact Hy].
      rewrite Hw2, Hw1. rewrite <- Hc'. f_equal.
      destruct (refreshed r); simpl; lia.
    + destruct Hen as (c & Hc' & Hn). exists c. split; [| exact Hn].
      rewrite Hw2, Hw1. rewrite <- Hc'. f_equal.
      destruct (refreshed r); simpl; lia.
    + rewrite !Hw2, !Hw1.
      replace (calls ORefresh w + _ + _)%nat with (S (calls ORefresh w))
        by (destruct (refreshed r); simpl; lia).
      replace (calls OWaitVisible w + _ + _)%nat
        with (if refreshed r then S (calls OWaitVisible w)
              else calls OWaitVisible w)
        by (destruct (refreshed r); simpl; lia).
      exact Hs.
    + exists w'. split; [exact Hrun |].
      rewrite Htr, Htr2. unfold w1. rewrite trace_tick.
      cbn [readiness_trace]. now rewrite <- !app_assoc.
Qed.

End Readiness.

(** ** Relations every step of a computation maintains *)

Section Preserve.

Context (E : Env) (R : World -> World -> Prop).

Hypothesis R_refl : forall w, R w w.
Hypothesis R_trans : forall a b c, R a b -> R b c -> R a c.

Lemma preserves_ret {A} (a : A) : preserves R (ret a).
Proof. intros w. apply R_refl. Qed.

Lemma preserves_diverge {A} : preserves R (@diverge A).
Proof. intros w. exact I. Qed.

Lemma preserves_now : preserves R now.
Proof. intros w. apply R_refl. Qed.

Lemma preserves_bind {A B} (m : M A) (k : A -> M B) :
  preserves R m -> (forall a, preserves R (k a)) -> preserves R (bind m k).
Proof.
  intros Hm Hk w. unfold bind. specialize (Hm w).
  destruct (m w) as [a w1 | x w1 |]; auto.
  specialize (Hk a w1). destruct (k a w1); eauto.
Qed.

Lemma preserves_try_except {A} (body : M A) (handler : Exn -> option (M A)) :
  preserves R body ->
  (forall x h, handler x = Some h -> preserves R h) ->
  preserves R (try_except body handler).
Proof.
  intros Hb Hh w. unfold try_except. specialize (Hb w).
  destruct (body w) as [a w1 | x w1 |]; auto.
  destruct (handler x) as [h |] eqn:Hx; auto.
  specialize (Hh x h Hx w1). destruct (h w1); eauto.
Qed.

Lemma preserves_attempt {A} (body : M A) :
  preserves R body -> preserves R (attempt body).
Proof.
  intros Hb w. unfold attempt. specialize (Hb w).
  destruct (body w); auto.
Qed.

(** From here on: every interaction except taking a screenshot
    maintains [R], and so does the passing of time. *)
Hypothesis R_tick : forall ev w, kind ev <> OScreenshot -> R w (tick E ev w).
Hypothesis R_sleep : forall d w, R w (after_sleep E d w).

Lemma preserves_call {A} ev (script : nat -> Resp A) :
  kind ev <> OScreenshot -> preserves R (call E ev script).
Proof.
  intros Hk w. unfold call. destruct (script _); apply R_tick, Hk.
Qed.

Lemma preserves_sleep d : preserves R (sleep E d).
Proof. intros w. apply R_sleep. Qed.

Lemma preserves_glob : preserves R (glob E).
Proof. intros w. apply R_tick. discriminate. Qed.

Ltac preserve_step :=
  first
    [ apply preserves_ret
    | apply preserves_diverge
    | apply preserves_now
    | apply preserves_sleep
    | apply preserves_glob
    | apply preserves_call; discriminate
    | apply preserves_attempt
    | apply preserves_bind; [| intros ? ]
    | apply preserves_try_except;
      [| intros [] ? [= <-] ] ].

Lemma preserves_yes_to_alert fuel : preserves R (_yes_to_alert E fuel).
Proof.
  induction fuel as [| fuel IH]; cbn [_yes_to_alert]; repeat preserve_step.
  destruct a0; [exact IH | preserve_step].
Qed.

Lemma preserves_wait_for_page_load fuel timeout :
  preserves R (_wait_for_page_load E fuel timeout).
Proof.
  induction fuel as [| fuel IH]; cbn [_wait_for_page_load].
  - preserve_step.
  - preserve_step; [apply preserves_yes_to_alert |].
    preserve_step; [repeat preserve_step |].
    destruct a0 as [b |]; [preserve_step |].
    preserve_step; [apply preserves_yes_to_alert | exact IH].
Qed.

Lemma preserves_click_element fuel xpath timeout :
  preserves R (click_element E fuel xpath timeout).
Proof.
  unfold click_element. preserve_step; [repeat preserve_step |].
  destruct a as [el |]; [| preserve_step].
  preserve_step; [preserve_step |]. apply preserves_wait_for_page_load.
Qed.

Lemma preserves_poll_new_file fuel end_time initial_files :
  preserves R (poll_new_file E fuel end_time initial_files).
Proof.
  induction fuel as [| fuel IH]; cbn [poll_new_file]; [preserve_step |].
  preserve_step; [preserve_step |].
  destruct (a <? end_time); [| preserve_step].
  preserve_step; [preserve_step |].
  destruct (decide _); [preserve_step |].
  preserve_step; [preserve_step | exact IH].
Qed.

End Preserve.

(** ** Dismissing dialogs and waiting for the page *)

Section LoadWait.

Context (E : Env).

Lemma dismiss_rounds_S n w :
  dismiss_rounds E (S n) w =
  dismiss_rounds E n
    (tick E EvAlertAccept (tick E EvSwitchToAlert (after_sleep E 3 w))).
Proof.
  unfold dismiss_rounds.
  exact (Nat.iter_succ_r n
           (fun w => tick E EvAlertAccept
                       (tick E EvSwitchToAlert (after_sleep E 3 w))) w).
Qed.

Lemma trace_dismiss_rounds n w :
  trace (dismiss_rounds E n w) =
  trace w ++ concat (repeat [EvSleep 3; EvSwitchToAlert; EvAlertAccept] n).
Proof.
  revert w. induction n as [| n IH]; intros w.
  - simpl. now rewrite app_nil_r.
  - rewrite dismiss_rounds_S, IH, !trace_tick, trace_after_sleep. simpl.
    now rewrite <- !app_assoc.
Qed.

Lemma calls_dismiss_rounds n w o :
  calls o (dismiss_rounds E n w) =
  (calls o w + n * ((if Op_eq_dec OSleep o then 1 else 0) +
                    (if Op_eq_dec OSwitchToAlert o then 1 else 0) +
                    (if Op_eq_dec OAlertAccept o then 1 else 0)))%nat.
Proof.
  revert w. induction n as [| n IH]; intros w.
  - simpl. lia.
  - rewrite dismiss_rounds_S, IH, !calls_tick, calls_after_sleep.
    simpl kind. lia.
Qed.

Lemma yes_to_alert_dismisses :
  forall n fuel w,
    (n < fuel)%nat ->
    presents_dialogs E n w ->
    _yes_to_alert E fuel w = Ret tt (dialogs_cleared E n w).
Proof.
  induction n as [| n IH]; intros fuel w Hfuel (Hs & Ha & x & Hx & Hno);
    (destruct fuel as [| fuel]; [lia |]); cbn [_yes_to_alert];
    unfold bind at 1, sleep; unfold bind at 1, try_except, bind at 1.
  - rewrite Nat.add_0_r in Hx.
    rewrite (call_Throws E EvSwitchToAlert _ _ x)
      by (simpl kind; rewrite calls_after_sleep; simpl;
          rewrite Nat.add_0_r; exact Hx).
    destruct Hno as [-> | ->]; reflexivity.
  - rewrite (call_Normal E EvSwitchToAlert _ _ tt)
      by (simpl kind; rewrite calls_after_sleep; simpl;
          specialize (Hs O ltac:(lia)); rewrite !Nat.add_0_r in *; exact Hs).
    unfold bind at 1.
    rewrite (call_Normal E EvAlertAccept _ _ tt)
      by (simpl kind; rewrite calls_tick, calls_after_sleep; simpl;
          specialize (Ha O ltac:(lia)); rewrite !Nat.add_0_r in *; exact Ha).
    unfold ret at 1. unfold dialogs_cleared. rewrite dismiss_rounds_S.
    apply IH; [lia |]. repeat split.
    + intros i Hi. rewrite !calls_tick, calls_after_sleep. simpl.
      rewrite <- (Hs (S i)) by lia. f_equal. lia.
    + intros i Hi. rewrite !calls_tick, calls_after_sleep. simpl.
      rewrite <- (Ha (S i)) by lia. f_equal. lia.
    + exists x. split; [| exact Hno].
      rewrite !calls_tick, calls_after_sleep. simpl.
      rewrite <- Hx. f_equal. lia.
Qed.

(** X25 (Load-Wait). Load-Wait first dismisses dialogs until none is
    left and only then polls readiness: [n] dialogs in a row are
    accepted by exactly [n] accepts, all of them before the first
    readiness wait.  A readiness wait that ends normally gives true, one
    that times out gives false, and one interrupted by a dialog is
    followed by the dialog loop and a restart of the whole protocol.
    Anything else the readiness wait raises reaches the caller. *)
Theorem load_wait_protocol fuel timeout (n : nat) w :
  (n <= fuel)%nat ->
  presents_dialogs E n w ->
  let w_n := dialogs_cleared E n w in
  _yes_to_alert E (S fuel) w = Ret tt w_n /\
  trace w_n =
    trace w ++ concat (repeat [EvSleep 3; EvSwitchToAlert; EvAlertAccept] n)
            ++ [EvSleep 3; EvSwitchToAlert] /\
  calls OAlertAccept w_n = (calls OAlertAccept w + n)%nat /\
  calls OWaitReady w_n = calls OWaitReady w /\
  (r_ready E (calls OWaitReady w_n) = Normal tt ->
   _wait_for_page_load E (S fuel) timeout w =
   Ret true (tick E (EvWaitReady timeout) w_n)) /\
  (r_ready E (calls OWaitReady w_n) = Throws TimeoutException ->
   _wait_for_page_load E (S fuel) timeout w =
   Ret false (tick E (EvWaitReady timeout) w_n)) /\
  (r_ready E (calls OWaitReady w_n) = Throws UnexpectedAlertPresentException ->
   _wait_for_page_load E (S fuel) timeout w =
   (_yes_to_alert E (S fuel) ;; _wait_for_page_load E fuel timeout)
     (tick E (EvWaitReady timeout) w_n)) /\
  (forall x,
     r_ready E (calls OWaitReady w_n) = Throws x ->
     x <> TimeoutException -> x <> UnexpectedAlertPresentException ->
     _wait_for_page_load E (S fuel) timeout w =
     Raise x (tick E (EvWaitReady timeout) w_n)).
Proof.
  intros Hfuel Hn w_n.
  assert (Hrun : _yes_to_alert E (S fuel) w = Ret tt w_n)
    by (apply yes_to_alert_dismisses; [lia | exact Hn]).
  split; [exact Hrun |].
  split.
  { unfold w_n, dialogs_cleared.
    rewrite trace_tick, trace_after_sleep, trace_dismiss_rounds.
    now rewrite <- !app_assoc. }
  split.
  { unfold w_n, dialogs_cleared.
    rewrite calls_tick, calls_after_sleep, calls_dismiss_rounds. simpl. lia. }
  split.
  { unfold w_n, dialogs_cleared.
    rewrite calls_tick, calls_after_sleep, calls_dismiss_rounds. simpl. lia. }
  repeat split.
  - intros Hr. cbn [_wait_for_page_load]. unfold bind at 1. rewrite Hrun.
    unfold bind at 1, try_except, bind at 1.
    now rewrite (call_Normal E (EvWaitReady timeout) _ _ tt Hr).
  - intros Hr. cbn [_wait_for_page_load]. unfold bind at 1. rewrite Hrun.
    unfold bind at 1, try_except, bind at 1.
    now rewrite (call_Throws E (EvWaitReady timeout) _ _ _ Hr).
  - intros Hr. cbn [_wait_for_page_load]. unfold bind at 1. rewrite Hrun.
    unfold bind at 1, try_except, bind at 1.
    now rewrite (call_Throws E (EvWaitReady timeout) _ _ _ Hr).
  - intros x Hr H1 H2. cbn [_wait_for_page_load]. unfold bind at 1.
    rewrite Hrun. unfold bind at 1, try_except, bind at 1.
    rewrite (call_Throws E (EvWaitReady timeout) _ _ _ Hr).
    destruct x; try reflexivity; contradiction.
Qed.

End LoadWait.

(** ** Absent elements and windows *)

Section Absence.

Context (E : Env).

Lemma scan_windows_no_match url :
  forall handles w,
    no_window_matches E url handles w ->
    exists w', scan_windows E url handles w = Ret false w'.
Proof.
  induction handles as [| h rest IH]; intros w Hno.
  - now exists w.
  - cbn [scan_windows].
    destruct (Hno O ltac:(simpl; lia)) as (Hs & u & Hu & Hc).
    rewrite Nat.add_0_r in Hs, Hu.
    unfold bind at 1. rewrite (call_Normal E (EvSwitchWindow h) _ _ tt Hs).
    unfold bind at 1.
    rewrite (call_Normal E EvCurrentUrl _ _ u)
      by (simpl kind; rewrite calls_tick; simpl; rewrite Nat.add_0_r; exact Hu).
    rewrite Hc. apply IH. intros i Hi.
    destruct (Hno (S i) ltac:(simpl; lia)) as (Hs' & u' & Hu' & Hc').
    split.
    + rewrite !calls_tick. simpl. rewrite <- Hs'. f_equal. lia.
    + exists u'. split; [| exact Hc'].
      rewrite !calls_tick. simpl. rewrite <- Hu'. f_equal. lia.
Qed.

(** C10. When the bounded wait of a primitive ends by its timeout, the
    element or window being absent, the primitive returns [False] and
    raises nothing: [find_element] and [find_all_elements] return the
    [False] sentinel; [send_key], [select_by_option_value],
    [switch_to_iframe], [click_element] and [switch_to_window] return
    false, [switch_to_window] also when no open window matches; and
    [fetch_page] returns false when the page was requested, the dialog
    loop ended and the readiness wait timed out. *)
Theorem absent_yields_value fuel xpath value url timeout min_windows w :
  (r_visible E (calls OWaitVisible w) = Throws TimeoutException ->
   let w' := tick E (EvWaitVisible xpath timeout) w in
   find_element E xpath timeout w = Ret None w' /\
   send_key E xpath value timeout w = Ret false w' /\
   select_by_option_value E xpath value timeout w = Ret false w' /\
   switch_to_iframe E xpath timeout w = Ret false w') /\
  (r_all_visible E (calls OWaitAllVisible w) = Throws TimeoutException ->
   find_all_elements E xpath timeout w =
   Ret None (tick E (EvWaitAllVisible xpath timeout) w)) /\
  (r_clickable E (calls OWaitClickable w) = Throws TimeoutException ->
   click_element E fuel xpath timeout w =
   Ret false (tick E (EvWaitClickable xpath timeout) w)) /\
  (r_wait_windows E (calls OWaitWindows w) = Throws TimeoutException ->
   switch_to_window E url timeout min_windows w =
   Ret false (tick E (EvWaitWindows timeout min_windows) w)) /\
  (forall handles,
     r_wait_windows E (calls OWaitWindows w) = Normal tt ->
     r_window_handles E (calls OWindowHandles w) = Normal handles ->
     no_window_matches E url handles w ->
     exists w', switch_to_window E url timeout min_windows w = Ret false w') /\
  (forall w1,
     r_get E (calls OGet w) = Normal tt ->
     _yes_to_alert E fuel (tick E (EvGet url) w) = Ret tt w1 ->
     r_ready E (calls OWaitReady w1) = Throws TimeoutException ->
     fetch_page E fuel url timeout w =
     Ret false (tick E (EvWaitReady timeout) w1)).
Proof.
  repeat split.
  - now apply find_element_timeout.
  - unfold send_key, bind. now rewrite find_element_timeout.
  - unfold select_by_option_value, bind. now rewrite find_element_timeout.
  - unfold switch_to_iframe, bind. now rewrite find_element_timeout.
  - intros H. unfold find_all_elements, try_except, bind.
    now rewrite (call_Throws E _ _ _ _ H).
  - intros H. unfold click_element. unfold bind at 1, try_except, bind at 1.
    now rewrite (call_Throws E _ _ _ _ H).
  - intros H. unfold switch_to_window, try_except. unfold bind at 1.
    now rewrite (call_Throws E _ _ _ _ H).
  - intros handles Hw Hh Hno.
    unfold switch_to_window, try_except. unfold bind at 1.
    rewrite (call_Normal E _ _ _ _ Hw). unfold bind at 1.
    rewrite (call_Normal E EvWindowHandles _ _ handles)
      by (simpl kind; rewrite calls_tick; simpl; rewrite Nat.add_0_r; exact Hh).
    destruct (scan_windows_no_match url handles
                (tick E EvWindowHandles
                   (tick E (EvWaitWindows timeout min_windows) w)))
      as (w' & Hscan).
    + intros i Hi. destruct (Hno i Hi) as (Hs & u & Hu & Hc). split.
      * rewrite !calls_tick. simpl. rewrite <- Hs. f_equal. lia.
      * exists u. split; [| exact Hc].
        rewrite !calls_tick. simpl. rewrite <- Hu. f_equal. lia.
    + exists w'. now rewrite Hscan.
  - intros w1 Hg Hy Hr. unfold fetch_page. unfold bind at 1.
    rewrite (call_Normal E _ _ _ _ Hg). unfold bind at 1.
    destruct fuel as [| fuel']; [discriminate |].
    cbn [_wait_for_page_load]. unfold bind at 1. rewrite Hy.
    unfold bind at 1, try_except, bind at 1.
    now rewrite (call_Throws E (EvWaitReady timeout) _ _ _ Hr).
Qed.

End Absence.

(** ** The interactions of a run *)

Section OnlyEvents.

Context (E : Env) (P : Event -> Prop).

(** [P] holds of every interaction except, possibly, waits for a
    control to be clickable and screenshots. *)
Hypothesis P_other :
  forall ev, kind ev <> OWaitClickable -> kind ev <> OScreenshot -> P ev.

Lemma extends_by_refl w : extends_by P w w.
Proof. exists []. split; [now rewrite app_nil_r | constructor]. Qed.

Lemma extends_by_trans a b c :
  extends_by P a b -> extends_by P b c -> extends_by P a c.
Proof.
  intros (l1 & H1 & F1) (l2 & H2 & F2). exists (l1 ++ l2). split.
  - now rewrite H2, H1, <- app_assoc.
  - apply Forall_app. now split.
Qed.

Lemma extends_by_tick ev w : P ev -> extends_by P w (tick E ev w).
Proof.
  intros H. exists [ev]. split; [apply trace_tick | now repeat constructor].
Qed.

Lemma extends_by_sleep d w : extends_by P w (after_sleep E d w).
Proof.
  exists [EvSleep d]. split; [apply trace_after_sleep |].
  repeat constructor. apply P_other; discriminate.
Qed.

Lemma only_call {A} ev (script : nat -> Resp A) :
  P ev -> preserves (extends_by P) (call E ev script).
Proof.
  intros H w. unfold call. destruct (script _); now apply extends_by_tick.
Qed.

Lemma only_sleep d : preserves (extends_by P) (sleep E d).
Proof. intros w. apply extends_by_sleep. Qed.

Lemma only_glob : preserves (extends_by P) (glob E).
Proof. intros w. apply extends_by_tick, P_other; discriminate. Qed.

Ltac only_step :=
  first
    [ apply preserves_ret; exact extends_by_refl
    | apply preserves_diverge
    | apply preserves_now; exact extends_by_refl
    | apply only_sleep
    | apply only_glob
    | apply only_call; apply P_other; discriminate
    | apply preserves_attempt
    | apply preserves_bind; [exact extends_by_trans | | intros ? ] ].

Lemma only_yes_to_alert fuel : preserves (extends_by P) (_yes_to_alert E fuel).
Proof.
  induction fuel as [| fuel IH]; cbn [_yes_to_alert]; [only_step |].
  only_step; [only_step |].
  only_step.
  - apply preserves_try_except; try exact extends_by_trans.
    + repeat only_step.
    + intros x h Hx. destruct x; try discriminate;
        injection Hx as <-; only_step.
  - destruct a0; [exact IH | only_step].
Qed.

Lemma only_wait_for_page_load fuel timeout :
  preserves (extends_by P) (_wait_for_page_load E fuel timeout).
Proof.
  induction fuel as [| fuel IH]; cbn [_wait_for_page_load]; [only_step |].
  only_step; [apply only_yes_to_alert |].
  only_step.
  - apply preserves_try_except; try exact extends_by_trans.
    + repeat only_step.
    + intros x h Hx. destruct x; try discriminate;
        injection Hx as <-; only_step.
  - destruct a0 as [b |]; [only_step |].
    only_step; [apply only_yes_to_alert | exact IH].
Qed.

Lemma only_poll_new_file fuel end_time initial_files :
  preserves (extends_by P) (poll_new_file E fuel end_time initial_files).
Proof.
  induction fuel as [| fuel IH]; cbn [poll_new_file]; [only_step |].
  only_step; [only_step |].
  destruct (a <? end_time); [| only_step].
  only_step; [only_step |].
  destruct (decide _); [only_step |].
  only_step; [only_step | exact IH].
Qed.

(** A click on a control: the wait for it to be clickable comes first,
    the click and the Load-Wait after it. *)
Lemma first_click_element fuel xpath timeout :
  preserves (starts_with (EvWaitClickable xpath timeout) P)
    (click_element E fuel xpath timeout).
Proof.
  intros w. unfold click_element, bind at 1, try_except, bind at 1, call.
  simpl kind.
  set (w1 := tick E (EvWaitClickable xpath timeout) w).
  assert (Hfirst : forall w', extends_by P w1 w' ->
                   starts_with (EvWaitClickable xpath timeout) P w w').
  { intros w' (l & Hl & Fl). exists l. split; [| exact Fl].
    rewrite Hl. unfold w1. now rewrite trace_tick, <- app_assoc. }
  destruct (r_clickable E (calls OWaitClickable w)) as [el | x].
  - unfold ret at 1.
    pose proof (preserves_bind (extends_by P) extends_by_trans
                  (call E (EvClick el) (r_click E))
                  (fun _ => _wait_for_page_load E fuel TIMEOUT)
                  (only_call (EvClick el) (r_click E)
                     (P_other (EvClick el) ltac:(discriminate) ltac:(discriminate)))
                  (fun _ => only_wait_for_page_load fuel TIMEOUT) w1) as H.
    destruct (bind _ _ w1) as [b w2 | y w2 |]; auto.
  - destruct x; apply Hfirst, extends_by_refl.
Qed.

Lemma only_click_element fuel xpath timeout :
  P (EvWaitClickable xpath timeout) ->
  preserves (extends_by P) (click_element E fuel xpath timeout).
Proof.
  intros HP w. pose proof (first_click_element fuel xpath timeout w) as H.
  assert (Hgo : forall w', starts_with (EvWaitClickable xpath timeout) P w w' ->
                extends_by P w w').
  { intros w' (l & Hl & Fl). exists (EvWaitClickable xpath timeout :: l).
    split; [exact Hl | now constructor]. }
  destruct (click_element E fuel xpath timeout w); auto.
Qed.

(** What comes first in [m] comes first in [m] followed by [k]. *)
Lemma starts_with_bind {A B} ev (m : M A) (k : A -> M B) :
  preserves (starts_with ev P) m ->
  (forall a, preserves (extends_by P) (k a)) ->
  preserves (starts_with ev P) (bind m k).
Proof.
  intros Hm Hk w. unfold bind. specialize (Hm w).
  destruct (m w) as [a w1 | x w1 |]; auto.
  specialize (Hk a w1).
  assert (Hgo : forall w2, extends_by P w1 w2 -> starts_with ev P w w2).
  { destruct Hm as (l & Hl & Fl). intros w2 (l2 & Hl2 & Fl2).
    exists (l ++ l2). split.
    - rewrite Hl2, Hl, <- app_assoc. reflexivity.
    - apply Forall_app. now split. }
  destruct (k a w1); auto.
Qed.

End OnlyEvents.

(** ** The download step *)

Section DownloadStep.

Context (E : Env) (download_dir : string).

Lemma same_screenshots_refl w : same_screenshots w w.
Proof. reflexivity. Qed.

Lemma same_screenshots_trans a b c :
  same_screenshots a b -> same_screenshots b c -> same_screenshots a c.
Proof. unfold same_screenshots. congruence. Qed.

Lemma same_screenshots_tick ev w :
  kind ev <> OScreenshot -> same_screenshots w (tick E ev w).
Proof.
  intros H. unfold same_screenshots. rewrite calls_tick.
  destruct (Op_eq_dec (kind ev) OScreenshot); [contradiction | lia].
Qed.

Lemma same_screenshots_sleep d w : same_screenshots w (after_sleep E d w).
Proof. unfold same_screenshots. rewrite calls_after_sleep. simpl. lia. Qed.

Lemma one_screenshot_bind_l {A B} (m : M A) (k : A -> M B) :
  one_screenshot m ->
  (forall a, preserves same_screenshots (k a)) ->
  one_screenshot (bind m k).
Proof.
  intros Hm Hk w w'. unfold bind. specialize (Hm w).
  destruct (m w) as [a w1 | x w1 |]; simpl; [| auto | discriminate].
  specialize (Hk a w1). specialize (Hm w1 eq_refl).
  destruct (k a w1) as [b w2 | x w2 |]; simpl; intros [= <-];
    unfold same_screenshots in Hk; congruence.
Qed.

Lemma one_screenshot_get_screenshot :
  one_screenshot (get_screenshot E download_dir).
Proof.
  intros w w'. unfold get_screenshot, bind, get_screenshot_as_file.
  destruct (r_screenshot E (calls OScreenshot w)) as [[|] | x]; simpl;
    intros [= <-]; unfold calls; simpl; rewrite count_op_app; simpl; lia.
Qed.

Lemma one_screenshot_file_download_body fuel kwargs :
  one_screenshot (file_download_body E download_dir fuel kwargs).
Proof.
  unfold file_download_body.
  apply one_screenshot_bind_l; [apply one_screenshot_get_screenshot |].
  intros _.
  apply preserves_bind; [apply same_screenshots_trans | |].
  - apply (preserves_click_element E same_screenshots
             same_screenshots_refl same_screenshots_trans
             same_screenshots_tick same_screenshots_sleep).
  - intros [|]; apply preserves_ret, same_screenshots_refl.
Qed.

Lemma one_screenshot_file_download fuel kwargs :
  one_screenshot (file_download E download_dir fuel kwargs).
Proof.
  intros w w'. unfold file_download. rewrite check_new_file_unfold.
  pose proof (one_screenshot_file_download_body fuel kwargs (tick E EvGlob w))
    as Hb.
  assert (Hg : calls OScreenshot (tick E EvGlob w) = calls OScreenshot w)
    by (apply same_screenshots_tick; discriminate).
  destruct (file_download_body E download_dir fuel kwargs (tick E EvGlob w))
    as [[|] w1 | x w1 |]; simpl in *.
  - specialize (Hb w1 eq_refl).
    pose proof (preserves_poll_new_file E same_screenshots
                  same_screenshots_refl same_screenshots_trans
                  same_screenshots_tick same_screenshots_sleep
                  fuel (deadline E kwargs w) (snapshot E w) w1) as Hp.
    destruct (poll_new_file E fuel _ _ w1) as [b w2 | y w2 |]; simpl;
      intros [= <-]; unfold same_screenshots in Hp; congruence.
  - intros [= <-]. rewrite (Hb w1 eq_refl). congruence.
  - intros [= <-]. rewrite (Hb w1 eq_refl). congruence.
  - discriminate.
Qed.

(** The download step enters [file_download] once: however it ends, one
    screenshot, the first action of [file_download], has been taken. *)
Lemma one_screenshot_download_and_clear fuel file_name timeout :
  one_screenshot (download_and_clear E download_dir fuel file_name timeout).
Proof.
  unfold download_and_clear.
  apply one_screenshot_bind_l; [apply one_screenshot_file_download |].
  intros _.
  apply preserves_bind; [apply same_screenshots_trans | |].
  - apply (preserves_click_element E same_screenshots
             same_screenshots_refl same_screenshots_trans
             same_screenshots_tick same_screenshots_sleep).
  - intros _. apply preserves_ret, same_screenshots_refl.
Qed.

Lemma download_xpath_not_delete_xpath file_name :
  file_name_td file_name +:+ delete_xpath
  <> file_name_td file_name +:+ download_xpath.
Proof.
  intros H. apply string_app_suffix_inj in H; [discriminate | reflexivity].
Qed.

(** The download step spelled out: the snapshot listing, the
    screenshot, the click on the download control, the polls when the
    click went through, and the click on the clear-history control. *)
Lemma download_and_clear_spelled fuel file_name timeout w :
  let xpath := file_name_td file_name +:+ download_xpath in
  let w1 := tick E EvGlob w in
  download_and_clear E download_dir fuel file_name timeout w =
  (get_screenshot_as_file E (screenshot_path E download_dir w1) ;;
   let* clicked := click_element E fuel xpath TIMEOUT in
   (if clicked then poll_new_file E fuel (clock w1 + timeout) (dir w1)
    else ret false) ;;
   click_element E fuel (file_name_td file_name +:+ delete_xpath) TIMEOUT ;;
   ret true) w1.
Proof.
  intros xpath w1.
  unfold download_and_clear, file_download. unfold bind at 1.
  rewrite check_new_file_unfold. fold w1.
  unfold file_download_body, get_screenshot, deadline, snapshot.
  cbn [kw_xpath kw_timeout default from_option id]. fold w1. fold xpath.
  unfold bind, ret.
  destruct (get_screenshot_as_file E (screenshot_path E download_dir w1) w1)
    as [saved w2 | x w2 |]; [| reflexivity | reflexivity].
  destruct saved;
    (destruct (click_element E fuel xpath TIMEOUT w2)
      as [[|] w3 | x w3 |]; reflexivity).
Qed.

(** The interactions of the download step, however it ends: the
    snapshot listing and the screenshot, then (unless taking the
    screenshot raised) the wait for the download control to be
    clickable, and after it neither that wait nor a screenshot again. *)
Lemma download_and_clear_events fuel file_name timeout w w'' :
  let xpath := file_name_td file_name +:+ download_xpath in
  let shot := screenshot_path E download_dir (tick E EvGlob w) in
  final_world (download_and_clear E download_dir fuel file_name timeout w)
    = Some w'' ->
  exists rest,
    trace w'' = trace w ++ EvGlob :: EvScreenshot shot :: rest /\
    match r_screenshot E (calls OScreenshot w) with
    | Throws _ => rest = []
    | Normal _ =>
        exists l, rest = EvWaitClickable xpath TIMEOUT :: l /\
                  Forall (no_click_no_shot xpath) l
    end.
Proof.
  intros xpath shot. rewrite download_and_clear_spelled.
  fold xpath. fold shot. set (w1 := tick E EvGlob w).
  assert (Hother : forall ev, kind ev <> OWaitClickable ->
                              kind ev <> OScreenshot ->
                              no_click_no_shot xpath ev).
  { intros ev H1 H2. split; [| exact H2]. intros ->. now apply H1. }
  assert (Hc1 : calls OScreenshot w1 = calls OScreenshot w)
    by (unfold w1; rewrite calls_tick; simpl; lia).
  assert (Htr1 : trace w1 = trace w ++ [EvGlob]) by reflexivity.
  unfold bind at 1, get_screenshot_as_file. rewrite Hc1.
  set (w2 := tick E (EvScreenshot shot) w1).
  assert (Htr2 : trace w2 = trace w ++ [EvGlob; EvScreenshot shot])
    by (unfold w2; now rewrite trace_tick, Htr1, <- app_assoc).
  assert (Hrest : forall w3,
            trace w3 = trace w2 ->
            final_world
              ((let* clicked := click_element E fuel xpath TIMEOUT in
                (if clicked
                 then poll_new_file E fuel (clock w1 + timeout) (dir w1)
                 else ret false) ;;
                click_element E fuel (file_name_td file_name +:+ delete_xpath)
                  TIMEOUT ;;
                ret true) w3) = Some w'' ->
            exists rest,
              trace w'' = trace w ++ EvGlob :: EvScreenshot shot :: rest /\
              exists l, rest = EvWaitClickable xpath TIMEOUT :: l /\
                        Forall (no_click_no_shot xpath) l).
  { intros w3 Htr3 Hend.
    pose proof (starts_with_bind (no_click_no_shot xpath)
                  (EvWaitClickable xpath TIMEOUT)
                  (click_element E fuel xpath TIMEOUT)
                  (fun clicked : bool =>
                     (if clicked
                      then poll_new_file E fuel (clock w1 + timeout) (dir w1)
                      else ret false) ;;
                     click_element E fuel
                       (file_name_td file_name +:+ delete_xpath) TIMEOUT ;;
                     ret true)
                  (first_click_element E (no_click_no_shot xpath) Hother
                     fuel xpath TIMEOUT)) as Hrun.
    assert (Hk : forall clicked : bool,
              preserves (extends_by (no_click_no_shot xpath))
                ((if clicked
                  then poll_new_file E fuel (clock w1 + timeout) (dir w1)
                  else ret false) ;;
                 click_element E fuel
                   (file_name_td file_name +:+ delete_xpath) TIMEOUT ;;
                 ret true)).
    { intros clicked.
      apply preserves_bind;
        [exact (extends_by_trans (no_click_no_shot xpath)) | |].
      - destruct clicked.
        + apply (only_poll_new_file E (no_click_no_shot xpath) Hother).
        + apply preserves_ret. exact (extends_by_refl (no_click_no_shot xpath)).
      - intros _. apply preserves_bind;
          [exact (extends_by_trans (no_click_no_shot xpath)) | |].
        + apply (only_click_element E (no_click_no_shot xpath) Hother).
          split; [| discriminate].
          pose proof (download_xpath_not_delete_xpath file_name) as Hd.
          fold xpath in Hd. intros H. apply Hd. congruence.
        + intros _. apply preserves_ret.
          exact (extends_by_refl (no_click_no_shot xpath)). }
    specialize (Hrun Hk w3).
    assert (Hgo : starts_with (EvWaitClickable xpath TIMEOUT)
                    (no_click_no_shot xpath) w3 w'').
    { destruct (bind _ _ w3) as [b w4 | x w4 |]; simpl in Hend;
        [injection Hend as <- | injection Hend as <- | discriminate];
        exact Hrun. }
    destruct Hgo as (l & Hl & Fl).
    exists (EvWaitClickable xpath TIMEOUT :: l). split.
    - rewrite Hl, Htr3, Htr2, <- app_assoc. reflexivity.
    - now exists l. }
  destruct (r_screenshot E (calls OScreenshot w)) as [[|] | x].
  - unfold bind at 1. apply Hrest. reflexivity.
  - unfold bind at 1. apply Hrest. reflexivity.
  - simpl. intros [= <-]. exists []. split; [| reflexivity].
    now rewrite Htr2.
Qed.

(** C7 (amended). For every number of rounds: when the located control
    shows a class with [disabled] at its first observations, one for
    each round, and without it at the next one, the readiness loop
    makes exactly these rounds and no other.  A round is a refresh, a
    back-off of 10 and a relocation of the control; a round whose
    refresh raises ends with the refresh, and a round whose relocation
    raises something else than a time-out ends with the relocation,
    both leaving the control as it was.  The loop carries no bound: the
    number of rounds is arbitrary.  [monitoring_progress] then runs the
    download step once: the snapshot listing, one screenshot and,
    unless taking it raised, one wait for the download control to be
    clickable, followed by the click, the polls and the clear-history
    click, among which there is no other screenshot and no other wait
    for the download control. *)
Theorem wait_enabled_then_download fuel file_name timeout
  (rounds : list Round) el w :
  (length rounds < fuel)%nat ->
  (forall i, (i < length rounds)%nat ->
     exists cls, r_attribute E (calls OGetAttribute w + i) = Normal (Some cls) /\
                 contains "disabled" cls = true) ->
  (exists cls,
     r_attribute E (calls OGetAttribute w + length rounds) = Normal (Some cls) /\
     contains "disabled" cls = false) ->
  rounds_scripted E rounds (calls ORefresh w) (calls OWaitVisible w) ->
  let xpath := file_name_td file_name +:+ download_xpath in
  exists w',
    wait_enabled E fuel xpath (Bound (Some el)) w =
      Ret (Bound (Some (button_after el rounds))) w' /\
    trace w' = trace w ++ readiness_trace xpath el rounds /\
    calls OGetAttribute w' = (calls OGetAttribute w + (length rounds + 1))%nat /\
    calls ORefresh w' = (calls ORefresh w + length rounds)%nat /\
    calls OSleep w' = (calls OSleep w + refreshes_through rounds)%nat /\
    calls OWaitVisible w' = (calls OWaitVisible w + refreshes_through rounds)%nat /\
    let w1 := tick E EvGlob w' in
    let shot := screenshot_path E download_dir w1 in
    let run := (wait_enabled E fuel xpath (Bound (Some el)) ;;
                download_and_clear E download_dir fuel file_name timeout) w in
    run = (get_screenshot_as_file E shot ;;
           let* clicked := click_element E fuel xpath TIMEOUT in
           (if clicked then poll_new_file E fuel (clock w1 + timeout) (dir w1)
            else ret false) ;;
           click_element E fuel (file_name_td file_name +:+ delete_xpath)
             TIMEOUT ;;
           ret true) w1 /\
    forall w'',
      final_world run = Some w'' ->
      calls OScreenshot w'' = S (calls OScreenshot w') /\
      exists rest,
        trace w'' = trace w' ++ EvGlob :: EvScreenshot shot :: rest /\
        match r_screenshot E (calls OScreenshot w') with
        | Throws _ => rest = []
        | Normal _ =>
            exists l, rest = EvWaitClickable xpath TIMEOUT :: l /\
                      Forall (no_click_no_shot xpath) l
        end.
Proof.
  intros Hfuel Hdis Hen Hs xpath.
  destruct (wait_enabled_rounds E xpath rounds fuel el w Hfuel Hdis Hen Hs)
    as (w' & Hrun & Htr).
  exists w'. split; [exact Hrun |]. split; [exact Htr |].
  assert (Hc : forall o, calls o w' =
                 (calls o w + count_op o (readiness_trace xpath el rounds))%nat)
    by (intros o; unfold calls; now rewrite Htr, count_op_app).
  split; [rewrite Hc, count_op_readiness_trace; simpl; lia |].
  split; [rewrite Hc, count_op_readiness_trace; simpl; lia |].
  split; [rewrite Hc, count_op_readiness_trace; simpl; lia |].
  split; [rewrite Hc, count_op_readiness_trace; simpl; lia |].
  intros w1 shot run.
  assert (Hgo : run = download_and_clear E download_dir fuel file_name timeout w')
    by (unfold run, bind at 1; now rewrite Hrun).
  split.
  - rewrite Hgo. apply download_and_clear_spelled.
  - intros w'' Hend. rewrite Hgo in Hend. split.
    + exact (one_screenshot_download_and_clear fuel file_name timeout w' w'' Hend).
    + exact (download_and_clear_events fuel file_name timeout w' w'' Hend).
Qed.

End DownloadStep.

(** ** The screenshot in the monitored directory *)

Section Screenshot.

Context (E : Env) (download_dir : string).

Lemma screenshot_path_not_provisional w :
  is_provisional (screenshot_path E download_dir w) = false.
Proof.
  unfold screenshot_path.
  rewrite <- !string_app_assoc. apply png_not_provisional.
Qed.

Lemma click_element_still_there f fuel xpath timeout :
  keeps_file E f ->
  preserves (still_there f) (click_element E fuel xpath timeout).
Proof.
  intros Hk. apply (preserves_click_element E (still_there f)).
  - intros w. unfold still_there. auto.
  - intros a b c. unfold still_there. auto.
  - intros ev w _. unfold still_there, tick. simpl. apply Hk.
  - intros d w. unfold still_there, after_sleep, tick. simpl. apply Hk.
Qed.

Lemma click_element_needs_fuel xpath timeout w w1 :
  click_element E O xpath timeout w <> Ret true w1.
Proof.
  unfold click_element, bind, try_except, call.
  destruct (r_clickable E _) as [el | []]; simpl; try discriminate.
  destruct (r_click E _); discriminate.
Qed.

(** C3 (amended). When the screenshot is saved and the click succeeds,
    the screenshot's path is not in the pre-trigger snapshot, no other
    process removes it, and the click returns before the deadline, then
    [file_download] returns true at the first poll of the detector,
    whatever else the directory holds: the screenshot, written after
    the snapshot and before the click, is a new file whose name ends in
    [.png]. *)
Theorem file_download_true_at_first_poll fuel kwargs w w1 :
  let w0 := tick E EvGlob w in
  let shot := screenshot_path E download_dir w0 in
  r_screenshot E (calls OScreenshot w0) = Normal true ->
  click_element E fuel (default "" (kw_xpath kwargs)) TIMEOUT
    (with_file shot (tick E (EvScreenshot shot) w0)) = Ret true w1 ->
  shot ∉ snapshot E w ->
  keeps_file E shot ->
  clock w1 < deadline E kwargs w ->
  file_download E download_dir fuel kwargs w = Ret true (tick E EvGlob w1) /\
  shot ∈ downloaded_files (dir (tick E EvGlob w1)) (snapshot E w) /\
  calls OGlob (tick E EvGlob w1) = S (calls OGlob w1).
Proof.
  intros w0 shot Hshot Hclick Hnew Hkeep Hlate.
  assert (Hin : shot ∈ dir (tick E EvGlob w1)).
  { pose proof (click_element_still_there shot fuel
                  (default "" (kw_xpath kwargs)) TIMEOUT Hkeep
                  (with_file shot (tick E (EvScreenshot shot) w0))) as Hp.
    rewrite Hclick in Hp. unfold tick at 1. simpl. apply Hkeep, Hp.
    unfold with_file. simpl. set_solver. }
  assert (Hd : shot ∈ downloaded_files (dir (tick E EvGlob w1)) (snapshot E w)).
  { apply elem_of_downloaded_files. repeat split; auto.
    apply screenshot_path_not_provisional. }
  assert (Hbody : file_download_body E download_dir fuel kwargs w0 = Ret true w1).
  { unfold file_download_body. unfold bind at 1.
    unfold get_screenshot, bind at 1, get_screenshot_as_file.
    fold shot. rewrite Hshot. unfold ret at 1. unfold bind at 1.
    now rewrite Hclick. }
  split; [| split; [exact Hd |]].
  - unfold file_download. rewrite check_new_file_unfold. fold w0.
    rewrite Hbody.
    destruct fuel as [| fuel]; [now apply click_element_needs_fuel in Hclick |].
    cbn [poll_new_file]. unfold bind at 1, now.
    destruct (Z.ltb_spec (clock w1) (deadline E kwargs w)) as [_ | Hge]; [| lia].
    unfold bind at 1, glob.
    destruct (decide (downloaded_files (dir (tick E EvGlob w1)) (snapshot E w) ≠ ∅))
      as [_ | He]; [reflexivity |].
    exfalso. apply He. intros Heq. rewrite Heq in Hd. set_solver.
  - rewrite calls_tick. simpl. lia.
Qed.

End Screenshot.

(** * Concrete runs *)

(** ** The detector on the examples of the specification *)

Example detector_tmp_then_final :
  returned (check_new_file downloading 100 (clicking downloading) (kw 60) start)
  = Some true /\
  poll_listing downloading 0
    (tick downloading (EvClick 7%nat) (tick downloading EvGlob start))
  = {[ "dl/A.zip"; "dl/B.tmp" ]} /\
  poll_listing downloading 1
    (tick downloading (EvClick 7%nat) (tick downloading EvGlob start))
  = {[ "dl/A.zip"; "dl/B.zip" ]}.
Proof. repeat split; vm_compute; reflexivity. Qed.

Example detector_times_out :
  returned (check_new_file stalling 100 (clicking stalling) (kw 60) start)
  = Some false.
Proof. vm_compute. reflexivity. Qed.

Example is_provisional_examples :
  is_provisional "dl/B.tmp" = true /\
  is_provisional "dl/B.zip.CRDOWNLOAD" = true /\
  is_provisional "dl/B.Tmp" = true /\
  is_provisional "dl/B.zip" = false /\
  is_provisional "dl/tmp" = false.
Proof. repeat split; reflexivity. Qed.

(** ** The orchestrator end to end *)

Example end_to_end_success :
  let run := monitoring_progress end_to_end "dl" 5 chunk 3600 start in
  returned run = Some true /\
  count_op OWaitVisible (final_trace run) = 5%nat /\
  count_op ORefresh (final_trace run) = 4%nat /\
  count_op OScreenshot (final_trace run) = 1%nat /\
  count_event (EvWaitClickable chunk_delete 30) (final_trace run) = 1%nat /\
  bool_decide
    (dir <$> final_world run
     = Some {[ "dl/A.zip"; "dl/2025-03-01_120000.png"; "dl/result.shp" ]}) = true.
Proof. vm_compute. repeat split. Qed.

(** With no file from the browser and a timeout of 5 the run still
    returns true and clears the history: the screenshot satisfies the
    detector at its first poll. *)
Example end_to_end_without_artifact :
  let run := monitoring_progress end_to_end_no_file "dl" 5 chunk 5 start in
  returned run = Some true /\
  count_event (EvWaitClickable chunk_delete 30) (final_trace run) = 1%nat /\
  bool_decide
    (dir <$> final_world run
     = Some {[ "dl/A.zip"; "dl/2025-03-01_120000.png" ]}) = true.
Proof. vm_compute. repeat split. Qed.

(** ** Instances of the theorems *)

Lemma check_new_file_trigger_failure_witness :
  check_new_file calm 5 failing (kw 60) start = Ret false (tick calm EvGlob start).
Proof.
  apply (check_new_file_trigger_failure calm 5 failing (kw 60) start
           (tick calm EvGlob start)).
  reflexivity.
Defined.

Lemma check_new_file_iff_witness :
  exists b w',
    check_new_file downloading 100 (clicking downloading) (kw 60) start = Ret b w' /\
    (b = true ->
     exists f, f ∈ dir w' /\ (f ∉ snapshot downloading start) /\
               ~ provisional_suffix f) /\
    (b = true <->
     exists i f,
       clock (poll_instant downloading i (clicked downloading))
         < deadline downloading (kw 60) start /\
       f ∈ poll_listing downloading i (clicked downloading) /\
       (f ∉ snapshot downloading start) /\ ~ provisional_suffix f).
Proof.
  apply (check_new_file_iff downloading 100 (clicking downloading) (kw 60)
           start (clicked downloading)).
  - reflexivity.
  - vm_compute. lia.
Defined.

Lemma check_new_file_snapshot_first_witness :
  check_new_file downloading 100 (clicking downloading) (kw 60) start
  = poll_new_file downloading 100 (deadline downloading (kw 60) start)
      (snapshot downloading start) (clicked downloading) /\
  exists w1 i,
    clicking downloading (kw 60) (tick downloading EvGlob start) = Ret true w1 /\
    downloaded = tick downloading EvGlob (poll_instant downloading i w1) /\
    exists f, f ∈ dir downloaded /\ (f ∉ snapshot downloading start) /\
              ~ provisional_suffix f.
Proof.
  destruct (check_new_file_snapshot_first downloading 100 (clicking downloading)
              (kw 60) start) as (_ & _ & Hrun & Htrue & _).
  split; [exact Hrun |].
  apply Htrue. vm_compute. reflexivity.
Defined.

Lemma poll_row_present_after_k_witness :
  poll_row row_on_third_probe (Z.to_nat max_retries) chunk_download 0 Unbound start
  = Ret (Fell (Bound (Some 7%nat)))
        (tick row_on_third_probe (EvWaitVisible chunk_download 5)
           (absent_rounds row_on_third_probe chunk_download 2 start)).
Proof.
  refine (proj1 (poll_row_present_after_k row_on_third_probe "dl" 5 chunk 3600
                   2 7%nat start _ _ _ _)).
  - lia.
  - intros i Hi. destruct i as [| [| i]]; [reflexivity | reflexivity | lia].
  - reflexivity.
  - intros i Hi. reflexivity.
Defined.

Lemma wait_enabled_then_download_witness :
  exists w',
    wait_enabled rounds_with_faults 5 chunk_download (Bound (Some 7%nat)) start
      = Ret (Bound (Some 8%nat)) w' /\
    trace w' =
      [EvGetAttribute 7%nat "class"; EvRefresh; EvSleep 10;
       EvWaitVisible chunk_download TIMEOUT;
       EvGetAttribute 8%nat "class"; EvRefresh;
       EvGetAttribute 8%nat "class"; EvRefresh; EvSleep 10;
       EvWaitVisible chunk_download TIMEOUT;
       EvGetAttribute 8%nat "class"] /\
    calls ORefresh w' = 3%nat /\
    calls OSleep w' = 2%nat.
Proof.
  destruct (wait_enabled_then_download rounds_with_faults "dl" 5 chunk 3600
              [Relocated 8%nat; RefreshFault WebDriverException;
               RelocationFault WebDriverException] 7%nat start)
    as (w' & Hrun & Htr & _ & Href & Hsleep & _).
  - simpl. lia.
  - intros i Hi. exists "btn disabled".
    destruct i as [| [| [| i]]];
      [split; reflexivity | split; reflexivity | split; reflexivity |
       simpl in Hi; lia].
  - exists "btn". split; reflexivity.
  - simpl. repeat split; try reflexivity. discriminate.
  - exists w'. split; [exact Hrun |]. split; [exact Htr |].
    split; [exact Href | exact Hsleep].
Defined.

Lemma two_dialogs_presented : presents_dialogs two_dialogs 2 start.
Proof.
  split; [| split].
  - intros i Hi. destruct i as [| [| i]]; [reflexivity | reflexivity | lia].
  - intros i Hi. reflexivity.
  - exists NoAlertPresentException. split; [reflexivity | now left].
Defined.

Lemma load_wait_protocol_witness :
  _wait_for_page_load two_dialogs 3 30 start
    = Ret true (tick two_dialogs (EvWaitReady 30) (dialogs_cleared two_dialogs 2 start)) /\
  calls OAlertAccept (dialogs_cleared two_dialogs 2 start) = 2%nat /\
  calls OWaitReady (dialogs_cleared two_dialogs 2 start) = 0%nat.
Proof.
  destruct (load_wait_protocol two_dialogs 2 30 2 start)
    as (_ & _ & Hacc & Hready & Hok & _).
  - lia.
  - exact two_dialogs_presented.
  - split; [apply Hok; reflexivity |].
    split; [exact Hacc | exact Hready].
Defined.

Lemma absent_yields_value_witness :
  find_element nothing_found "//a" 30 start
    = Ret None (tick nothing_found (EvWaitVisible "//a" 30) start) /\
  send_key nothing_found "//a" "v" 30 start
    = Ret false (tick nothing_found (EvWaitVisible "//a" 30) start) /\
  select_by_option_value nothing_found "//a" "v" 30 start
    = Ret false (tick nothing_found (EvWaitVisible "//a" 30) start) /\
  switch_to_iframe nothing_found "//a" 30 start
    = Ret false (tick nothing_found (EvWaitVisible "//a" 30) start) /\
  find_all_elements nothing_found "//a" 30 start
    = Ret None (tick nothing_found (EvWaitAllVisible "//a" 30) start) /\
  click_element nothing_found 5 "//a" 30 start
    = Ret false (tick nothing_found (EvWaitClickable "//a" 30) start) /\
  switch_to_window nothing_found "geocodingMonitoring" 30 2 start
    = Ret false (tick nothing_found (EvWaitWindows 30 2) start) /\
  (exists w', switch_to_window calm "no-such-page" 30 2 start = Ret false w') /\
  fetch_page nothing_found 5 monitoring_url 30 start
    = Ret false
        (tick nothing_found (EvWaitReady 30)
           (dialogs_cleared nothing_found 0
              (tick nothing_found (EvGet monitoring_url) start))).
Proof.
  destruct (absent_yields_value nothing_found 5 "//a" "v" "geocodingMonitoring"
              30 2 start)
    as (Hvis & Hall & Hclick & Hwin & _ & _).
  destruct (Hvis eq_refl) as (H1 & H2 & H3 & H4).
  destruct (absent_yields_value calm 5 "//a" "v" "no-such-page" 30 2 start)
    as (_ & _ & _ & _ & Hnone & _).
  destruct (absent_yields_value nothing_found 5 "//a" "v" monitoring_url
              30 2 start)
    as (_ & _ & _ & _ & _ & Hfetch).
  repeat split; auto; try (apply Hfetch; reflexivity).
  apply (Hnone ["main"; "popup"]); [reflexivity | reflexivity |].
  intros i Hi. split; [reflexivity |].
  destruct i as [| [| i]]; [| | simpl in Hi; lia].
  - exists "http://geobigdata.go.kr/portal/analysis/geoCoding.do".
    split; reflexivity.
  - exists monitoring_url. split; reflexivity.
Defined.

Lemma file_download_true_at_first_poll_witness :
  file_download calm "dl" 5 (kw 3600) start = Ret true (tick calm EvGlob calm_clicked) /\
  calm_shot ∈ downloaded_files (dir (tick calm EvGlob calm_clicked))
               (snapshot calm start) /\
  calls OGlob (tick calm EvGlob calm_clicked) = S (calls OGlob calm_clicked).
Proof.
  apply (file_download_true_at_first_poll calm "dl" 5 (kw 3600) start calm_clicked).
  - reflexivity.
  - vm_compute. reflexivity.
  - apply (bool_decide_unpack _). vm_compute. exact I.
  - intros n d H. exact H.
  - vm_compute. reflexivity.
Defined.

(** ** Where the code departs from the specification *)

(** Whatever [file_download] returns, the download step goes on to the
    clear-history click and returns true. *)
Lemma download_and_clear_ignores_result E download_dir fuel file_name timeout
  w b w1 c w2 :
  file_download E download_dir fuel
    {| kw_xpath := Some (file_name_td file_name +:+ download_xpath);
       kw_timeout := Some timeout |} w = Ret b w1 ->
  click_element E fuel (file_name_td file_name +:+ delete_xpath) TIMEOUT w1
    = Ret c w2 ->
  download_and_clear E download_dir fuel file_name timeout w = Ret true w2.
Proof.
  intros Hd Hc. unfold download_and_clear, bind. now rewrite Hd, Hc.
Qed.

(** C1 (code defect). The download control is found and enabled but
    cannot be clicked, so [file_download] returns false: the download
    failed.  [monitoring_progress] discards that result: it clicks the
    clear-history control once all the same and returns true. *)
Theorem monitoring_progress_clears_after_failed_download :
  let run := monitoring_progress download_not_clickable "dl" 5 chunk 3600 start in
  run = download_and_clear download_not_clickable "dl" 5 chunk 3600 control_enabled /\
  returned (file_download download_not_clickable "dl" 5 (kw 3600) control_enabled)
    = Some false /\
  returned run = Some true /\
  count_event (EvWaitClickable chunk_delete 30) (final_trace run) = 1%nat /\
  count_event (EvClick 8%nat) (final_trace run) = 1%nat.
Proof. repeat split; vm_compute; reflexivity. Qed.

(** C2 (code defect). The download control is absent on all thirty
    probes.  The guard [retries > max_retries] is never true inside the
    loop, so [return False] is not reached: the loop ends with
    [download_button] bound to [False], and the readiness loop raises
    [AttributeError] on it. *)
Theorem monitoring_progress_raises_when_row_never_appears :
  let run := monitoring_progress row_never "dl" 5 chunk 3600 start in
  raised run = Some AttributeError /\
  returned run = None /\
  count_op OWaitVisible (final_trace run) = 30%nat /\
  count_op ORefresh (final_trace run) = 30%nat /\
  count_op OGetAttribute (final_trace run) = 0%nat.
Proof. repeat split; vm_compute; reflexivity. Qed.

(** C3 as stated fails: with [timeout = 3] the screenshot is saved and
    the click succeeds, but the click's own Load-Wait sleeps 3 before it
    returns, the deadline has passed, no poll takes place and the
    detector returns false. *)
Lemma file_download_false_despite_screenshot :
  r_screenshot calm (calls OScreenshot (tick calm EvGlob start)) = Normal true /\
  click_element calm 5 chunk_download TIMEOUT
    (with_file calm_shot (tick calm (EvScreenshot calm_shot) (tick calm EvGlob start)))
    = Ret true calm_clicked /\
  file_download calm "dl" 5 (kw 3) start = Ret false calm_clicked /\
  calls OGlob calm_clicked = 1%nat.
Proof. repeat split; vm_compute; reflexivity. Qed.

(** C9. When the window is gone, the dialog loop ends on
    [NoSuchWindowException], which it catches, and returns; the
    readiness wait of [_wait_for_page_load] then raises the same
    exception, which none of its handlers catches: the protocol raises
    instead of returning a boolean. *)
Theorem load_wait_raises_on_closed_window :
  r_switch_to_alert window_closed 0 = Throws NoSuchWindowException /\
  r_ready window_closed 0 = Throws NoSuchWindowException /\
  _yes_to_alert window_closed 5 start
  = Ret tt (dialogs_cleared window_closed 0 start) /\
  _wait_for_page_load window_closed 5 30 start
  = Raise NoSuchWindowException
      (tick window_closed (EvWaitReady 30) (dialogs_cleared window_closed 0 start)) /\
  returned (_wait_for_page_load window_closed 5 30 start) = None.
Proof. repeat split; vm_compute; reflexivity. Qed.

(** C7 as stated fails: the control shows [disabled] at the first
    observation and no longer at the second, so the premise holds with
    one observation, but the refresh after the first observation
    raises.  The handler of the loop passes over it: the one iteration
    the loop makes has neither a back-off nor a relocation, and the
    loop goes on to the download step with the control it had. *)
Lemma readiness_round_without_backoff :
  let run := wait_enabled refresh_raises_once 5 chunk_download
               (Bound (Some 7%nat)) start in
  (exists cls, r_attribute refresh_raises_once 0 = Normal (Some cls) /\
               contains "disabled" cls = true) /\
  (forall i, exists cls,
     r_attribute refresh_raises_once (S i) = Normal (Some cls) /\
     contains "disabled" cls = false) /\
  returned run = Some (Bound (Some 7%nat)) /\
  final_trace run = [EvGetAttribute 7%nat "class"; EvRefresh;
                     EvGetAttribute 7%nat "class"] /\
  count_op ORefresh (final_trace run) = 1%nat /\
  count_op OSleep (final_trace run) = 0%nat /\
  count_op OWaitVisible (final_trace run) = 0%nat.
Proof.
  split; [exists "btn disabled"; split; reflexivity |].
  split; [intros i; exists "btn"; split; reflexivity |].
  vm_compute. repeat split.
Qed.

(** The claim's own scenario: two observations show [disabled], every
    refresh goes through and every relocation finds the control. *)
Example readiness_two_full_rounds :
  let run := wait_enabled disabled_twice 5 chunk_download
               (Bound (Some 7%nat)) start in
  returned run = Some (Bound (Some 7%nat)) /\
  final_trace run
  = readiness_trace chunk_download 7%nat [Relocated 7%nat; Relocated 7%nat] /\
  count_op ORefresh (final_trace run) = 2%nat /\
  count_op OSleep (final_trace run) = 2%nat /\
  count_op OWaitVisible (final_trace run) = 2%nat.
Proof. vm_compute. repeat split. Qed.

(** The condition on the relocations is needed: when a relocation
    times out, [find_element] returns False, the next test of the loop
    reads the class of False and raises, and the download step is not
    reached. *)
Example readiness_relocation_times_out :
  let run := (wait_enabled relocation_times_out 5 chunk_download
                (Bound (Some 7%nat)) ;;
              download_and_clear relocation_times_out "dl" 5 chunk 3600)
               start in
  raised run = Some AttributeError /\
  final_trace run = [EvGetAttribute 7%nat "class"; EvRefresh; EvSleep 10;
                     EvWaitVisible chunk_download TIMEOUT] /\
  count_op OScreenshot (final_trace run) = 0%nat.
Proof. vm_compute. repeat split. Qed.

(** * Properties of the remaining code *)

(** ** [string_util] *)

Lemma deleted_isspace c : deleted c = true -> isspace c = true.
Proof.
  unfold deleted, isspace. intros H.
  apply orb_true_iff in H as [H | H];
    [apply orb_true_iff in H as [H | H] |];
    apply N.eqb_eq in H; subst c; reflexivity.
Qed.

Lemma clean_text_app (a b : text) :
  clean_text (a ++ b) = clean_text a ++ clean_text b.
Proof. unfold clean_text. apply List.filter_app. Qed.

Lemma clean_text_idempotent (t : text) : clean_text (clean_text t) = clean_text t.
Proof.
  unfold clean_text. induction t as [| c t IH]; [reflexivity |].
  simpl. destruct (deleted c) eqn:Hc; simpl; [exact IH |].
  rewrite Hc. simpl. now rewrite IH.
Qed.

Lemma clean_text_no_space (t : text) :
  (forall c, In c t -> isspace c = false) -> clean_text t = t.
Proof.
  unfold clean_text. induction t as [| c t IH]; intros H; [reflexivity |].
  simpl. destruct (deleted c) eqn:Hc.
  - apply deleted_isspace in Hc. rewrite (H c) in Hc by now left. discriminate.
  - simpl. rewrite IH; [reflexivity |]. intros d Hd. apply H. now right.
Qed.

Lemma startswith_spec (p s : text) :
  startswith p s = true <-> exists b, s = p ++ b.
Proof.
  revert s. induction p as [| a p IH]; intros s; simpl.
  - split; [intros _; now exists s | reflexivity].
  - destruct s as [| c s]; [split; [discriminate | intros [b Hb]; discriminate] |].
    rewrite andb_true_iff, N.eqb_eq, IH. split.
    + intros [-> [b ->]]. now exists b.
    + intros [b [= -> ->]]. split; [reflexivity | now exists b].
Qed.

Lemma text_in_spec (sub s : text) :
  text_in sub s = true <-> exists a b, s = a ++ sub ++ b.
Proof.
  induction s as [| c s IH]; simpl.
  - destruct (startswith sub []) eqn:Hs.
    + apply startswith_spec in Hs as [b Hb].
      split; [intros _; now exists [], b | reflexivity].
    + split; [discriminate |]. intros (a & b & H).
      destruct a; [| discriminate]. simpl in H.
      assert (startswith sub [] = true) by (apply startswith_spec; now exists b).
      congruence.
  - destruct (startswith sub (c :: s)) eqn:Hs.
    + apply startswith_spec in Hs as [b Hb].
      split; [intros _; now exists [], b | reflexivity].
    + rewrite IH. split.
      * intros (a & b & ->). now exists (c :: a), b.
      * intros (a & b & H). destruct a as [| d a].
        { simpl in H.
          assert (startswith sub (c :: s) = true)
            by (apply startswith_spec; now exists b).
          congruence. }
        injection H as -> ->. now exists a, b.
Qed.

(** The words [split] returns lie inside the text, one after the other. *)
Lemma split_from_infix (t word : text) (w : text) :
  In w (split_from word t) -> exists a b, rev word ++ t = a ++ w ++ b.
Proof.
  revert word. induction t as [| c t IH]; intros word; simpl.
  - destruct word as [| d word]; [intros [] |].
    intros [<- | []]. exists [], []. now rewrite !app_nil_r.
  - destruct (isspace c).
    + destruct word as [| d word].
      * intros H. destruct (IH [] H) as (a & b & Hab). simpl in Hab.
        exists (c :: a), b. simpl. now rewrite Hab.
      * intros [<- | H].
        { now exists [], (c :: t). }
        destruct (IH [] H) as (a & b & Hab). simpl in Hab.
        exists (rev (d :: word) ++ c :: a), b.
        rewrite Hab. now rewrite <- !app_assoc.
    + intros H. destruct (IH (c :: word) H) as (a & b & Hab).
      exists a, b. rewrite <- Hab. simpl. now rewrite <- app_assoc.
Qed.

Lemma split_from_no_space (t word : text) (w : text) :
  (forall c, In c word -> isspace c = false) ->
  In w (split_from word t) ->
  w <> [] /\ forall c, In c w -> isspace c = false.
Proof.
  revert word. induction t as [| c t IH]; intros word Hword; simpl.
  - destruct word as [| d word]; [intros [] |].
    intros [<- | []]. split.
    + intros H. apply (f_equal (@length N)) in H.
      rewrite length_rev in H. discriminate.
    + intros x Hx. apply Hword. now apply in_rev.
  - destruct (isspace c) eqn:Hc.
    + destruct word as [| d word].
      * apply IH. intros x [].
      * intros [<- | H].
        { split.
          - intros H. apply (f_equal (@length N)) in H.
            rewrite length_rev in H. discriminate.
          - intros x Hx. apply Hword. now apply in_rev. }
        revert H. apply IH. intros x [].
    + apply IH. intros x [<- | Hx]; [exact Hc | now apply Hword].
Qed.

(** X1 (check_keywords, own words). Every text contains each of its own
    white-space separated words once cleaned. *)
Theorem check_keywords_refl (t : text) : check_keywords t t = true.
Proof.
  unfold check_keywords. apply forallb_forall. intros w Hw.
  destruct (split_from_infix t [] w Hw) as (a & b & Hab). simpl in Hab.
  destruct (split_from_no_space t [] w (fun x H => match H with end) Hw)
    as [_ Hns].
  apply text_in_spec. exists (clean_text a), (clean_text b).
  now rewrite Hab, !clean_text_app, (clean_text_no_space w Hns).
Qed.

(** X2 (check_keywords, spacing of the text). Spaces, tabs and newlines
    of the text play no part: a text matches exactly when it does with
    any such character taken out, or with all of them taken out. *)
Theorem check_keywords_text_spacing (a b keywords : text) (c : N) :
  deleted c = true ->
  check_keywords (a ++ c :: b) keywords = check_keywords (a ++ b) keywords /\
  check_keywords (clean_text (a ++ c :: b)) keywords
    = check_keywords (a ++ c :: b) keywords.
Proof.
  intros Hc. unfold check_keywords. split.
  - rewrite !clean_text_app. simpl. now rewrite Hc.
  - now rewrite clean_text_idempotent.
Qed.

Lemma check_keywords_text_spacing_witness :
  check_keywords [97; 32; 98]%N [97; 98]%N = check_keywords [97; 98]%N [97; 98]%N.
Proof.
  exact (proj1 (check_keywords_text_spacing [97]%N [98]%N [97; 98]%N 32%N eq_refl)).
Defined.

Lemma split_from_app_space (a b word : text) (c : N) :
  isspace c = true ->
  split_from word (a ++ c :: b) = split_from word a ++ split b.
Proof.
  intros Hc. revert word. induction a as [| d a IH]; intros word; simpl.
  - rewrite Hc. now destruct word.
  - destruct (isspace d).
    + destruct word; simpl; now rewrite IH.
    + apply IH.
Qed.

(** X3 (check_keywords, joining keywords). Keywords joined by a
    white-space character ask for both parts: the result is the
    conjunction of the results for the two parts, so neither the order
    of the keywords nor their repetition matters. *)
Theorem check_keywords_conjunction (t k1 k2 : text) (c : N) :
  isspace c = true ->
  check_keywords t (k1 ++ c :: k2) = check_keywords t k1 && check_keywords t k2 /\
  check_keywords t (k1 ++ c :: k2) = check_keywords t (k2 ++ c :: k1).
Proof.
  intros Hc.
  assert (H : forall x y, check_keywords t (x ++ c :: y)
                          = check_keywords t x && check_keywords t y).
  { intros x y. unfold check_keywords, split.
    now rewrite (split_from_app_space x y [] c Hc), forallb_app. }
  split; [apply H |]. rewrite !H. apply andb_comm.
Qed.

Lemma check_keywords_conjunction_witness :
  check_keywords [97; 98; 99]%N ([97] ++ 32 :: [99])%N
  = check_keywords [97; 98; 99]%N [97]%N && check_keywords [97; 98; 99]%N [99]%N.
Proof.
  exact (proj1 (check_keywords_conjunction [97; 98; 99]%N [97]%N [99]%N 32%N eq_refl)).
Defined.

Lemma split_from_blank (t : text) :
  (forall c, In c t -> isspace c = true) -> split_from [] t = [].
Proof.
  induction t as [| c t IH]; intros H; [reflexivity |].
  simpl. rewrite (H c) by now left. apply IH. intros d Hd. apply H. now right.
Qed.

Lemma split_from_nonblank (t word : text) :
  (exists c, In c (word ++ t) /\ isspace c = false) ->
  (forall c, In c word -> isspace c = false) ->
  split_from word t <> [].
Proof.
  revert word. induction t as [| c t IH]; intros word (x & Hin & Hx) Hword; simpl.
  - rewrite app_nil_r in Hin. destruct word; [destruct Hin | discriminate].
  - destruct (isspace c) eqn:Hc.
    + destruct word as [| d word]; [| discriminate].
      apply IH; [| intros y []].
      exists x. split; [| exact Hx]. simpl in *.
      destruct Hin as [-> | Hin]; [congruence | exact Hin].
    + apply IH.
      * exists x. split; [| exact Hx]. apply in_app_iff in Hin.
        simpl. destruct Hin as [Hin | [-> | Hin]];
          [right; apply in_app_iff; now left | now left
          | right; apply in_app_iff; now right].
      * intros y [<- | Hy]; [exact Hc | now apply Hword].
Qed.

(** X4 (check_keywords, no keyword). Keywords that hold nothing but
    white space, the empty string among them, are satisfied by every
    text; keywords with a character that is not white space are not
    satisfied by the empty text. *)
Theorem check_keywords_blank (t keywords : text) :
  ((forall c, In c keywords -> isspace c = true) ->
   check_keywords t keywords = true) /\
  ((exists c, In c keywords /\ isspace c = false) ->
   check_keywords [] keywords = false).
Proof.
  split.
  - intros H. unfold check_keywords, split. now rewrite split_from_blank.
  - intros H. unfold check_keywords, split.
    pose proof (split_from_nonblank keywords [] H (fun x Hx => match Hx with end))
      as Hne.
    destruct (split_from [] keywords) as [| w ws] eqn:Hs; [contradiction |].
    assert (Hw : In w (split_from [] keywords)) by (rewrite Hs; now left).
    apply (split_from_no_space keywords [] w (fun x Hx => match Hx with end))
      in Hw as [Hw _].
    simpl. destruct w; [contradiction | reflexivity].
Qed.

Lemma check_keywords_blank_witness :
  check_keywords [97; 98]%N [32; 9]%N = true /\
  check_keywords [] [32; 97]%N = false.
Proof.
  destruct (check_keywords_blank [97; 98]%N [32; 9]%N) as [H1 _].
  destruct (check_keywords_blank [] [32; 97]%N) as [_ H2].
  split.
  - apply H1. intros c [<- | [<- | []]]; reflexivity.
  - apply H2. exists 97%N. split; [right; now left | reflexivity].
Defined.

Lemma lstrip_nil_iff (t : text) :
  lstrip t = [] <-> forall c, In c t -> isspace c = true.
Proof.
  induction t as [| c t IH]; simpl.
  - split; [intros _ c [] | reflexivity].
  - destruct (isspace c) eqn:Hc.
    + rewrite IH. split.
      * intros H d [<- | Hd]; auto.
      * intros H d Hd. apply H. now right.
    + split; [discriminate |]. intros H.
      rewrite (H c) in Hc by now left. discriminate.
Qed.

Lemma lstrip_head (t : text) :
  match lstrip t with
  | [] => True
  | c :: _ => isspace c = false
  end.
Proof.
  induction t as [| c t IH]; simpl; [exact I |].
  destruct (isspace c) eqn:Hc; [exact IH | exact Hc].
Qed.

(** X5 (is_valid_string). A value is valid exactly when it is a string
    (not None, not NaN) with at least one character that is not white
    space. *)
Theorem is_valid_string_iff (v : cell) :
  is_valid_string v = true <->
  exists t, v = Some t /\ exists c, In c t /\ isspace c = false.
Proof.
  destruct v as [t |]; simpl.
  2: { split; [discriminate | intros (t & H & _); discriminate]. }
  assert (Hstrip : strip t = [] <-> forall c, In c t -> isspace c = true).
  { unfold strip. split.
    - intros H. apply (f_equal (@rev N)) in H. rewrite rev_involutive in H.
      simpl in H. pose proof (proj1 (lstrip_nil_iff _) H) as H'.
      pose proof (lstrip_head t) as Hh.
      destruct (lstrip t) as [| d l] eqn:Hl.
      + now apply (proj1 (lstrip_nil_iff t)).
      + rewrite (H' d) in Hh; [discriminate |].
        apply in_rev. rewrite rev_involutive. now left.
    - intros H. apply (proj2 (lstrip_nil_iff t)) in H. now rewrite H. }
  split.
  - intros Hv. exists t. split; [reflexivity |].
    destruct (existsb (fun c => negb (isspace c)) t) eqn:He.
    + apply existsb_exists in He as (c & Hc & Hn). exists c.
      split; [exact Hc | now apply negb_true_iff].
    + exfalso.
      assert (Hall : forall c, In c t -> isspace c = true).
      { intros c Hc. destruct (isspace c) eqn:Hsp; [reflexivity |].
        assert (existsb (fun c => negb (isspace c)) t = true); [| congruence].
        apply existsb_exists. exists c. now rewrite Hsp. }
      apply (proj2 Hstrip) in Hall. rewrite Hall in Hv. discriminate.
  - intros (t' & [= <-] & c & Hc & Hn).
    destruct (decide (strip t = [])) as [Hs | Hs].
    + pose proof (proj1 Hstrip Hs c Hc) as Hsp. congruence.
    + destruct (strip t); [contradiction | reflexivity].
Qed.

(** ** [file_util.chunk_dataframe] *)

Section Chunks.

Context {A : Type}.

Lemma range_from_slices (df : list A) (chunk_size : Z) :
  0 < chunk_size ->
  forall fuel k,
    map (fun i => rows_slice df i (i + chunk_size))
      (range_from fuel (Z.of_nat k) (Z.of_nat (length df)) chunk_size)
    = chunks_of fuel (Z.to_nat chunk_size) (skipn k df).
Proof.
  intros Hpos. induction fuel as [| fuel IH]; intros k; [reflexivity |].
  cbn [range_from chunks_of].
  destruct (Z.ltb_spec (Z.of_nat k) (Z.of_nat (length df))) as [Hlt | Hge].
  - assert (Hne : skipn k df <> []).
    { intros H. apply (f_equal (@length A)) in H.
      rewrite length_skipn in H. simpl in H. lia. }
    destruct (skipn k df) as [| x rest] eqn:Hs; [contradiction |].
    cbn [map]. f_equal.
    + unfold rows_slice. rewrite Nat2Z.id, Hs. f_equal. lia.
    + replace (Z.of_nat k + chunk_size)
        with (Z.of_nat (Z.to_nat chunk_size + k)) by lia.
      rewrite IH, <- Hs. f_equal. now rewrite skipn_skipn.
  - rewrite skipn_all2 by lia. reflexivity.
Qed.

Lemma chunks_of_concat (size : nat) :
  (0 < size)%nat ->
  forall fuel (rows : list A),
    (length rows <= fuel)%nat -> concat (chunks_of fuel size rows) = rows.
Proof.
  intros Hsize. induction fuel as [| fuel IH]; intros rows Hlen.
  - destruct rows; [reflexivity | simpl in Hlen; lia].
  - cbn [chunks_of]. destruct rows as [| x rest] eqn:Hr; [reflexivity |].
    rewrite <- Hr in *. cbn [concat]. rewrite IH.
    + apply firstn_skipn.
    + rewrite length_skipn. subst rows. simpl in *. lia.
Qed.

Lemma chunks_of_sizes (size : nat) :
  (0 < size)%nat ->
  forall fuel (rows : list A) i c,
    (length rows <= fuel)%nat ->
    chunks_of fuel size rows !! i = Some c ->
    (0 < length c <= size)%nat /\
    (S i < length (chunks_of fuel size rows) -> length c = size)%nat.
Proof.
  intros Hsize. induction fuel as [| fuel IH]; intros rows i c Hlen Hc.
  - discriminate.
  - cbn [chunks_of] in *. destruct rows as [| x rest] eqn:Hr; [discriminate |].
    rewrite <- Hr in *.
    assert (Hrl : (0 < length rows)%nat) by (subst rows; simpl; lia).
    destruct i as [| i].
    + injection Hc as <-. rewrite length_firstn. split; [lia |].
      cbn [length]. intros Hmore.
      destruct (chunks_of fuel size (skipn size rows)) as [| c' cs] eqn:Hrest;
        [simpl in Hmore; lia |].
      destruct (Nat.le_gt_cases size (length rows)) as [Hle | Hgt]; [lia |].
      rewrite skipn_all2 in Hrest by lia.
      destruct fuel; discriminate.
    + simpl in Hc. apply IH in Hc.
      * destruct Hc as [H1 H2]. split; [exact H1 |].
        cbn [length]. intros Hmore. apply H2. lia.
      * rewrite length_skipn. lia.
Qed.

Lemma chunks_of_length (size : nat) :
  (0 < size)%nat ->
  forall fuel (rows : list A),
    (length rows <= fuel)%nat ->
    length (chunks_of fuel size rows) = ((length rows + size - 1) / size)%nat.
Proof.
  intros Hsize. induction fuel as [| fuel IH]; intros rows Hlen.
  - destruct rows; [| simpl in Hlen; lia]. simpl.
    symmetry. apply Nat.div_small. lia.
  - cbn [chunks_of]. destruct rows as [| x rest] eqn:Hr.
    + simpl. symmetry. apply Nat.div_small. lia.
    + rewrite <- Hr in *.
      assert (Hrl : (0 < length rows)%nat) by (subst rows; simpl; lia).
      cbn [length]. rewrite IH by (rewrite length_skipn; lia).
      rewrite length_skipn.
      destruct (Nat.le_gt_cases size (length rows)) as [Hle | Hgt].
      * replace (length rows + size - 1)%nat
          with (length rows - size + size - 1 + 1 * size)%nat by lia.
        rewrite Nat.div_add by lia. lia.
      * replace (length rows - size)%nat with 0%nat by lia.
        rewrite (Nat.div_small (0 + size - 1)) by lia.
        apply (Nat.div_unique _ _ 1%nat (length rows - 1)); lia.
Qed.

(** X6 (chunk_dataframe, nothing lost). With a positive chunk size the
    chunks, put one after the other, are the frame again: no row is lost,
    repeated or moved. *)
Theorem chunk_dataframe_concat (df : list A) (chunk_size : Z) :
  0 < chunk_size ->
  exists chunks,
    chunk_dataframe df chunk_size = Some chunks /\ concat chunks = df.
Proof.
  intros Hpos. unfold chunk_dataframe, range0.
  destruct (Z.eqb_spec chunk_size 0) as [-> | _]; [lia |].
  destruct (Z.ltb_spec chunk_size 0) as [Hneg | _]; [lia |].
  eexists. split; [reflexivity |].
  rewrite (range_from_slices df chunk_size Hpos _ 0).
  change (skipn 0 df) with df.
  apply chunks_of_concat; lia.
Qed.

(** X7 (chunk_dataframe, sizes). With a positive chunk size no chunk is
    empty or longer than the chunk size, every chunk but the last has
    exactly the chunk size, and the number of chunks is the number of
    rows divided by the chunk size, rounded up. *)
Theorem chunk_dataframe_sizes (df : list A) (chunk_size : Z) :
  0 < chunk_size ->
  exists chunks,
    chunk_dataframe df chunk_size = Some chunks /\
    Z.of_nat (length chunks)
      = (Z.of_nat (length df) + chunk_size - 1) / chunk_size /\
    forall (i : nat) c,
      chunks !! i = Some c ->
      0 < Z.of_nat (length c) <= chunk_size /\
      ((S i < length chunks)%nat -> Z.of_nat (length c) = chunk_size).
Proof.
  intros Hpos. unfold chunk_dataframe, range0.
  destruct (Z.eqb_spec chunk_size 0) as [-> | _]; [lia |].
  destruct (Z.ltb_spec chunk_size 0) as [Hneg | _]; [lia |].
  eexists. split; [reflexivity |].
  rewrite (range_from_slices df chunk_size Hpos _ 0).
  change (skipn 0 df) with df.
  rewrite Nat2Z.id.
  assert (Hs : (0 < Z.to_nat chunk_size)%nat) by lia.
  split.
  - rewrite (chunks_of_length _ Hs) by lia.
    rewrite Nat2Z.inj_div, Nat2Z.inj_sub by lia.
    rewrite Nat2Z.inj_add, Z2Nat.id by lia. reflexivity.
  - intros i c Hc.
    destruct (chunks_of_sizes _ Hs (length df) df i c (Nat.le_refl _) Hc)
      as [H1 H2].
    split; [lia |]. intros Hi. apply H2 in Hi. lia.
Qed.

(** X8 (chunk_dataframe, chunk sizes that are not positive). A chunk
    size of zero raises (the [ValueError] of [range]) and never gives a
    result; a negative one gives no chunk at all, whatever the frame
    holds; a positive one gives no chunk only for an empty frame. *)
Theorem chunk_dataframe_degenerate (df : list A) (chunk_size : Z) :
  (chunk_dataframe df chunk_size = None <-> chunk_size = 0) /\
  (chunk_dataframe df chunk_size = Some [] <->
   chunk_size < 0 \/ (0 < chunk_size /\ df = [])).
Proof.
  unfold chunk_dataframe, range0.
  destruct (Z.eqb_spec chunk_size 0) as [-> | Hnz].
  { split; split; try reflexivity; try discriminate; lia. }
  destruct (Z.ltb_spec chunk_size 0) as [Hneg | Hpos].
  { split; split; try reflexivity; try discriminate; try lia. }
  assert (Hp : 0 < chunk_size) by lia.
  split; [split; [discriminate | lia] |].
  rewrite (range_from_slices df chunk_size Hp _ 0).
  change (skipn 0 df) with df.
  rewrite Nat2Z.id. split.
  - intros [= H]. right. split; [exact Hp |].
    destruct df as [| x df]; [reflexivity | discriminate].
  - intros [Hn | [_ ->]]; [lia | reflexivity].
Qed.

End Chunks.

Lemma chunk_dataframe_concat_witness :
  exists chunks,
    chunk_dataframe [1; 2; 3; 4; 5]%nat 2 = Some chunks /\
    concat chunks = [1; 2; 3; 4; 5]%nat.
Proof. apply (chunk_dataframe_concat [1; 2; 3; 4; 5]%nat 2). lia. Defined.

Lemma chunk_dataframe_sizes_witness :
  exists chunks,
    chunk_dataframe [1; 2; 3; 4; 5]%nat 2 = Some chunks /\
    Z.of_nat (length chunks) = (Z.of_nat 5 + 2 - 1) / 2 /\
    forall (i : nat) c,
      chunks !! i = Some c ->
      0 < Z.of_nat (length c) <= 2 /\
      ((S i < length chunks)%nat -> Z.of_nat (length c) = 2).
Proof. apply (chunk_dataframe_sizes [1; 2; 3; 4; 5]%nat 2). lia. Defined.

Example chunk_dataframe_examples :
  chunk_dataframe [1; 2; 3; 4; 5]%nat 2 = Some [[1; 2]; [3; 4]; [5]]%nat /\
  chunk_dataframe [1; 2; 3; 4]%nat 2 = Some [[1; 2]; [3; 4]]%nat /\
  chunk_dataframe [1; 2; 3]%nat 50000 = Some [[1; 2; 3]]%nat /\
  chunk_dataframe [1; 2; 3]%nat (-1) = Some [] /\
  chunk_dataframe [1; 2; 3]%nat 0 = None.
Proof. repeat split; vm_compute; reflexivity. Qed.

(** ** [file_util._find_header] *)

Lemma next_usecol_spec (row_values : list cell) (header_col : text) :
  header_col ∈ map (fun val => clean_text (str_cell val)) row_values ->
  exists v, next_usecol row_values header_col = Some v /\
            In v row_values /\ clean_text (str_cell v) = header_col.
Proof.
  unfold next_usecol. induction row_values as [| v row IH]; simpl; intros H.
  - inversion H.
  - destruct (bool_decide (clean_text (str_cell v) = header_col)) eqn:Hv.
    + apply bool_decide_eq_true in Hv. exists v. auto.
    + apply bool_decide_eq_false in Hv. apply elem_of_cons in H as [H | H];
        [congruence |].
      destruct (IH H) as (u & Hu & Hin & Hc). exists u. auto.
Qed.

Lemma collect_usecols_spec (row_values : list cell) (cleaned : list text) :
  (forall h, In h cleaned ->
             h ∈ map (fun val => clean_text (str_cell val)) row_values) ->
  exists usecols,
    collect_usecols row_values cleaned = Some usecols /\
    Forall2 (fun h v => In v row_values /\ clean_text (str_cell v) = h)
      cleaned usecols.
Proof.
  induction cleaned as [| h cleaned IH]; intros H; simpl.
  - exists []. split; [reflexivity | constructor].
  - destruct (next_usecol_spec row_values h (H h (or_introl eq_refl)))
      as (v & Hv & Hin & Hc).
    destruct IH as (usecols & Hu & Hall); [intros; apply H; now right |].
    rewrite Hv, Hu. exists (v :: usecols). split; [reflexivity |].
    constructor; auto.
Qed.

Lemma all_header_cols_iff (row_values : list cell) (header_cols : list text) :
  forallb
    (fun header_col =>
       bool_decide (header_col ∈ map (fun val => clean_text (str_cell val)) row_values))
    (map clean_text header_cols) = true
  <-> has_header row_values header_cols.
Proof.
  rewrite forallb_forall. unfold has_header. split.
  - intros H h Hh.
    specialize (H (clean_text h) (in_map _ _ _ Hh)).
    apply bool_decide_eq_true in H. apply list_elem_of_In, in_map_iff in H.
    destruct H as (v & Hv & Hin). now exists v.
  - intros H c Hc. apply in_map_iff in Hc as (h & <- & Hh).
    destruct (H h Hh) as (v & Hin & Hv).
    apply bool_decide_eq_true, list_elem_of_In, in_map_iff. now exists v.
Qed.

Lemma find_header_from_spec (header_cols : list text) :
  forall rows row_index,
    match find_header_from row_index rows (map clean_text header_cols) with
    | HeaderAt i usecols =>
        exists k row_values,
          i = (row_index + k)%nat /\
          rows !! k = Some row_values /\
          has_header row_values header_cols /\
          (forall j earlier, (j < k)%nat -> rows !! j = Some earlier ->
                             ~ has_header earlier header_cols) /\
          Forall2 (fun h v => In v row_values /\
                              clean_text (str_cell v) = clean_text h)
            header_cols usecols
    | NoHeader =>
        forall row_values, In row_values rows -> ~ has_header row_values header_cols
    | StopIteration => False
    end.
Proof.
  induction rows as [| row_values rows IH]; intros row_index; simpl.
  - intros r [].
  - destruct (forallb _ (map clean_text header_cols)) eqn:Hall.
    + pose proof (proj1 (all_header_cols_iff row_values header_cols) Hall) as Hh.
      destruct (collect_usecols_spec row_values (map clean_text header_cols))
        as (usecols & Hu & Hf).
      { intros h Hin. rewrite forallb_forall in Hall.
        apply (bool_decide_eq_true_1 _ (Hall h Hin)). }
      rewrite Hu. exists O, row_values.
      split; [lia |]. split; [reflexivity |]. split; [exact Hh |].
      split; [intros j e Hj; lia |].
      clear -Hf. revert usecols Hf.
      induction header_cols as [| h hs IHh]; intros usecols Hf;
        inversion Hf; subst; constructor; auto.
    + assert (Hn : ~ has_header row_values header_cols).
      { intros Hh. apply all_header_cols_iff in Hh. congruence. }
      specialize (IH (S row_index)).
      destruct (find_header_from (S row_index) rows (map clean_text header_cols))
        as [i usecols | |].
      * destruct IH as (k & r & -> & Hk & Hh & Hbefore & Hf).
        exists (S k), r. split; [lia |]. split; [exact Hk |].
        split; [exact Hh |]. split; [| exact Hf].
        intros j e Hj He. destruct j as [| j].
        { injection He as <-. exact Hn. }
        apply (Hbefore j e); [lia | exact He].
      * intros r [<- | Hr]; [exact Hn | now apply IH].
      * exact IH.
Qed.

(** X9 (_find_header). The result is the first row that holds every
    header column (compared after cleaning), with one value of that row
    for each header column, in the order of the header columns; it is
    False exactly when no row holds them all; and the [next] of the
    source never runs out of values. *)
Theorem find_header_spec (df : list (list cell)) (header_cols : list text) :
  match _find_header df header_cols with
  | HeaderAt i usecols =>
      exists row_values,
        df !! i = Some row_values /\
        has_header row_values header_cols /\
        (forall j earlier, (j < i)%nat -> df !! j = Some earlier ->
                           ~ has_header earlier header_cols) /\
        Forall2 (fun h v => In v row_values /\
                            clean_text (str_cell v) = clean_text h)
          header_cols usecols
  | NoHeader =>
      forall row_values, In row_values df -> ~ has_header row_values header_cols
  | StopIteration => False
  end.
Proof.
  unfold _find_header.
  pose proof (find_header_from_spec header_cols df O) as H.
  destruct (find_header_from 0 df (map clean_text header_cols)); auto.
  destruct H as (k & r & -> & H). now exists r.
Qed.

Example find_header_example :
  _find_header
    [[Some [49]; None]; [Some [97; 32]; Some [98]]; [Some [97]; Some [98]]]%N
    [[98; 10]; [97]]%N
  = HeaderAt 1 [Some [98]; Some [97; 32]]%N.
Proof. vm_compute. reflexivity. Qed.

(** ** [file_util._find_sheet_with_keywords] *)

(** X10 (_find_sheet_with_keywords). A sheet name is returned exactly
    when it is the only sheet name that satisfies the keywords; with no
    such sheet, or with several, the result is the index 0 of the first
    sheet, whether that sheet satisfies the keywords or not. *)
Theorem find_sheet_with_keywords_spec (sheet_names : list text)
  (sheet_keyword sheet : text) :
  (_find_sheet_with_keywords sheet_names sheet_keyword = inr sheet <->
   In sheet sheet_names /\ check_keywords sheet sheet_keyword = true /\
   forall other, In other sheet_names ->
                 check_keywords other sheet_keyword = true -> other = sheet) /\
  (forall z, _find_sheet_with_keywords sheet_names sheet_keyword = inl z -> z = 0).
Proof.
  unfold _find_sheet_with_keywords.
  set (M := list_to_set
              (List.filter (fun s => check_keywords s sheet_keyword) sheet_names)
            : gset text).
  assert (HM : forall s, s ∈ M <->
                         In s sheet_names /\ check_keywords s sheet_keyword = true).
  { intros s. unfold M. rewrite elem_of_list_to_set, list_elem_of_In.
    rewrite List.filter_In. reflexivity. }
  destruct (decide (size M = 0%nat)) as [H0 | H0].
  { split; [| now intros z [= <-]].
    split; [discriminate |]. intros (Hin & Hk & _).
    apply size_empty_inv in H0. assert (Hs : sheet ∈ M) by now apply HM.
    apply H0 in Hs. now apply not_elem_of_empty in Hs. }
  destruct (decide (1 < size M)%nat) as [H1 | H1].
  { split; [| now intros z [= <-]].
    split; [discriminate |]. intros (Hin & Hk & Huniq). exfalso.
    assert (Hsub : M ⊆ {[ sheet ]}).
    { intros s Hs. apply HM in Hs as [Hs1 Hs2].
      apply elem_of_singleton. now apply Huniq. }
    apply subseteq_size in Hsub. rewrite size_singleton in Hsub. lia. }
  assert (Hone : size M = 1%nat) by lia.
  apply size_1_elem_of in Hone as [x Hx]. apply leibniz_equiv in Hx.
  rewrite Hx, elements_singleton.
  assert (Hxm : x ∈ M) by (rewrite Hx; set_solver).
  split; [| discriminate].
  split.
  - intros [= <-]. apply HM in Hxm as [Hin Hk]. repeat split; auto.
    intros other Ho Hok. assert (other ∈ M) by now apply HM.
    rewrite Hx in H. now apply elem_of_singleton in H.
  - intros (Hin & Hk & Huniq). f_equal. apply Huniq; now apply HM.
Qed.

(** ** [file_util.find_file_path] *)

Section FindFileProps.

Context (path_suffix : string -> string) (path_stem : string -> text).
Context (str_lower : string -> string).
Context (path_le : relation string) `{!RelDecision path_le}.
Context `{!Transitive path_le, !Total path_le}.

Lemma head_merge_sort_least (l : list string) (f : string) :
  head (merge_sort path_le l) = Some f ->
  In f l /\ forall g, In g l -> path_le f g.
Proof.
  intros Hh.
  pose proof (merge_sort_Permutation path_le l) as Hp.
  pose proof (StronglySorted_merge_sort path_le l) as Hs.
  destruct (merge_sort path_le l) as [| x rest]; [discriminate |].
  injection Hh as ->. split.
  - apply list_elem_of_In. rewrite <- Hp. now left.
  - intros g Hg. apply list_elem_of_In in Hg. rewrite <- Hp in Hg.
    apply elem_of_cons in Hg as [-> | Hg].
    + destruct (total path_le f f); assumption.
    + apply StronglySorted_inv in Hs as [_ Hall].
      rewrite Forall_forall in Hall. apply Hall, Hg.
Qed.

(** X11 (find_file_path). The result is False exactly when no file of
    the set has the extension and the keywords asked for; otherwise it
    is one of the files that have them, and no other such file comes
    before it in the order of paths. *)
Theorem find_file_path_spec (files : gset string)
  (kw_extension : option string) (kw_file_name : option text) :
  let matches := file_matches path_suffix path_stem str_lower
                   kw_extension kw_file_name in
  let found := find_file_path path_suffix path_stem str_lower path_le files
                 kw_extension kw_file_name in
  (found = None <-> forall file, file ∈ files -> ~ matches file) /\
  (forall file,
     found = Some file ->
     file ∈ files /\ matches file /\
     forall other, other ∈ files -> matches other -> path_le file other).
Proof.
  intros matches found. unfold found, find_file_path.
  set (M := filter _ files : gset string).
  assert (HM : forall f, f ∈ M <-> f ∈ files /\ matches f).
  { intros f. unfold M. rewrite elem_of_filter. unfold matches, file_matches.
    tauto. }
  destruct (decide (M = ∅)) as [He | Hne].
  - split; [| discriminate]. split; [| reflexivity].
    intros _ f Hf Hm. assert (Hin : f ∈ M) by now apply HM.
    rewrite He in Hin. now apply not_elem_of_empty in Hin.
  - split.
    + split.
      * intros Hnone. exfalso.
        destruct (merge_sort path_le (elements M)) as [| x r] eqn:Hs;
          [| discriminate].
        pose proof (merge_sort_Permutation path_le (elements M)) as Hp.
        rewrite Hs in Hp. apply Permutation_nil_l in Hp. symmetry in Hp.
        apply elements_empty_inv in Hp. apply leibniz_equiv in Hp.
        contradiction.
      * intros Hall. exfalso. apply Hne. apply leibniz_equiv.
        intros f. split; [| intros Hf; now apply not_elem_of_empty in Hf].
        intros Hf. apply HM in Hf as [Hf Hm]. now apply Hall in Hm.
    + intros file Hh. apply head_merge_sort_least in Hh as [Hin Hleast].
      apply list_elem_of_In, elem_of_elements, HM in Hin as [Hin Hm].
      split; [exact Hin |]. split; [exact Hm |].
      intros other Ho Hmo. apply Hleast, list_elem_of_In, elem_of_elements.
      now apply HM.
Qed.

End FindFileProps.

Lemma find_file_path_spec_witness :
  let files : gset string := {[ "b.zip"; "bcc.zip"; "d.txt" ]} in
  let found := find_file_path last_four without_last_four lower shorter files
                 (Some ".ZIP") None in
  (found = None <->
   forall file, file ∈ files ->
     ~ file_matches last_four without_last_four lower (Some ".ZIP") None file) /\
  (forall file,
     found = Some file ->
     file ∈ files /\
     file_matches last_four without_last_four lower (Some ".ZIP") None file /\
     forall other, other ∈ files ->
       file_matches last_four without_last_four lower (Some ".ZIP") None other ->
       shorter file other).
Proof.
  exact (find_file_path_spec last_four without_last_four lower shorter
           {[ "b.zip"; "bcc.zip"; "d.txt" ]} (Some ".ZIP") None).
Defined.

Example find_file_path_examples :
  let files : gset string := {[ "b.zip"; "bcc.zip"; "d.txt" ]} in
  find_file_path last_four without_last_four lower shorter files (Some ".ZIP") None
    = Some "b.zip" /\
  find_file_path last_four without_last_four lower shorter files (Some ".zip")
    (Some [99; 32; 98]%N) = Some "bcc.zip" /\
  find_file_path last_four without_last_four lower shorter files (Some ".shp") None
    = None /\
  find_file_path last_four without_last_four lower shorter files None None = None.
Proof. repeat split; vm_compute; reflexivity. Qed.

(** ** [Refiner.refine_addr]: [get_refined_addr] *)

Section RefinedAddrProps.

Context (apply_addr_refinement_logic : text -> text).

Lemma get_refined_addr_from_present (row : gmap text cell) (addr_cols : list text) :
  forall fuel i,
    (length addr_cols - i <= fuel)%nat ->
    (forall entry, In entry (skipn i addr_cols) -> is_Some (row !! entry)) ->
    get_refined_addr_from apply_addr_refinement_logic fuel i row addr_cols
    = (first_valid apply_addr_refinement_logic row (skipn i addr_cols), addr_cols).
Proof.
  induction fuel as [| fuel IH]; intros i Hfuel Hall.
  - simpl. rewrite skipn_all2 by lia. reflexivity.
  - cbn [get_refined_addr_from].
    destruct (addr_cols !! i) as [entry |] eqn:Hi.
    + assert (Hd : skipn i addr_cols = entry :: skipn (S i) addr_cols).
      { apply drop_S in Hi. exact Hi. }
      rewrite Hd. cbn [first_valid].
      destruct (Hall entry) as [addr Ha]; [rewrite Hd; now left |].
      rewrite Ha. destruct (is_valid_string addr); [reflexivity |].
      apply IH; [lia |]. intros e He. apply Hall. rewrite Hd. now right.
    + apply lookup_ge_None in Hi. rewrite skipn_all2 by lia. reflexivity.
Qed.

Lemma get_refined_addr_from_S (fuel i : nat) (row : gmap text cell)
  (addr_cols : list text) :
  get_refined_addr_from apply_addr_refinement_logic (S fuel) i row addr_cols
  = match addr_cols !! i with
    | None => ([], addr_cols)
    | Some entry =>
        match row !! entry with
        | Some addr =>
            if is_valid_string addr
            then (apply_addr_refinement_logic (default [] addr), addr_cols)
            else get_refined_addr_from apply_addr_refinement_logic fuel (S i)
                   row addr_cols
        | None =>
            get_refined_addr_from apply_addr_refinement_logic fuel (S i) row
              (remove_first entry addr_cols)
        end
    end.
Proof. reflexivity. Qed.

(** X12 (get_refined_addr, all columns there). When the row has every
    column of [addr_cols], the result is the refined address of the
    first column, in the order of [addr_cols], whose value is a valid
    string, or the empty string when no column has one; [addr_cols] is
    left as it was. *)
Theorem get_refined_addr_all_present (row : gmap text cell) (addr_cols : list text) :
  (forall entry, In entry addr_cols -> is_Some (row !! entry)) ->
  get_refined_addr apply_addr_refinement_logic row addr_cols
  = (first_valid apply_addr_refinement_logic row addr_cols, addr_cols).
Proof.
  intros Hall. unfold get_refined_addr.
  rewrite get_refined_addr_from_present; [reflexivity | lia | exact Hall].
Qed.

(** X13 (get_refined_addr, a column the row lacks). When the row lacks
    the first column of [addr_cols], that column is removed from
    [addr_cols] and the column after it is passed over: whatever the
    row holds under the second column, the result is computed from the
    columns after the second one only. *)
Theorem get_refined_addr_skips_after_removal (row : gmap text cell)
  (a b : text) (rest : list text) :
  row !! a = None ->
  (forall entry, In entry rest -> is_Some (row !! entry)) ->
  get_refined_addr apply_addr_refinement_logic row (a :: b :: rest)
  = (first_valid apply_addr_refinement_logic row rest, b :: rest).
Proof.
  intros Ha Hall. unfold get_refined_addr.
  change (length (a :: b :: rest)) with (S (S (length rest))).
  rewrite get_refined_addr_from_S.
  change ((a :: b :: rest) !! 0%nat) with (Some a). cbv beta iota. rewrite Ha.
  cbn [remove_first]. destruct (decide (a = a)) as [_ | Hn]; [| contradiction].
  rewrite get_refined_addr_from_present; [reflexivity | simpl; lia |].
  exact Hall.
Qed.

End RefinedAddrProps.

Lemma get_refined_addr_all_present_witness :
  get_refined_addr (fun addr => addr ++ [33]%N)
    {[ [65]%N := Some [32]%N; [66]%N := Some [120]%N ]} [[65]; [66]]%N
  = (first_valid (fun addr => addr ++ [33]%N)
       {[ [65]%N := Some [32]%N; [66]%N := Some [120]%N ]} [[65]; [66]]%N,
     [[65]; [66]]%N).
Proof.
  apply (get_refined_addr_all_present (fun addr => addr ++ [33]%N)).
  intros entry [<- | [<- | []]]; vm_compute; eexists; reflexivity.
Defined.

Lemma get_refined_addr_skips_after_removal_witness :
  get_refined_addr (fun addr => addr ++ [33]%N)
    {[ [66]%N := Some [120]%N ]} [[65]; [66]]%N
  = (first_valid (fun addr => addr ++ [33]%N) {[ [66]%N := Some [120]%N ]} [],
     [[66]]%N).
Proof.
  apply (get_refined_addr_skips_after_removal (fun addr => addr ++ [33]%N)).
  - reflexivity.
  - intros entry [].
Defined.

Example get_refined_addr_examples :
  get_refined_addr (fun addr => addr ++ [33]%N)
    {[ [65]%N := Some [32]%N; [66]%N := Some [120]%N ]} [[65]; [66]]%N
  = ([120; 33]%N, [[65]; [66]]%N) /\
  get_refined_addr (fun addr => addr ++ [33]%N)
    {[ [66]%N := Some [120]%N ]} [[65]; [66]]%N
  = ([], [[66]]%N) /\
  get_refined_addr (fun addr => addr ++ [33]%N)
    {[ [66]%N := Some [120]%N ]} [[66]]%N
  = ([120; 33]%N, [[66]]%N).
Proof. repeat split; vm_compute; reflexivity. Qed.

(** ** [SeleniumScraper.click_elements] *)

Section ClickElements.

Context (E : Env).

Lemma dialogs_cleared_0_calls o w :
  calls o (dialogs_cleared E 0 w) =
  (calls o w + (if Op_eq_dec OSleep o then 1 else 0)
   + (if Op_eq_dec OSwitchToAlert o then 1 else 0))%nat.
Proof.
  unfold dialogs_cleared, dismiss_rounds. simpl Nat.iter.
  now rewrite calls_tick, calls_after_sleep.
Qed.

Lemma trace_dialogs_cleared_0 w :
  trace (dialogs_cleared E 0 w) = trace w ++ [EvSleep 3; EvSwitchToAlert].
Proof.
  unfold dialogs_cleared, dismiss_rounds. simpl Nat.iter.
  rewrite trace_tick, trace_after_sleep. now rewrite <- app_assoc.
Qed.

(** Load-Wait with no dialog open: its result is that of the readiness
    wait. *)
Lemma wait_for_page_load_quiet fuel timeout w :
  (exists x, r_switch_to_alert E (calls OSwitchToAlert w) = Throws x /\ no_dialog x) ->
  (r_ready E (calls OWaitReady w) = Normal tt ->
   _wait_for_page_load E (S fuel) timeout w
   = Ret true (tick E (EvWaitReady timeout) (dialogs_cleared E 0 w))) /\
  (r_ready E (calls OWaitReady w) = Throws TimeoutException ->
   _wait_for_page_load E (S fuel) timeout w
   = Ret false (tick E (EvWaitReady timeout) (dialogs_cleared E 0 w))).
Proof.
  intros (x & Hx & Hno).
  assert (Hrun : _yes_to_alert E (S fuel) w = Ret tt (dialogs_cleared E 0 w)).
  { apply yes_to_alert_dismisses; [lia |]. split; [intros i Hi; lia |].
    split; [intros i Hi; lia |]. exists x. now rewrite Nat.add_0_r. }
  assert (Hc : calls OWaitReady (dialogs_cleared E 0 w) = calls OWaitReady w).
  { rewrite dialogs_cleared_0_calls. simpl. lia. }
  split; intros Hr; cbn [_wait_for_page_load]; unfold bind at 1; rewrite Hrun;
    unfold bind at 1, try_except, bind at 1.
  - rewrite (call_Normal E (EvWaitReady timeout) _ _ tt); [reflexivity |].
    simpl kind. now rewrite Hc.
  - rewrite (call_Throws E (EvWaitReady timeout) _ _ TimeoutException);
      [reflexivity |].
    simpl kind. now rewrite Hc.
Qed.

Lemma after_click_calls o el w :
  calls o (after_click E el w) =
  (calls o w + (if Op_eq_dec OClick o then 1 else 0)
   + (if Op_eq_dec OSleep o then 1 else 0)
   + (if Op_eq_dec OSwitchToAlert o then 1 else 0)
   + (if Op_eq_dec OWaitReady o then 1 else 0))%nat.
Proof.
  unfold after_click. rewrite calls_tick, dialogs_cleared_0_calls, calls_tick.
  simpl kind. lia.
Qed.

Lemma trace_clicked_through els w :
  trace (clicked_through E els w) = trace w ++ click_trace els.
Proof.
  revert w. induction els as [| el els IH]; intros w.
  - simpl. now rewrite app_nil_r.
  - unfold clicked_through in *. cbn [fold_left]. rewrite IH.
    unfold after_click.
    rewrite trace_tick, trace_dialogs_cleared_0, trace_tick.
    unfold click_trace. cbn [flat_map]. now rewrite <- !app_assoc.
Qed.

Lemma click_each_one fuel el rest w :
  quiet_clicks E 1 w ->
  (r_ready E (calls OWaitReady w) = Normal tt ->
   click_each E (S fuel) (el :: rest) w
   = click_each E (S fuel) rest (after_click E el w)) /\
  (r_ready E (calls OWaitReady w) = Throws TimeoutException ->
   click_each E (S fuel) (el :: rest) w = Ret false (after_click E el w)).
Proof.
  intros Hq. destruct (Hq O ltac:(lia)) as (Hc & x & Hx & Hno).
  rewrite Nat.add_0_r in Hc, Hx.
  destruct (wait_for_page_load_quiet fuel TIMEOUT (tick E (EvClick el) w))
    as [Hok Hto].
  { exists x. split; [| exact Hno]. rewrite calls_tick. simpl.
    now rewrite Nat.add_0_r. }
  assert (Hr : calls OWaitReady (tick E (EvClick el) w) = calls OWaitReady w)
    by (rewrite calls_tick; simpl; lia).
  rewrite Hr in Hok, Hto.
  split; intros H; cbn [click_each]; unfold bind at 1;
    rewrite (call_Normal E (EvClick el) _ _ tt Hc); unfold bind at 1.
  - now rewrite (Hok H).
  - now rewrite (Hto H).
Qed.

Lemma quiet_clicks_after n el w :
  quiet_clicks E (S n) w -> quiet_clicks E n (after_click E el w).
Proof.
  intros Hq i Hi. destruct (Hq (S i) ltac:(lia)) as (Hc & x & Hx & Hno).
  rewrite !after_click_calls. simpl. split.
  - rewrite <- Hc. f_equal. lia.
  - exists x. split; [| exact Hno]. rewrite <- Hx. f_equal. lia.
Qed.

Lemma click_each_through fuel :
  forall done rest w,
    quiet_clicks E (length done) w ->
    (forall i, (i < length done)%nat ->
               r_ready E (calls OWaitReady w + i) = Normal tt) ->
    click_each E (S fuel) (done ++ rest) w
    = click_each E (S fuel) rest (clicked_through E done w).
Proof.
  induction done as [| el done IH]; intros rest w Hq Hr; [reflexivity |].
  cbn [app]. destruct (click_each_one fuel el (done ++ rest) w) as [Hok _].
  { intros i Hi. apply Hq. simpl. lia. }
  rewrite Hok by (specialize (Hr O ltac:(simpl; lia));
                  now rewrite Nat.add_0_r in Hr).
  rewrite IH.
  - reflexivity.
  - now apply quiet_clicks_after.
  - intros i Hi. rewrite after_click_calls. simpl.
    rewrite <- (Hr (S i)) by (simpl; lia). f_equal. lia.
Qed.

Lemma quiet_clicks_tick n ev w :
  kind ev <> OClick -> kind ev <> OSwitchToAlert ->
  quiet_clicks E n w -> quiet_clicks E n (tick E ev w).
Proof.
  intros H1 H2 Hq i Hi. rewrite !calls_tick.
  destruct (Op_eq_dec (kind ev) OClick); [contradiction |].
  destruct (Op_eq_dec (kind ev) OSwitchToAlert); [contradiction |].
  rewrite !Nat.add_0_r. now apply Hq.
Qed.

Lemma quiet_clicks_le n m w :
  (m <= n)%nat -> quiet_clicks E n w -> quiet_clicks E m w.
Proof. intros Hle Hq i Hi. apply Hq. lia. Qed.

Lemma quiet_clicks_through :
  forall done n w,
    quiet_clicks E (length done + n) w ->
    quiet_clicks E n (clicked_through E done w).
Proof.
  induction done as [| el done IH]; intros n w Hq; [exact Hq |].
  unfold clicked_through in *. cbn [fold_left]. apply IH.
  apply quiet_clicks_after. exact Hq.
Qed.

Lemma calls_clicked_through o :
  forall done w,
    calls o (clicked_through E done w) =
    (calls o w + count_op o (click_trace done))%nat.
Proof.
  intros done w. unfold calls. now rewrite trace_clicked_through, count_op_app.
Qed.

Lemma count_ready_click_trace done :
  count_op OWaitReady (click_trace done) = length done.
Proof.
  induction done as [| el done IH]; [reflexivity |].
  unfold click_trace in *. cbn [flat_map length].
  rewrite count_op_app, IH. reflexivity.
Qed.

Lemma find_all_elements_found xpath timeout w els :
  r_all_visible E (calls OWaitAllVisible w) = Normal els ->
  find_all_elements E xpath timeout w
  = Ret (Some els) (tick E (EvWaitAllVisible xpath timeout) w).
Proof.
  intros H. unfold find_all_elements, try_except, bind.
  now rewrite (call_Normal E _ _ _ _ H).
Qed.

(** X14 (click_elements, first failure). The elements are clicked in the
    order they were found.  When the page does not load in time after
    the click on one of them (and did after the clicks before it),
    [click_elements] returns false at once: the elements after it are
    not clicked. *)
Theorem click_elements_stops_at_first_failure fuel xpath timeout
  (done : list Element) (el : Element) (rest : list Element) w :
  r_all_visible E (calls OWaitAllVisible w) = Normal (done ++ el :: rest) ->
  quiet_clicks E (S (length done)) w ->
  (forall i, (i < length done)%nat ->
             r_ready E (calls OWaitReady w + i) = Normal tt) ->
  r_ready E (calls OWaitReady w + length done) = Throws TimeoutException ->
  exists w',
    click_elements E (S fuel) xpath timeout w = Ret false w' /\
    trace w' = trace w ++ EvWaitAllVisible xpath timeout
                       :: click_trace (done ++ [el]).
Proof.
  intros Hels Hq Hr Hto.
  set (w0 := tick E (EvWaitAllVisible xpath timeout) w).
  assert (Hready : calls OWaitReady w0 = calls OWaitReady w).
  { unfold w0. rewrite calls_tick. simpl kind.
    destruct (Op_eq_dec OWaitAllVisible OWaitReady); [discriminate | lia]. }
  assert (Hq0 : quiet_clicks E (S (length done)) w0).
  { apply quiet_clicks_tick; [discriminate | discriminate | exact Hq]. }
  exists (after_click E el (clicked_through E done w0)). split.
  - unfold click_elements, bind at 1.
    rewrite (find_all_elements_found xpath timeout w _ Hels). fold w0.
    assert (Hgo : forall l, l = done ++ el :: rest ->
              match l with
              | [] => ret false
              | element :: rest0 => click_each E (S fuel) (element :: rest0)
              end w0 = click_each E (S fuel) (done ++ el :: rest) w0).
    { intros l ->. destruct done; reflexivity. }
    rewrite (Hgo _ eq_refl).
    rewrite click_each_through.
    + destruct (click_each_one fuel el rest (clicked_through E done w0))
        as [_ Hfail].
      { apply quiet_clicks_through. replace (length done + 1)%nat
          with (S (length done)) by lia. exact Hq0. }
      apply Hfail. rewrite calls_clicked_through, count_ready_click_trace, Hready.
      exact Hto.
    + apply (quiet_clicks_le (S (length done))); [lia | exact Hq0].
    + intros i Hi. rewrite Hready. now apply Hr.
  - unfold after_click.
    rewrite trace_tick, trace_dialogs_cleared_0, trace_tick,
      trace_clicked_through. unfold w0. rewrite trace_tick.
    unfold click_trace. rewrite flat_map_app. cbn [flat_map].
    rewrite <- !app_assoc. reflexivity.
Qed.

(** X15 (click_elements, all clicked). When every page load after a click
    goes through, [click_elements] returns true after it clicked every
    element that was found, once each and in the order of the list. *)
Theorem click_elements_clicks_all fuel xpath timeout
  (el : Element) (els : list Element) w :
  r_all_visible E (calls OWaitAllVisible w) = Normal (el :: els) ->
  quiet_clicks E (S (length els)) w ->
  (forall i, (i < S (length els))%nat ->
             r_ready E (calls OWaitReady w + i) = Normal tt) ->
  exists w',
    click_elements E (S fuel) xpath timeout w = Ret true w' /\
    trace w' = trace w ++ EvWaitAllVisible xpath timeout
                       :: click_trace (el :: els).
Proof.
  intros Hels Hq Hr.
  set (w0 := tick E (EvWaitAllVisible xpath timeout) w).
  assert (Hready : calls OWaitReady w0 = calls OWaitReady w).
  { unfold w0. rewrite calls_tick. simpl kind.
    destruct (Op_eq_dec OWaitAllVisible OWaitReady); [discriminate | lia]. }
  exists (clicked_through E (el :: els) w0). split.
  - unfold click_elements, bind at 1.
    rewrite (find_all_elements_found xpath timeout w _ Hels). fold w0.
    rewrite <- (app_nil_r (el :: els)) at 1.
    rewrite click_each_through; [reflexivity | |].
    + apply quiet_clicks_tick; [discriminate | discriminate | exact Hq].
    + intros i Hi. rewrite Hready. now apply Hr.
  - rewrite trace_clicked_through. unfold w0. rewrite trace_tick.
    now rewrite <- app_assoc.
Qed.

(** X16 (click_elements, nothing found). When the wait for the elements
    times out or gives an empty list, [click_elements] returns false and
    clicks nothing: the wait is its only interaction. *)
Theorem click_elements_nothing_found fuel xpath timeout w :
  r_all_visible E (calls OWaitAllVisible w) = Throws TimeoutException \/
  r_all_visible E (calls OWaitAllVisible w) = Normal [] ->
  click_elements E fuel xpath timeout w
  = Ret false (tick E (EvWaitAllVisible xpath timeout) w).
Proof.
  intros [H | H]; unfold click_elements, bind at 1, find_all_elements,
    try_except, bind at 1.
  - now rewrite (call_Throws E _ _ _ _ H).
  - now rewrite (call_Normal E _ _ _ _ H).
Qed.

End ClickElements.

Lemma second_click_stalls_quiet n w : quiet_clicks second_click_stalls n w.
Proof.
  intros i _. split; [reflexivity |].
  exists NoAlertPresentException. split; [reflexivity | now left].
Qed.

Lemma three_elements_quiet n w : quiet_clicks three_elements n w.
Proof.
  intros i _. split; [reflexivity |].
  exists NoAlertPresentException. split; [reflexivity | now left].
Qed.

Lemma click_elements_stops_at_first_failure_witness :
  exists w',
    click_elements second_click_stalls 3 "//li" 30 start = Ret false w' /\
    trace w' = [EvWaitAllVisible "//li" 30;
                EvClick 1%nat; EvSleep 3; EvSwitchToAlert; EvWaitReady TIMEOUT;
                EvClick 2%nat; EvSleep 3; EvSwitchToAlert; EvWaitReady TIMEOUT].
Proof.
  apply (click_elements_stops_at_first_failure second_click_stalls 2 "//li" 30
           [1%nat] 2%nat [3%nat] start).
  - reflexivity.
  - apply second_click_stalls_quiet.
  - intros i Hi. simpl in Hi. assert (i = O) by lia. subst i. reflexivity.
  - reflexivity.
Defined.

Lemma click_elements_clicks_all_witness :
  exists w',
    click_elements three_elements 3 "//li" 30 start = Ret true w' /\
    trace w' = [EvWaitAllVisible "//li" 30;
                EvClick 1%nat; EvSleep 3; EvSwitchToAlert; EvWaitReady TIMEOUT;
                EvClick 2%nat; EvSleep 3; EvSwitchToAlert; EvWaitReady TIMEOUT;
                EvClick 3%nat; EvSleep 3; EvSwitchToAlert; EvWaitReady TIMEOUT].
Proof.
  apply (click_elements_clicks_all three_elements 2 "//li" 30
           1%nat [2%nat; 3%nat] start).
  - reflexivity.
  - apply three_elements_quiet.
  - intros i _. reflexivity.
Defined.

Lemma click_elements_nothing_found_witness :
  click_elements nothing_found 3 "//li" 30 start
  = Ret false (tick nothing_found (EvWaitAllVisible "//li" 30) start).
Proof.
  apply click_elements_nothing_found. left. reflexivity.
Defined.

(** ** [SeleniumScraper.end_scraping] *)

Section EndScraping.

Context (E : Env) (path_suffix : string -> string) (quit : M unit).

(** X17 (end_scraping). With fuel beyond the time allowed, [end_scraping]
    polls the directory every 10 seconds and ends in [driver.quit()]
    whatever it returns: true exactly when some poll that starts before
    the deadline lists no file with a temporary suffix, false once the
    deadline has passed.  A time-out of zero or less means no poll. *)
Theorem end_scraping_spec (timeout : Z) :
  forall fuel w,
    (Z.to_nat timeout < fuel)%nat ->
    exists b w1,
      end_scraping E path_suffix quit fuel timeout w = (quit ;; ret b) w1 /\
      (b = true <->
       exists i, clock (poll_instant E i w) < clock w + timeout /\
                 tmp_files path_suffix (poll_listing E i w) = ∅) /\
      (b = true -> tmp_files path_suffix (dir w1) = ∅) /\
      (b = false -> clock w + timeout <= clock w1) /\
      (timeout <= 0 -> b = false /\ w1 = w).
Proof.
  intros fuel w Hfuel. unfold end_scraping, bind at 1, now.
  set (end_time := clock w + timeout).
  assert (Hloop : forall fuel w0,
            (Z.to_nat (end_time - clock w0) < fuel)%nat ->
            exists b w1,
              wait_for_downloads E path_suffix quit fuel end_time w0
              = (quit ;; ret b) w1 /\
              (b = true <->
               exists i, clock (poll_instant E i w0) < end_time /\
                         tmp_files path_suffix (poll_listing E i w0) = ∅) /\
              (b = true -> tmp_files path_suffix (dir w1) = ∅) /\
              (b = false -> end_time <= clock w1) /\
              (end_time <= clock w0 -> b = false /\ w1 = w0)).
  { clear fuel Hfuel.
    induction fuel as [| fuel IH]; intros w0 Hfuel; [lia |].
    cbn [wait_for_downloads]. unfold bind at 1, now.
    destruct (Z.ltb_spec (clock w0) end_time) as [Hlt | Hge].
    - unfold bind at 1, glob.
      destruct (decide (tmp_files path_suffix (dir (tick E EvGlob w0)) = ∅))
        as [He | Hne].
      + exists true, (tick E EvGlob w0). split; [reflexivity |].
        split; [| split; [auto | split; [discriminate | lia]]].
        split; [| reflexivity]. intros _. exists O. split; [exact Hlt | exact He].
      + unfold bind at 1, sleep.
        set (w2 := after_sleep E 10 (tick E EvGlob w0)).
        assert (Hclk : clock w0 + 10 <= clock w2).
        { pose proof (clock_after_sleep E 10 (tick E EvGlob w0)).
          pose proof (clock_tick E EvGlob w0). subst w2. lia. }
        destruct (IH w2) as (b & w1 & Hrun & Hiff & Htrue & Hfalse & _); [lia |].
        exists b, w1. split; [exact Hrun |].
        split; [| split; [exact Htrue | split; [exact Hfalse | lia]]].
        rewrite Hiff. split.
        * intros (i & H1 & H2). exists (S i).
          unfold poll_listing in *. rewrite poll_instant_S. auto.
        * intros (i & H1 & H2). destruct i as [| i].
          { exfalso. apply Hne. exact H2. }
          exists i. unfold poll_listing in *.
          rewrite poll_instant_S in H1, H2. auto.
    - exists false, w0. split; [reflexivity |].
      split; [| split; [discriminate | split; [auto | auto]]].
      split; [discriminate |].
      intros (i & H1 & _). pose proof (poll_instant_clock E i w0). lia. }
  destruct (Hloop fuel w) as (b & w1 & Hrun & Hiff & Htrue & Hfalse & Hzero).
  { unfold end_time. lia. }
  exists b, w1. split; [exact Hrun |]. split; [exact Hiff |].
  split; [exact Htrue |]. split; [exact Hfalse |].
  intros Hneg. apply Hzero. unfold end_time. lia.
Qed.

End EndScraping.

Lemma end_scraping_spec_witness :
  exists b w1,
    end_scraping calm last_four (ret tt) 61 60 start = (ret tt ;; ret b) w1 /\
    (b = true <->
     exists i, clock (poll_instant calm i start) < clock start + 60 /\
               tmp_files last_four (poll_listing calm i start) = ∅) /\
    (b = true -> tmp_files last_four (dir w1) = ∅) /\
    (b = false -> clock start + 60 <= clock w1) /\
    (60 <= 0 -> b = false /\ w1 = start).
Proof.
  apply (end_scraping_spec calm last_four (ret tt) 60 61 start).
  vm_compute. lia.
Defined.

Example end_scraping_examples :
  end_scraping calm last_four (ret tt) 61 60 start
  = Ret true (tick calm EvGlob start) /\
  end_scraping calm last_four (ret tt) 61 0 start = Ret false start /\
  (let run := end_scraping downloading last_four (ret tt) 61 60
                (tick downloading (EvGet login_url) start) in
   returned run = Some true /\
   final_trace run = [EvGet login_url; EvGlob; EvSleep 10; EvGlob; EvSleep 10;
                      EvGlob]) /\
  (let run := end_scraping stalling last_four (ret tt) 61 20
                (tick stalling (EvGet login_url) start) in
   returned run = Some false /\
   final_trace run = [EvGet login_url; EvGlob; EvSleep 10; EvGlob; EvSleep 10]).
Proof. vm_compute. repeat split. Qed.

(** ** [Geocoder.monitoring_progress] and [start_geocoding]: the result *)

Section GeocoderResult.

Context (E : Env) (download_dir : string).

Lemma bind_Ret_inv {A B} (m : M A) (k : A -> M B) w b w' :
  bind m k w = Ret b w' ->
  exists a w1, m w = Ret a w1 /\ k a w1 = Ret b w'.
Proof.
  unfold bind. destruct (m w) as [a w1 | x w1 |]; try discriminate.
  intros H. now exists a, w1.
Qed.

(** While no refresh raises, the first loop is never left through one
    of its [return False]. *)
Lemma poll_row_never_returns xpath :
  (forall n, r_refresh E n = Normal tt) ->
  forall gas retries download_button w b w',
    poll_row E gas xpath retries download_button w <> Ret (Returned b) w'.
Proof.
  intros Hrefresh.
  induction gas as [| gas IH]; intros retries download_button w b w';
    cbn [poll_row];
    destruct (Z.ltb_spec retries max_retries) as [Hlt | Hge];
    try discriminate.
  assert (Hexc : forall button w1,
            (let* r := poll_except E retries in
             match r with
             | inr b0 => ret (Returned b0)
             | inl retries0 => poll_row E gas xpath retries0 button
             end) w1 <> Ret (Returned b) w').
  { intros button w1. unfold bind at 1, poll_except, bind at 1, call.
    rewrite Hrefresh. unfold bind at 1, sleep.
    destruct (Z.gtb_spec (retries + 1) max_retries) as [Hgt | Hle]; [lia |].
    apply IH. }
  unfold bind at 1.
  destruct (attempt (find_element E xpath 5) w) as [[x | [el |]] w1 | x w1 |];
    try discriminate.
  - apply Hexc.
  - destruct (Z.gtb_spec (retries + 1) max_retries) as [Hgt | Hle]; [lia |].
    unfold bind at 1, attempt, call. rewrite Hrefresh. apply IH.
Qed.

Lemma monitoring_progress_returns_true fuel file_name timeout w b w' :
  (forall n, r_refresh E n = Normal tt) ->
  monitoring_progress E download_dir fuel file_name timeout w = Ret b w' ->
  b = true.
Proof.
  intros Hrefresh Hrun.
  unfold monitoring_progress in Hrun.
  apply bind_Ret_inv in Hrun as ([] & w1 & _ & Hrun).
  apply bind_Ret_inv in Hrun as (left & w2 & Hpoll & Hrun).
  destruct left as [b0 | download_button].
  - now apply (poll_row_never_returns _ Hrefresh) in Hpoll.
  - apply bind_Ret_inv in Hrun as (local & w3 & _ & Hrun).
    unfold download_and_clear in Hrun.
    apply bind_Ret_inv in Hrun as (b1 & w4 & _ & Hrun).
    apply bind_Ret_inv in Hrun as (b2 & w5 & _ & Hrun).
    now injection Hrun as <- _.
Qed.

(** X18 (monitoring_progress, result). While [driver.refresh()] does not
    raise, [monitoring_progress] never returns false: the
    [retries > max_retries] tests of its first loop cannot hold, and
    what follows the loop returns true or raises. *)
Theorem monitoring_progress_never_false :
  (forall n, r_refresh E n = Normal tt) ->
  forall fuel file_name timeout w w',
    monitoring_progress E download_dir fuel file_name timeout w
    <> Ret false w'.
Proof.
  intros Hrefresh fuel file_name timeout w w' Hrun.
  now apply monitoring_progress_returns_true in Hrun.
Qed.

Context (path_name : string -> string) (close : M unit).

(** X19 (start_geocoding, result). While [driver.refresh()] does not
    raise, [start_geocoding] never returns false either: its
    [if not download] branch is not taken. *)
Theorem start_geocoding_never_false :
  (forall n, r_refresh E n = Normal tt) ->
  forall fuel file_path timeout w w',
    start_geocoding E download_dir path_name close fuel file_path timeout w
    <> Ret false w'.
Proof.
  intros Hrefresh fuel file_path timeout w w' Hrun.
  unfold start_geocoding in Hrun.
  apply bind_Ret_inv in Hrun as ([] & w1 & _ & Hrun).
  apply bind_Ret_inv in Hrun as (clicked & w2 & _ & Hrun).
  apply bind_Ret_inv in Hrun as (download & w3 & Hmon & Hrun).
  destruct download.
  - simpl negb in Hrun. cbv iota in Hrun.
    apply bind_Ret_inv in Hrun as ([] & w4 & _ & Hrun).
    apply bind_Ret_inv in Hrun as (handles & w5 & _ & Hrun).
    destruct (last_handle handles).
    + apply bind_Ret_inv in Hrun as ([] & w6 & _ & Hrun). discriminate.
    + discriminate.
  - now apply monitoring_progress_returns_true in Hmon.
Qed.

End GeocoderResult.

Lemma monitoring_progress_never_false_witness :
  (forall n, r_refresh calm n = Normal tt) /\
  (forall w', monitoring_progress calm "dl" 5 chunk 60 start <> Ret false w').
Proof.
  split; [reflexivity |].
  apply (monitoring_progress_never_false calm "dl"). reflexivity.
Defined.

Lemma start_geocoding_never_false_witness :
  (forall n, r_refresh calm n = Normal tt) /\
  (forall w',
     start_geocoding calm "dl" (fun f => f) (ret tt) 5 chunk 60 start
     <> Ret false w').
Proof.
  split; [reflexivity |].
  apply (start_geocoding_never_false calm "dl"). reflexivity.
Defined.

(** The hypothesis on [driver.refresh()] is needed: when the row is
    absent at the thirtieth probe and the refresh after it raises, the
    handler counts a second time and [monitoring_progress] returns
    false. *)
Example monitoring_progress_false_after_refresh_fault :
  let run := monitoring_progress row_never_refresh_fault "dl" 5 chunk 3600 start in
  returned run = Some false /\
  count_op OWaitVisible (final_trace run) = 30%nat /\
  count_op ORefresh (final_trace run) = 31%nat.
Proof. vm_compute. repeat split. Qed.

(** ** [SeleniumScraper.switch_to_window]: the first match *)

Section SwitchToWindow.

Context (E : Env).

Lemma trace_scanned handles w :
  trace (scanned E handles w) = trace w ++ scan_trace handles.
Proof.
  revert w. induction handles as [| h handles IH]; intros w.
  - simpl. now rewrite app_nil_r.
  - unfold scanned in *. cbn [fold_left]. rewrite IH, !trace_tick.
    unfold scan_trace. cbn [flat_map]. now rewrite <- !app_assoc.
Qed.

Lemma calls_scanned o handles w :
  calls o (scanned E handles w) = (calls o w + count_op o (scan_trace handles))%nat.
Proof. unfold calls. now rewrite trace_scanned, count_op_app. Qed.

Lemma count_scan_trace handles :
  count_op OSwitchWindow (scan_trace handles) = length handles /\
  count_op OCurrentUrl (scan_trace handles) = length handles.
Proof.
  induction handles as [| h handles [IH1 IH2]]; [split; reflexivity |].
  unfold scan_trace in *. cbn [flat_map length].
  rewrite !count_op_app, IH1, IH2. split; reflexivity.
Qed.

Lemma scan_windows_through url :
  forall before rest w,
    no_window_matches E url before w ->
    scan_windows E url (before ++ rest) w
    = scan_windows E url rest (scanned E before w).
Proof.
  induction before as [| h before IH]; intros rest w Hno; [reflexivity |].
  cbn [app scan_windows].
  destruct (Hno O ltac:(simpl; lia)) as (Hs & u & Hu & Hc).
  rewrite Nat.add_0_r in Hs, Hu.
  unfold bind at 1. rewrite (call_Normal E (EvSwitchWindow h) _ _ tt Hs).
  unfold bind at 1.
  rewrite (call_Normal E EvCurrentUrl _ _ u)
    by (simpl kind; rewrite calls_tick; simpl; rewrite Nat.add_0_r; exact Hu).
  rewrite Hc. rewrite IH; [reflexivity |].
  intros i Hi.
  destruct (Hno (S i) ltac:(simpl; lia)) as (Hs' & u' & Hu' & Hc').
  split.
  - rewrite !calls_tick. simpl. rewrite <- Hs'. f_equal. lia.
  - exists u'. split; [| exact Hc'].
    rewrite !calls_tick. simpl. rewrite <- Hu'. f_equal. lia.
Qed.

(** X20 (switch_to_window, first match). The windows are visited in the
    order of [window_handles]; at the first one whose URL contains
    [url], [switch_to_window] returns true and that window stays
    selected: the handles after it are not switched to. *)
Theorem switch_to_window_first_match url timeout min_windows
  (before : list string) (h : string) (rest : list string) (u : string) w :
  r_wait_windows E (calls OWaitWindows w) = Normal tt ->
  r_window_handles E (calls OWindowHandles w) = Normal (before ++ h :: rest) ->
  no_window_matches E url before w ->
  r_switch_window E (calls OSwitchWindow w + length before) = Normal tt ->
  r_current_url E (calls OCurrentUrl w + length before) = Normal u ->
  contains url u = true ->
  exists w',
    switch_to_window E url timeout min_windows w = Ret true w' /\
    trace w' = trace w ++ [EvWaitWindows timeout min_windows; EvWindowHandles]
                       ++ scan_trace (before ++ [h]).
Proof.
  intros Hwait Hhandles Hno Hs Hu Hc.
  set (w0 := tick E EvWindowHandles (tick E (EvWaitWindows timeout min_windows) w)).
  assert (Hcalls : forall o, o <> OWaitWindows -> o <> OWindowHandles ->
                             calls o w0 = calls o w).
  { intros o H1 H2. unfold w0. rewrite !calls_tick. simpl kind.
    destruct (Op_eq_dec OWindowHandles o); [congruence |].
    destruct (Op_eq_dec OWaitWindows o); [congruence | lia]. }
  assert (Hno0 : no_window_matches E url before w0).
  { intros i Hi. rewrite !Hcalls by discriminate. now apply Hno. }
  destruct (count_scan_trace before) as [Hcs Hcu].
  exists (tick E EvCurrentUrl (tick E (EvSwitchWindow h) (scanned E before w0))).
  split.
  - unfold switch_to_window, try_except, bind at 1.
    rewrite (call_Normal E (EvWaitWindows timeout min_windows) _ _ tt Hwait).
    unfold bind at 1.
    rewrite (call_Normal E EvWindowHandles _ _ (before ++ h :: rest))
      by (simpl kind; rewrite calls_tick; simpl kind;
          destruct (Op_eq_dec OWaitWindows OWindowHandles);
          [discriminate | rewrite Nat.add_0_r; exact Hhandles]).
    fold w0. rewrite (scan_windows_through url before (h :: rest) w0 Hno0).
    cbn [scan_windows]. unfold bind at 1.
    rewrite (call_Normal E (EvSwitchWindow h) _ _ tt)
      by (simpl kind; rewrite calls_scanned, Hcs, Hcalls by discriminate;
          exact Hs).
    unfold bind at 1.
    rewrite (call_Normal E EvCurrentUrl _ _ u)
      by (simpl kind; rewrite calls_tick, calls_scanned, Hcu, Hcalls
            by discriminate; simpl kind;
          destruct (Op_eq_dec OSwitchWindow OCurrentUrl);
          [discriminate | rewrite Nat.add_0_r; exact Hu]).
    now rewrite Hc.
  - rewrite !trace_tick, trace_scanned. unfold w0. rewrite !trace_tick.
    unfold scan_trace. rewrite flat_map_app. cbn [flat_map].
    rewrite <- !app_assoc. reflexivity.
Qed.

End SwitchToWindow.

Lemma switch_to_window_first_match_witness :
  exists w',
    switch_to_window second_click_stalls "geocodingMonitoring" 30 2 start
    = Ret true w' /\
    trace w' = [EvWaitWindows 30 2; EvWindowHandles;
                EvSwitchWindow "main"; EvCurrentUrl;
                EvSwitchWindow "popup"; EvCurrentUrl].
Proof.
  apply (switch_to_window_first_match second_click_stalls "geocodingMonitoring" 30 2
           ["main"] "popup" ["other"] monitoring_url start).
  - reflexivity.
  - reflexivity.
  - intros i Hi. simpl in Hi. assert (i = O) by lia. subst i.
    split; [reflexivity |].
    exists "http://geobigdata.go.kr/portal/analysis/geoCoding.do".
    split; reflexivity.
  - reflexivity.
  - reflexivity.
  - reflexivity.
Defined.

(** ** [Geocoder.connect_to_platform] *)

Section ConnectToPlatform.

Context (E : Env).

Lemma find_element_Ret_inv xpath timeout w r w' :
  find_element E xpath timeout w = Ret r w' ->
  w' = tick E (EvWaitVisible xpath timeout) w /\
  match r with
  | Some el => r_visible E (calls OWaitVisible w) = Normal el
  | None => r_visible E (calls OWaitVisible w) = Throws TimeoutException
  end.
Proof.
  unfold find_element, try_except, bind, call. simpl kind.
  destruct (r_visible E (calls OWaitVisible w)) as [el | x].
  - intros [= <- <-]. now split.
  - destruct x; try discriminate. intros [= <- <-]. now split.
Qed.

(** X21 (connect_to_platform, result). Whenever [connect_to_platform]
    returns, the login page had loaded, and the value returned is
    decided by the look-up of the log-out link alone, which is its last
    interaction: true when the link was found, false when the wait for
    it timed out.  What typing the account and the password and
    clicking the log-in button returned plays no part. *)
Theorem connect_to_platform_result fuel account password w b :
  returned (connect_to_platform E fuel account password w) = Some b ->
  exists w0 w1,
    fetch_page E fuel login_url TIMEOUT w = Ret true w0 /\
    connect_to_platform E fuel account password w
    = Ret b (tick E (EvWaitVisible (xpath_text "a" "로그아웃") TIMEOUT) w1) /\
    if b then exists el, r_visible E (calls OWaitVisible w1) = Normal el
    else r_visible E (calls OWaitVisible w1) = Throws TimeoutException.
Proof.
  intros Hret.
  destruct (connect_to_platform E fuel account password w) as [b0 w' | |] eqn:Hrun;
    try discriminate.
  injection Hret as ->. pose proof Hrun as Hrun0.
  unfold connect_to_platform in Hrun.
  apply bind_Ret_inv in Hrun as (fetched & w0 & Hfetch & Hrun).
  destruct fetched; [| discriminate].
  simpl negb in Hrun. cbv iota in Hrun.
  apply bind_Ret_inv in Hrun as (typed1 & w2 & _ & Hrun).
  apply bind_Ret_inv in Hrun as (typed2 & w3 & _ & Hrun).
  apply bind_Ret_inv in Hrun as (clicked & w4 & _ & Hrun).
  apply bind_Ret_inv in Hrun as (logout & w5 & Hfind & Hrun).
  apply find_element_Ret_inv in Hfind as [-> Hvis].
  exists w0, w4. split; [exact Hfetch |].
  destruct logout as [el |]; injection Hrun as <- <-.
  - split; [reflexivity |]. now exists el.
  - split; [reflexivity | exact Hvis].
Qed.

(** X22 (connect_to_platform, page not loaded). When the login page does
    not load, [connect_to_platform] does not return false: it raises
    [AttributeError], the logger having no attribute [errror], and types
    nothing. *)
Theorem connect_to_platform_page_not_loaded fuel account password w w0 :
  fetch_page E fuel login_url TIMEOUT w = Ret false w0 ->
  connect_to_platform E fuel account password w = Raise AttributeError w0 /\
  forall b w', connect_to_platform E fuel account password w <> Ret b w'.
Proof.
  intros Hfetch.
  assert (Hrun : connect_to_platform E fuel account password w
                 = Raise AttributeError w0).
  { unfold connect_to_platform, bind at 1. now rewrite Hfetch. }
  split; [exact Hrun |]. intros b w'. rewrite Hrun. discriminate.
Qed.

End ConnectToPlatform.

Lemma connect_to_platform_result_witness :
  exists w0 w1,
    fetch_page calm 5 login_url TIMEOUT start = Ret true w0 /\
    connect_to_platform calm 5 "account" "password" start
    = Ret true (tick calm (EvWaitVisible (xpath_text "a" "로그아웃") TIMEOUT) w1) /\
    exists el, r_visible calm (calls OWaitVisible w1) = Normal el.
Proof.
  apply (connect_to_platform_result calm 5 "account" "password" start true).
  vm_compute. reflexivity.
Defined.

Lemma connect_to_platform_page_not_loaded_witness :
  connect_to_platform nothing_found 5 "account" "password" start
  = Raise AttributeError
      (tick nothing_found (EvWaitReady 30)
         (dialogs_cleared nothing_found 0
            (tick nothing_found (EvGet login_url) start))) /\
  forall b w',
    connect_to_platform nothing_found 5 "account" "password" start <> Ret b w'.
Proof.
  apply (connect_to_platform_page_not_loaded nothing_found 5 "account" "password").
  vm_compute. reflexivity.
Defined.

(** The log-in goes on when neither field is found: with the fields
    absent and the link present, [connect_to_platform] returns true. *)
Example connect_to_platform_examples :
  let E := scenario fs_idle
             (first_then 2 (Throws TimeoutException) (Normal 7%nat))
             (always (Throws TimeoutException)) no_alert (always (Normal tt))
             (always (Normal (Some "btn"))) (always (Normal tt)) in
  let run := connect_to_platform E 5 "account" "password" start in
  returned run = Some true /\
  count_op OSendKeys (final_trace run) = 0%nat /\
  count_op OClick (final_trace run) = 0%nat.
Proof. vm_compute. repeat split. Qed.

(** ** [Geocoder.monitoring_progress]: probes that raise *)

Section ProbeFaults.

Context (E : Env) (download_dir : string).

Lemma fault_rounds_S xpath k w :
  fault_rounds E xpath (S k) w =
  fault_rounds E xpath k
    (after_sleep E 5 (tick E EvRefresh (tick E (EvWaitVisible xpath 5) w))).
Proof.
  unfold fault_rounds.
  exact (Nat.iter_succ_r k
           (fun w => after_sleep E 5
                       (tick E EvRefresh (tick E (EvWaitVisible xpath 5) w))) w).
Qed.

(** [k] probes that raise something else than a time-out, each followed
    by a refresh that goes through and a back-off of 5, take the loop
    [k] rounds further and leave [download_button] as it was. *)
Lemma poll_row_faults xpath :
  forall k gas retries download_button w,
    retries + Z.of_nat k <= max_retries ->
    (forall i, (i < k)%nat ->
       exists x, r_visible E (calls OWaitVisible w + i) = Throws x /\
                 x <> TimeoutException) ->
    (forall i, (i < k)%nat ->
       r_refresh E (calls ORefresh w + i) = Normal tt) ->
    poll_row E (k + gas) xpath retries download_button w =
    poll_row E gas xpath (retries + Z.of_nat k) download_button
      (fault_rounds E xpath k w).
Proof.
  induction k as [| k IH]; intros gas retries download_button w Hr Hv Hf.
  - simpl. now rewrite Z.add_0_r.
  - rewrite fault_rounds_S.
    change (S k + gas)%nat with (S (k + gas)). cbn [poll_row].
    destruct (Z.ltb_spec retries max_retries) as [_ | Hge]; [| lia].
    destruct (Hv O ltac:(lia)) as (x & Hx & Hne). rewrite Nat.add_0_r in Hx.
    unfold bind at 1, attempt at 1.
    rewrite (find_element_fault E xpath 5 w x Hx Hne).
    unfold bind at 1, poll_except, bind at 1.
    rewrite (call_Normal E EvRefresh (r_refresh E) _ tt)
      by (simpl kind; rewrite calls_tick; simpl;
          specialize (Hf O ltac:(lia)); rewrite Nat.add_0_r in *; exact Hf).
    unfold bind at 1, sleep.
    destruct (Z.gtb_spec (retries + 1) max_retries) as [Hgt | _]; [lia |].
    unfold ret at 1. rewrite IH.
    + now replace (retries + 1 + Z.of_nat k) with (retries + Z.of_nat (S k))
        by lia.
    + lia.
    + intros i Hi. rewrite calls_after_sleep, !calls_tick. simpl.
      replace (calls OWaitVisible w + 1 + 0 + 0 + i)%nat
        with (calls OWaitVisible w + S i)%nat by lia.
      apply Hv. lia.
    + intros i Hi. rewrite calls_after_sleep, !calls_tick. simpl.
      replace (calls ORefresh w + 0 + 1 + 0 + i)%nat
        with (calls ORefresh w + S i)%nat by lia.
      apply Hf. lia.
Qed.

(** X23 (monitoring_progress, thirty faults). When each of the thirty
    probes for the row raises something else than a time-out (the
    refreshes going through), the first loop ends without
    [download_button] ever being assigned, and [monitoring_progress]
    raises [UnboundLocalError] where it reads the button's class: it
    neither returns false nor starts a download. *)
Theorem monitoring_progress_unbound_after_faults fuel file_name timeout w0 w :
  open_monitoring_page E (S fuel) w0 = Ret tt w ->
  (forall i, (i < 30)%nat ->
     exists x, r_visible E (calls OWaitVisible w + i) = Throws x /\
               x <> TimeoutException) ->
  (forall i, (i < 30)%nat -> r_refresh E (calls ORefresh w + i) = Normal tt) ->
  monitoring_progress E download_dir (S fuel) file_name timeout w0 =
  Raise UnboundLocalError
    (fault_rounds E (file_name_td file_name +:+ download_xpath) 30 w).
Proof.
  intros H0 Hv Hf. unfold monitoring_progress.
  unfold bind at 1. rewrite H0.
  change (Z.to_nat max_retries) with (30 + 0)%nat.
  unfold bind at 1.
  rewrite poll_row_faults; auto; try (unfold max_retries; lia).
Qed.

End ProbeFaults.

Lemma monitoring_progress_unbound_after_faults_witness :
  let w := tick row_faults EvCurrentUrl
             (tick row_faults (EvSwitchWindow "popup")
                (tick row_faults EvCurrentUrl
                   (tick row_faults (EvSwitchWindow "main")
                      (tick row_faults EvWindowHandles
                         (tick row_faults (EvWaitWindows 30 2) start))))) in
  monitoring_progress row_faults "dl" 5 chunk 3600 start =
  Raise UnboundLocalError (fault_rounds row_faults chunk_download 30 w).
Proof.
  apply (monitoring_progress_unbound_after_faults row_faults "dl" 4 chunk 3600
           start).
  - vm_compute. reflexivity.
  - intros i _. exists WebDriverException. split; [reflexivity | discriminate].
  - intros i _. reflexivity.
Defined.

(** ** [Geocoder.monitoring_progress]: the budget of the first loop *)

Section ProbeBudget.

Context (E : Env).

Lemma poll_row_probes xpath :
  forall gas retries download_button w w',
    final_world (poll_row E gas xpath retries download_button w) = Some w' ->
    (calls OWaitVisible w' <=
     calls OWaitVisible w + Z.to_nat (max_retries - retries))%nat.
Proof.
  induction gas as [| gas IH]; intros retries download_button w w';
    cbn [poll_row];
    destruct (Z.ltb_spec retries max_retries) as [Hlt | Hge];
    try discriminate;
    try (intros [= <-]; lia).
  assert (Hexc : forall r0 button w1,
            retries <= r0 ->
            (calls OWaitVisible w1 = calls OWaitVisible w + 1)%nat ->
            final_world
              ((let* r := poll_except E r0 in
                match r with
                | inr b0 => ret (Returned b0)
                | inl retries0 => poll_row E gas xpath retries0 button
                end) w1) = Some w' ->
            (calls OWaitVisible w' <=
             calls OWaitVisible w + Z.to_nat (max_retries - retries))%nat).
  { intros r0 button w1 Hr0 Hw1.
    unfold bind at 1, poll_except, bind at 1, call. simpl kind.
    destruct (r_refresh E (calls ORefresh w1)).
    - unfold bind at 1, sleep.
      destruct (r0 + 1 >? max_retries).
      + intros [= <-]. rewrite calls_after_sleep, calls_tick. simpl. lia.
      + unfold ret at 1. intros H. apply IH in H.
        rewrite calls_after_sleep, calls_tick in H. simpl in H. lia.
    - intros [= <-]. rewrite calls_tick. simpl. lia. }
  assert (Hw1 : (calls OWaitVisible (tick E (EvWaitVisible xpath 5) w)
                 = calls OWaitVisible w + 1)%nat).
  { rewrite calls_tick. simpl. lia. }
  unfold bind at 1, attempt, find_element, try_except, bind at 1, call.
  simpl kind.
  destruct (r_visible E (calls OWaitVisible w)) as [el | x].
  - intros [= <-]. lia.
  - destruct x;
      try (apply (Hexc retries download_button); [lia | exact Hw1]).
    unfold ret at 1.
    destruct (Z.gtb_spec (retries + 1) max_retries) as [Hgt | Hle]; [lia |].
    unfold bind at 1, attempt, call. simpl kind.
    destruct (r_refresh E (calls ORefresh (tick E (EvWaitVisible xpath 5) w))).
    + intros H. apply IH in H. rewrite !calls_tick in H. simpl in H. lia.
    + apply (Hexc (retries + 1) (Bound None)); [lia |].
      rewrite !calls_tick. simpl. lia.
Qed.

(** X24 (monitoring_progress, budget). The first loop of
    [monitoring_progress] always ends, and it looks for the download
    control at most thirty times, whatever the driver answers. *)
Theorem poll_row_probe_budget xpath download_button w :
  poll_row E (Z.to_nat max_retries) xpath 0 download_button w <> OutOfFuel /\
  forall w',
    final_world (poll_row E (Z.to_nat max_retries) xpath 0 download_button w)
    = Some w' ->
    (calls OWaitVisible w' <= calls OWaitVisible w + 30)%nat.
Proof.
  split.
  - apply poll_row_ends. unfold max_retries. lia.
  - intros w' H. apply poll_row_probes in H. unfold max_retries in H. lia.
Qed.

End ProbeBudget.
